(** * CVL Secure: anti-abuse and notification layer of the API server

    A shallow embedding of the request handlers of the Express server
    (device identification, idea cooldown, poll voting, poll activation,
    Web Push fan-out, admin login) over a model of its SQLite tables.

    The tables [info_blocks] and [daily_connections], which none of
    these handlers reads, are modelled on their own ([Info],
    [Connections]) with the routes and the middleware that use them; the
    rate limiter in front of the routes is left out.  The [fetch] and
    [install] listeners of the service worker ([Sw]) and the key
    conversion of the client script come after the server.

    Every [await] of the source is one operation of a small free monad
    ([prog]); a handler is a program in that monad.  Programs are run
    either alone ([run], and [try_run] when an operation may throw) or
    interleaved at their awaits ([run_schedule]), the way the Node.js
    event loop interleaves request handlers. *)

From Stdlib Require Import ZArith QArith Qround Qpower List String Ascii Bool
  Lia Lqa.
Import ListNotations.

Local Open Scope string_scope.
Local Open Scope Z_scope.

(** ** JavaScript values *)

Module Js.

(** Numbers.  A finite number is the rational it stands for; the results
    of arithmetic are rounded to the binary64 format ([double] below).
    The two zeros are one: only a division by zero would tell them apart,
    and the handlers divide by 1000 and by a total that is not zero. *)
Inductive number : Type :=
| NaN
| Infinity (negative : bool)
| Fin (q : Q).

(** The values a JSON body field or a header can hold; [Undefined] is an
    absent field, and [Obj] any object that is not an array, of which only
    its being one is read. *)
#[warnings="-register-all"]
Inductive value : Type :=
| Undefined
| Null
| Bool (b : bool)
| Num (n : number)
| Str (s : string)
| Arr (items : list value)
| Obj.

Definition of_Z (z : Z) : number := Fin (inject_Z z).

Definition q_is_integer (q : Q) : bool := Qeq_bool (inject_Z (Qfloor q)) q.

(** [Number.isInteger]. *)
Definition isInteger (n : number) : bool :=
  match n with
  | Fin q => q_is_integer q
  | _ => false
  end.

Definition Qlt_bool (x y : Q) : bool := negb (Qle_bool y x).

(** [a < b]; any comparison with [NaN] is false. *)
Definition lt (a b : number) : bool :=
  match a, b with
  | NaN, _ | _, NaN => false
  | Fin x, Fin y => Qlt_bool x y
  | Infinity true, Infinity true => false
  | Infinity true, _ => true
  | Fin _, Infinity neg => negb neg
  | Infinity false, _ => false
  end.

(** [a >= b]. *)
Definition ge (a b : number) : bool :=
  match a, b with
  | NaN, _ | _, NaN => false
  | _, _ => negb (lt a b)
  end.

(** The ceiling of a rational. *)
Definition ceil (q : Q) : Z := Qceiling q.

(** *** Arithmetic in binary64 *)

Definition pow2 (k : Z) : Q := (2 ^ k)%Q.

(** The integer nearest to [q], the even one of two that are as near. *)
Definition nearest_even (q : Q) : Z :=
  let f := Qfloor q in
  match (q - inject_Z f ?= 1 # 2)%Q with
  | Lt => f
  | Gt => f + 1
  | Eq => if Z.even f then f else f + 1
  end.

(** The exponent of a positive rational: the [e] with
    [2^e <= q < 2^(e+1)]. *)
Definition exponent (q : Q) : Z :=
  let e := Z.log2 (Qnum q) - Z.log2 (Zpos (Qden q)) in
  match (q ?= pow2 e)%Q with
  | Lt => e - 1
  | _ => e
  end.

(** The multiple of the unit in the last place nearest to a positive
    rational, in lowest terms: 53 significant bits, and steps of
    [2^-1074] at the bottom of the range. *)
Definition round_positive (q : Q) : Q :=
  let k := Z.max (exponent q - 52) (-1074) in
  Qred (inject_Z (nearest_even (q / pow2 k)) * pow2 k).

Definition overflows (r : Q) : bool := Qle_bool (pow2 1024) r.

(** The binary64 number nearest to a rational, ties to even: what a
    numeral or the exact result of an operation becomes. *)
Definition double (q : Q) : number :=
  match (q ?= 0)%Q with
  | Eq => Fin 0
  | Gt => let r := round_positive q in
          if overflows r then Infinity false else Fin r
  | Lt => let r := round_positive (- q) in
          if overflows r then Infinity true else Fin (- r)
  end.

(** [a - b] *)
Definition sub (a b : number) : number :=
  match a, b with
  | NaN, _ | _, NaN => NaN
  | Fin x, Fin y => double (x - y)
  | Infinity s, Fin _ => Infinity s
  | Fin _, Infinity s => Infinity (negb s)
  | Infinity s, Infinity t => if Bool.eqb s t then NaN else Infinity s
  end.

(** [a * b] *)
Definition mul (a b : number) : number :=
  match a, b with
  | NaN, _ | _, NaN => NaN
  | Fin x, Fin y => double (x * y)
  | Infinity s, Fin y | Fin y, Infinity s =>
      match (y ?= 0)%Q with
      | Eq => NaN
      | Gt => Infinity s
      | Lt => Infinity (negb s)
      end
  | Infinity s, Infinity t => Infinity (xorb s t)
  end.

(** [a / b] *)
Definition div (a b : number) : number :=
  match a, b with
  | NaN, _ | _, NaN => NaN
  | Fin x, Fin y =>
      match (y ?= 0)%Q with
      | Eq =>
          match (x ?= 0)%Q with
          | Eq => NaN
          | Gt => Infinity false
          | Lt => Infinity true
          end
      | _ => double (x / y)
      end
  | Infinity s, Fin y =>
      match (y ?= 0)%Q with
      | Lt => Infinity (negb s)
      | _ => Infinity s
      end
  | Fin _, Infinity _ => Fin 0
  | Infinity _, Infinity _ => NaN
  end.

(** [Math.ceil] and [Math.round]. *)
Definition Math_ceil (n : number) : number :=
  match n with
  | Fin q => Fin (inject_Z (Qceiling q))
  | _ => n
  end.

Definition Math_round (n : number) : number :=
  match n with
  | Fin q => Fin (inject_Z (Qfloor (q + (1 # 2))))
  | _ => n
  end.

(** Strings: a [string] is read as a sequence of code units below 256. *)
Definition length (s : string) : Z := Z.of_nat (String.length s).

(** The white space and line terminators of [String.prototype.trim] among
    the code units below 256: TAB, LF, VT, FF, CR, SP and NBSP. *)
Definition is_space (c : ascii) : bool :=
  let n := Z.of_nat (nat_of_ascii c) in
  ((9 <=? n) && (n <=? 13)) || (n =? 32) || (n =? 160).

Fixpoint trimStart (s : string) : string :=
  match s with
  | EmptyString => EmptyString
  | String c r => if is_space c then trimStart r else s
  end.

Fixpoint trimEnd (s : string) : string :=
  match s with
  | EmptyString => EmptyString
  | String c r =>
      match trimEnd r with
      | EmptyString => if is_space c then EmptyString else String c EmptyString
      | r' => String c r'
      end
  end.

Definition trim (s : string) : string := trimEnd (trimStart s).

(** [s.slice(0, n)] for [n >= 0]. *)
Definition slice0 (n : Z) (s : string) : string := substring 0 (Z.to_nat n) s.

(** [v || ""] followed by a string method: what the source reads of a
    field that validation has already restricted to a string or nothing. *)
Definition or_empty (v : value) : string :=
  match v with
  | Str s => s
  | _ => EmptyString
  end.

(** Truthiness of a string. *)
Definition nonempty (s : string) : bool := negb (s =? "")%string.

(** The text of a value.  Of the text of a number only this is used: it is
    a decimal integer exactly when the number is an integer below
    [10^21], it is no word, and it reads back as the number.  A text with
    a comma is not looked into. *)
Inductive printed : Type :=
| Text (s : string)
| Numeral (n : number)
| Joined.

(** [String(v)], which is [items.join(",")] on an array. *)
Fixpoint text_of (v : value) : printed :=
  match v with
  | Undefined => Text "undefined"
  | Null => Text "null"
  | Bool b => Text (if b then "true" else "false")
  | Num n => Numeral n
  | Str s => Text s
  | Arr [] => Text ""
  | Arr [item] =>
      match item with
      | Undefined | Null => Text ""
      | _ => text_of item
      end
  | Arr (_ :: _ :: _) => Joined
  | Obj => Text "[object Object]"
  end.

(** What the [sqlite3] driver binds to a text column for a value that a
    chain of [isIn] has let through: the string itself, and the text
    [[object Object]] for an array. *)
Definition bound_text (v : value) : string :=
  match v with
  | Str s => s
  | Arr _ | Obj => "[object Object]"
  | _ => EmptyString
  end.

End Js.

(** ** SHA-256 *)

(** The digest that [crypto.createHash("sha256")] computes, as FIPS 180-4
    defines it. *)
Module Sha256.

(** 32-bit words as integers below [2 ^ 32]. *)
Definition wrap (x : Z) : Z := x mod 2 ^ 32.

Definition plus (x y : Z) : Z := wrap (x + y).

Definition rotr (n x : Z) : Z :=
  Z.lor (Z.shiftr x n) (wrap (Z.shiftl x (32 - n))).

Definition complement (x : Z) : Z := Z.lxor x (2 ^ 32 - 1).

Definition xor3 (x y z : Z) : Z := Z.lxor (Z.lxor x y) z.

Definition Ch (x y z : Z) : Z :=
  Z.lxor (Z.land x y) (Z.land (complement x) z).

Definition Maj (x y z : Z) : Z :=
  xor3 (Z.land x y) (Z.land x z) (Z.land y z).

Definition big_sigma0 (x : Z) : Z := xor3 (rotr 2 x) (rotr 13 x) (rotr 22 x).
Definition big_sigma1 (x : Z) : Z := xor3 (rotr 6 x) (rotr 11 x) (rotr 25 x).
Definition small_sigma0 (x : Z) : Z :=
  xor3 (rotr 7 x) (rotr 18 x) (Z.shiftr x 3).
Definition small_sigma1 (x : Z) : Z :=
  xor3 (rotr 17 x) (rotr 19 x) (Z.shiftr x 10).

(** The first primes, by trial division. *)
Fixpoint primes_upto (fuel : nat) (n : Z) (found : list Z) : list Z :=
  match fuel with
  | O => found
  | S fuel' =>
      if forallb (fun p => negb (n mod p =? 0)) found
      then primes_upto fuel' (n + 1) (found ++ [n])
      else primes_upto fuel' (n + 1) found
  end.

Definition primes : list Z := primes_upto 310 2 [].

(** The integer cube root of a number below [2 ^ (3 * bits)], one bit at
    a time from the top. *)
Fixpoint cube_root (bits : nat) (x root : Z) : Z :=
  match bits with
  | O => root
  | S lower =>
      let candidate := root + 2 ^ Z.of_nat lower in
      cube_root lower x
        (if candidate * candidate * candidate <=? x then candidate else root)
  end.

(** The round constants: the first 32 bits of the fractional parts of the
    cube roots of the first 64 primes. *)
Definition K : list Z :=
  map (fun p => wrap (cube_root 36 (p * 2 ^ 96) 0)) primes.

(** The initial hash value: the first 32 bits of the fractional parts of
    the square roots of the first 8 primes. *)
Definition H0 : list Z :=
  map (fun p => wrap (Z.sqrt (p * 2 ^ 64))) (firstn 8 primes).

(** The UTF-8 bytes of a string of code units below 256. *)
Fixpoint utf8 (s : string) : list Z :=
  match s with
  | EmptyString => []
  | String c rest =>
      let u := Z.of_nat (nat_of_ascii c) in
      if u <? 128 then u :: utf8 rest
      else (192 + u / 64) :: (128 + u mod 64) :: utf8 rest
  end.

Fixpoint big_endian (bytes : nat) (x : Z) : list Z :=
  match bytes with
  | O => []
  | S fewer => (x / 2 ^ (8 * Z.of_nat fewer)) mod 256 :: big_endian fewer x
  end.

(** The message, a one bit, zeroes up to 56 modulo 64 bytes, and the
    length in bits on 8 bytes. *)
Definition pad (message : list Z) : list Z :=
  let len := Z.of_nat (List.length message) in
  message ++ [128] ++ repeat 0 (Z.to_nat ((55 - len) mod 64))
    ++ big_endian 8 (8 * len).

Fixpoint words (bytes : list Z) : list Z :=
  match bytes with
  | a :: b :: c :: d :: rest =>
      (((a * 256 + b) * 256 + c) * 256 + d) :: words rest
  | _ => []
  end.

Definition word (ws : list Z) (i : nat) : Z := nth i ws 0.

(** One round: the working variables [a .. h] as a list, the round
    constant and the word of the message schedule. *)
Definition round (v : list Z) (k w : Z) : list Z :=
  let t1 := plus (plus (plus (plus (word v 7) (big_sigma1 (word v 4)))
                          (Ch (word v 4) (word v 5) (word v 6))) k) w in
  let t2 := plus (big_sigma0 (word v 0))
              (Maj (word v 0) (word v 1) (word v 2)) in
  [plus t1 t2; word v 0; word v 1; word v 2; plus (word v 3) t1;
   word v 4; word v 5; word v 6].

(** The rounds over the round constants left, with the last 16 words of
    the message schedule as a sliding window. *)
Fixpoint rounds (ks : list Z) (window v : list Z) : list Z :=
  match ks with
  | [] => v
  | k :: later =>
      let next :=
        plus (plus (plus (small_sigma1 (word window 14)) (word window 9))
                (small_sigma0 (word window 1))) (word window 0) in
      rounds later (tl window ++ [next]) (round v k (word window 0))
  end.

Definition compress (h block : list Z) : list Z :=
  map (fun xy => plus (fst xy) (snd xy)) (combine h (rounds K block h)).

Fixpoint blocks (count : nat) (ws h : list Z) : list Z :=
  match count with
  | O => h
  | S fewer => blocks fewer (skipn 16 ws) (compress h (firstn 16 ws))
  end.

Definition digest (message : list Z) : list Z :=
  let ws := words (pad message) in
  blocks (List.length ws / 16) ws H0.

Definition hex_digit (n : Z) : ascii :=
  ascii_of_nat (Z.to_nat (if n <? 10 then 48 + n else 87 + n)).

Fixpoint hex_word (digits : nat) (x : Z) (tail : string) : string :=
  match digits with
  | O => tail
  | S fewer => hex_word fewer (x / 16) (String (hex_digit (x mod 16)) tail)
  end.

(** [crypto.createHash("sha256").update(s).digest("hex")]. *)
Definition hex (s : string) : string :=
  fold_right (fun w tail => hex_word 8 w tail) "" (digest (utf8 s)).

End Sha256.

(** ** Library functions the server calls *)

(** The payload of an admin token: only the truthiness of its [admin]
    claim is read. *)
Record jwt_payload : Type := { claim_admin : bool }.

(** The npm packages the handlers call are an interface of the model:
    every theorem holds for all their implementations. *)
Class External : Type := {
  (** [sanitizeHtml(s, { allowedTags: [], allowedAttributes: {} })] *)
  sanitizeHtml : string -> string;
  (** [bcrypt.compare(password, hash)] *)
  bcrypt_compare : string -> string -> bool;
  (** [jwt.sign({ admin: true }, secret, { expiresIn: "8h" })] at a time *)
  jwt_sign_admin : string -> Z -> string;
  (** [jwt.verify(token, secret)] at a time; [None] when it throws *)
  jwt_verify : string -> string -> Z -> option jwt_payload;
  (** [Number(s)] on a string *)
  StringToNumber : string -> Js.number;
  (** whether [webpush.setVapidDetails(subject, publicKey, privateKey)]
      returns; it throws otherwise *)
  vapidDetailsAccepted : string -> string -> string -> bool
}.

(** [Number(v)]; an array or an object is read through its text. *)
Definition ToNumber `{External} (v : Js.value) : Js.number :=
  match v with
  | Js.Undefined => Js.NaN
  | Js.Null => Js.of_Z 0
  | Js.Bool b => Js.of_Z (if b then 1 else 0)
  | Js.Num n => n
  | Js.Str s => StringToNumber s
  | Js.Arr _ | Js.Obj =>
      match Js.text_of v with
      | Js.Text s => StringToNumber s
      | Js.Numeral n => n
      | Js.Joined => Js.NaN
      end
  end.

(** ** express-validator chains *)

Module Validator.

(** [isString()]: [typeof value === "string"]. *)
Definition isString (v : Js.value) : bool :=
  match v with
  | Js.Str _ => true
  | _ => false
  end.

(** [isLength({ min, max })] on a string. *)
Definition isLength (min max : Z) (s : string) : bool :=
  (min <=? Js.length s) && (Js.length s <=? max).

(** The chain [isString().isLength({ min, max })]. *)
Definition string_between (min max : Z) (v : Js.value) : bool :=
  match v with
  | Js.Str s => isLength min max s
  | _ => false
  end.

(** The text express-validator hands a standard validator for a value
    ([toString]): the text of the first item for an array, the empty text
    for nothing and for [NaN]. *)
Definition stringify (v : Js.value) : Js.printed :=
  match v with
  | Js.Undefined | Js.Null | Js.Num Js.NaN => Js.Text ""
  | Js.Arr (first :: _) =>
      match first with
      | Js.Undefined | Js.Null | Js.Num Js.NaN => Js.Text ""
      | _ => Js.text_of first
      end
  | _ => Js.text_of v
  end.

(** A standard validator is run on the value, or on each item when the
    value is an array. *)
Definition standard (check : Js.printed -> bool) (v : Js.value) : bool :=
  match v with
  | Js.Arr items => forallb (fun item => check (stringify item)) items
  | _ => check (stringify v)
  end.

(** The chain [isIn(labels)] for a list of words, which no number prints
    as. *)
Definition isIn (labels : list string) (v : Js.value) : bool :=
  standard
    (fun t =>
       match t with
       | Js.Text s => existsb (String.eqb s) labels
       | _ => false
       end)
    v.

(** [optional()]: an absent field passes. *)
Definition optional (check : Js.value -> bool) (v : Js.value) : bool :=
  match v with
  | Js.Undefined => true
  | _ => check v
  end.

(** [optional({ nullable: true })]: an absent or null field passes. *)
Definition optional_nullable (check : Js.value -> bool) (v : Js.value) : bool :=
  match v with
  | Js.Undefined | Js.Null => true
  | _ => check v
  end.

Definition digit (c : ascii) : option Z :=
  let n := Z.of_nat (nat_of_ascii c) in
  if (48 <=? n) && (n <=? 57) then Some (n - 48) else None.

Fixpoint digits (acc : Z) (s : string) : option Z :=
  match s with
  | EmptyString => Some acc
  | String c r =>
      match digit c with
      | Some d => digits (10 * acc + d) r
      | None => None
      end
  end.

(** One digit or more; leading zeroes are let through. *)
Definition unsigned_int (s : string) : option Z :=
  match s with
  | EmptyString => None
  | _ => digits 0 s
  end.

(** The integer pattern of [isInt]: an optional sign, then digits. *)
Definition int_of_string (s : string) : option Z :=
  match s with
  | String "+" r => unsigned_int r
  | String "-" r => option_map Z.opp (unsigned_int r)
  | _ => unsigned_int s
  end.

(** [isInt({ min, max })]: the value, printed, is a decimal integer
    within the bounds. *)
Definition isInt (min max : Z) (v : Js.value) : bool :=
  standard
    (fun t =>
       match t with
       | Js.Numeral (Js.Fin q) =>
           Js.q_is_integer q && (min <=? Qfloor q) && (Qfloor q <=? max)
       | Js.Text s =>
           match int_of_string s with
           | Some z => (min <=? z) && (z <=? max)
           | None => false
           end
       | _ => false
       end)
    v.

(** [validationErrors(req)]: the paths of the failed chains, or nothing. *)
Definition failed (checks : list (string * bool)) : list string :=
  map fst (filter (fun c => negb (snd c)) checks).

End Validator.

(** ** The SQLite tables *)

Module Db.

(** Table [ideas].  A [created_at] column holds [new Date().toISOString()];
    the model keeps the millisecond count that [Date.parse] reads back. *)
Record idea : Type := {
  idea_id : Z;
  idea_text : string;
  idea_category : string;
  idea_urgency : string;
  idea_status : string;
  idea_device_hash : string;
  idea_created_at : Z
}.

(** Table [news]. *)
Record news_item : Type := {
  news_id : Z;
  news_title : string;
  news_description : string;
  news_created_at : Z
}.

(** Table [poll].  [options_json] holds [JSON.stringify] of an array of
    strings; the model keeps the array that [JSON.parse] reads back. *)
Record poll : Type := {
  poll_id : Z;
  poll_question : string;
  poll_options_json : list string;
  poll_active : Z;
  poll_created_at : Z
}.

(** Table [poll_votes], with [UNIQUE(poll_id, voter_hash)] and a foreign
    key from [poll_id] to [poll(id)]. *)
Record vote : Type := {
  vote_id : Z;
  vote_poll_id : Z;
  vote_option_index : Z;
  vote_voter_hash : string;
  vote_created_at : Z
}.

(** What a browser's [PushSubscription] serialises to. *)
Record subscription : Type := {
  sub_endpoint : string;
  sub_p256dh : string;
  sub_auth : string
}.

(** Table [push_subscriptions], with primary key [endpoint].
    [subscription_json] holds [JSON.stringify] of the subscription; the
    model keeps the object that [JSON.parse] reads back. *)
Record push_row : Type := {
  push_endpoint : string;
  push_subscription_json : subscription;
  push_device_hash : string;
  push_user_agent : string;
  push_created_at : Z;
  push_updated_at : Z
}.

(** The database: the rows of each table in insertion order, and the
    [AUTOINCREMENT] counter of each table with an integer key. *)
Record t : Type := {
  ideas : list idea;
  news : list news_item;
  polls : list poll;
  poll_votes : list vote;
  push_subscriptions : list push_row;
  seq_ideas : Z;
  seq_news : Z;
  seq_poll : Z;
  seq_poll_votes : Z
}.

Definition empty : t :=
  {| ideas := []; news := []; polls := []; poll_votes := [];
     push_subscriptions := [];
     seq_ideas := 0; seq_news := 0; seq_poll := 0; seq_poll_votes := 0 |}.

Inductive sql_error : Type :=
| SQLITE_CONSTRAINT_UNIQUE
| SQLITE_CONSTRAINT_FOREIGNKEY
| SQLITE_CONSTRAINT_NOTNULL
| SQLITE_IOERR.

(** The integer a bound number compares equal to in an INTEGER column. *)
Definition as_integer (n : Js.number) : option Z :=
  match n with
  | Js.Fin q => if Js.q_is_integer q then Some (Qfloor q) else None
  | _ => None
  end.

(** The row of greatest [id] among those that satisfy [keep]:
    [... ORDER BY id DESC LIMIT 1]. *)
Fixpoint last_by_id {A : Type} (id : A -> Z) (keep : A -> bool) (rows : list A)
  : option A :=
  match rows with
  | [] => None
  | r :: rest =>
      match last_by_id id keep rest with
      | Some r' => if keep r && (id r' <? id r) then Some r else Some r'
      | None => if keep r then Some r else None
      end
  end.

(** [SELECT created_at FROM ideas WHERE device_hash = ? ORDER BY id DESC LIMIT 1] *)
Definition select_last_idea (device_hash : string) (d : t) : option Z :=
  option_map idea_created_at
    (last_by_id idea_id (fun i => (idea_device_hash i =? device_hash)%string)
       (ideas d)).

(** [INSERT INTO ideas(text, category, urgency, device_hash, created_at) ...] *)
Definition insert_idea (text category urgency device_hash : string)
    (created_at : Z) (d : t) : t :=
  let id := seq_ideas d + 1 in
  {| ideas := ideas d ++
       [{| idea_id := id; idea_text := text; idea_category := category;
           idea_urgency := urgency; idea_status := "nouveau";
           idea_device_hash := device_hash; idea_created_at := created_at |}];
     news := news d; polls := polls d; poll_votes := poll_votes d;
     push_subscriptions := push_subscriptions d;
     seq_ideas := id; seq_news := seq_news d; seq_poll := seq_poll d;
     seq_poll_votes := seq_poll_votes d |}.

(** [INSERT INTO news(title, description, created_at) ...] *)
Definition insert_news (title description : string) (created_at : Z) (d : t)
  : t :=
  let id := seq_news d + 1 in
  {| ideas := ideas d;
     news := news d ++
       [{| news_id := id; news_title := title;
           news_description := description; news_created_at := created_at |}];
     polls := polls d; poll_votes := poll_votes d;
     push_subscriptions := push_subscriptions d;
     seq_ideas := seq_ideas d; seq_news := id; seq_poll := seq_poll d;
     seq_poll_votes := seq_poll_votes d |}.

(** [SELECT id, options_json, active FROM poll WHERE id = ?] *)
Definition select_poll (id : Js.number) (d : t) : option poll :=
  match as_integer id with
  | Some z => find (fun p => poll_id p =? z) (polls d)
  | None => None
  end.

(** [SELECT ... FROM poll WHERE active = 1 ORDER BY id DESC LIMIT 1] *)
Definition select_active_poll (d : t) : option poll :=
  last_by_id poll_id (fun p => poll_active p =? 1) (polls d).

(** [SELECT option_index, COUNT( * ) AS n FROM poll_votes WHERE poll_id = ?
    GROUP BY option_index]: one row per option index that has votes. *)
Fixpoint group_counts (idxs : list Z) : list (Z * Z) :=
  match idxs with
  | [] => []
  | i :: rest =>
      let g := group_counts rest in
      if existsb (fun r => fst r =? i) g
      then map (fun r => if fst r =? i then (i, snd r + 1) else r) g
      else (i, 1) :: g
  end.

Definition select_vote_counts (poll : Z) (d : t) : list (Z * Z) :=
  group_counts
    (map vote_option_index
       (filter (fun v => vote_poll_id v =? poll) (poll_votes d))).

Definition set_polls (ps : list poll) (seq : Z) (d : t) : t :=
  {| ideas := ideas d; news := news d; polls := ps;
     poll_votes := poll_votes d;
     push_subscriptions := push_subscriptions d;
     seq_ideas := seq_ideas d; seq_news := seq_news d; seq_poll := seq;
     seq_poll_votes := seq_poll_votes d |}.

Definition deactivate (p : poll) : poll :=
  {| poll_id := poll_id p; poll_question := poll_question p;
     poll_options_json := poll_options_json p; poll_active := 0;
     poll_created_at := poll_created_at p |}.

(** [UPDATE poll SET active = 0 WHERE active = 1] *)
Definition update_deactivate_polls (d : t) : t :=
  set_polls
    (map (fun p => if poll_active p =? 1 then deactivate p else p) (polls d))
    (seq_poll d) d.

(** [INSERT INTO poll(question, options_json, active, created_at)
    VALUES(?, ?, 1, ?)] *)
Definition insert_poll (question : string) (options : list string)
    (created_at : Z) (d : t) : t :=
  let id := seq_poll d + 1 in
  set_polls
    (polls d ++
       [{| poll_id := id; poll_question := question;
           poll_options_json := options; poll_active := 1;
           poll_created_at := created_at |}])
    id d.

Definition same_voter (poll : Z) (voter : string) (v : vote) : bool :=
  (vote_poll_id v =? poll) && (vote_voter_hash v =? voter)%string.

(** [INSERT INTO poll_votes(poll_id, option_index, voter_hash, created_at)
    ...]: refused when the bound poll id is not an integer of the [poll]
    table or when the pair (poll_id, voter_hash) is already present. *)
Definition insert_vote (poll : Js.number) (option_index : Z) (voter : string)
    (created_at : Z) (d : t) : sql_error + t :=
  match poll with
  | Js.NaN => inl SQLITE_CONSTRAINT_NOTNULL
  | _ =>
      match as_integer poll with
      | None => inl SQLITE_CONSTRAINT_FOREIGNKEY
      | Some z =>
          if existsb (same_voter z voter) (poll_votes d)
          then inl SQLITE_CONSTRAINT_UNIQUE
          else if negb (existsb (fun p => poll_id p =? z) (polls d))
          then inl SQLITE_CONSTRAINT_FOREIGNKEY
          else
            let id := seq_poll_votes d + 1 in
            inr {| ideas := ideas d; news := news d; polls := polls d;
                   poll_votes := poll_votes d ++
                     [{| vote_id := id; vote_poll_id := z;
                         vote_option_index := option_index;
                         vote_voter_hash := voter;
                         vote_created_at := created_at |}];
                   push_subscriptions := push_subscriptions d;
                   seq_ideas := seq_ideas d; seq_news := seq_news d;
                   seq_poll := seq_poll d; seq_poll_votes := id |}
      end
  end.

Definition set_push (rows : list push_row) (d : t) : t :=
  {| ideas := ideas d; news := news d; polls := polls d;
     poll_votes := poll_votes d; push_subscriptions := rows;
     seq_ideas := seq_ideas d; seq_news := seq_news d;
     seq_poll := seq_poll d; seq_poll_votes := seq_poll_votes d |}.

(** [DELETE FROM push_subscriptions WHERE endpoint = ?] *)
Definition delete_subscription (endpoint : string) (d : t) : t :=
  set_push
    (filter (fun r => negb (push_endpoint r =? endpoint)%string)
       (push_subscriptions d))
    d.

(** [INSERT INTO push_subscriptions(...) VALUES(...) ON CONFLICT(endpoint)
    DO UPDATE SET subscription_json, device_hash, user_agent, updated_at]:
    an existing row keeps its place and its [created_at]. *)
Definition upsert_subscription (endpoint : string) (sub : subscription)
    (device_hash user_agent : string) (now : Z) (d : t) : t :=
  let fresh := {| push_endpoint := endpoint; push_subscription_json := sub;
                  push_device_hash := device_hash;
                  push_user_agent := user_agent;
                  push_created_at := now; push_updated_at := now |} in
  if existsb (fun r => (push_endpoint r =? endpoint)%string)
       (push_subscriptions d)
  then
    set_push
      (map (fun r =>
              if (push_endpoint r =? endpoint)%string
              then {| push_endpoint := endpoint;
                      push_subscription_json := sub;
                      push_device_hash := device_hash;
                      push_user_agent := user_agent;
                      push_created_at := push_created_at r;
                      push_updated_at := now |}
              else r)
         (push_subscriptions d))
      d
  else set_push (push_subscriptions d ++ [fresh]) d.

End Db.

(** ** Configuration, operations and programs *)

(** The environment variables read at start-up. *)
Record config : Type := {
  JWT_SECRET : string;
  ADMIN_PASSWORD_HASH : string;
  COOKIE_NAME : string;
  IDEA_COOLDOWN_SEC : Q;
  VAPID_PUBLIC_KEY : string;
  VAPID_PRIVATE_KEY : string;
  VAPID_SUBJECT : string;
  NODE_ENV : string
}.

(** The notification handed to [sendPushToAll]. *)
Record payload : Type := {
  pl_title : string;
  pl_body : string;
  pl_url : string;
  pl_tag : string;
  pl_ts : Z
}.

(** How [webpush.sendNotification] settles: it resolves, or it rejects
    with an error whose [statusCode] may be missing. *)
Inductive delivery : Type :=
| Delivered
| Rejected (statusCode : option Z).

(** The operations: [get], [all] and [run] on each SQL statement of the
    handlers, the lazy import of [web-push], the call of
    [setVapidDetails], and a push delivery.  A [run] that the source wraps
    in [try] answers with its error.  All are awaited but
    [setVapidDetails], which runs at once after the import: the schedules
    below that pause before it are more than the event loop has. *)
Inductive op : Type -> Type :=
| GetLastIdea (device_hash : string) : op (option Z)
| RunInsertIdea (text category urgency device_hash : string) (created_at : Z)
  : op unit
| RunInsertNews (title description : string) (created_at : Z) : op unit
| GetPoll (id : Js.number) : op (option Db.poll)
| GetActivePoll : op (option Db.poll)
| AllVoteCounts (poll : Z) : op (list (Z * Z))
| RunInsertVote (poll : Js.number) (option_index : Z) (voter : string)
    (created_at : Z) : op (Db.sql_error + unit)
| RunDeactivatePolls : op unit
| RunInsertPoll (question : string) (options : list string) (created_at : Z)
  : op unit
| AllSubscriptions : op (list Db.push_row)
| RunDeleteSubscription (endpoint : string) : op (Db.sql_error + unit)
| RunUpsertSubscription (endpoint : string) (sub : Db.subscription)
    (device_hash user_agent : string) (now : Z) : op unit
| ImportWebPush : op bool
| SetVapidDetails (subject publicKey privateKey : string) : op unit
| SendNotification (sub : Db.subscription) (p : payload) : op delivery.

(** An operation performed, whatever its answer type. *)
Inductive event : Type :=
| Ev {A : Type} (o : op A).

(** What lies outside the process: whether the [web-push] package is
    installed, how the push service answers a delivery, and on which
    statements the store fails for a reason of its own (disk, lock). *)
Record env : Type := {
  webpush_installed : bool;
  push_service : Db.subscription -> payload -> delivery;
  store_fails : forall A : Type, op A -> bool
}.

(** The process and the world around it: the database, and the
    operations performed so far, oldest first. *)
Record world : Type := {
  w_db : Db.t;
  w_log : list event
}.

(** One operation against the database, when it does not throw
    ([throws] below): of the failures of the store, those of the two
    statements in a [try] are answers. *)
Definition exec (e : env) {A : Type} (o : op A) (d : Db.t) : A * Db.t :=
  match o in op T return T * Db.t with
  | GetLastIdea h => (Db.select_last_idea h d, d)
  | RunInsertIdea text category urgency h t =>
      (tt, Db.insert_idea text category urgency h t d)
  | RunInsertNews title description t =>
      (tt, Db.insert_news title description t d)
  | GetPoll id => (Db.select_poll id d, d)
  | GetActivePoll => (Db.select_active_poll d, d)
  | AllVoteCounts poll => (Db.select_vote_counts poll d, d)
  | RunInsertVote poll idx voter t =>
      if store_fails e _ (RunInsertVote poll idx voter t)
      then (inl Db.SQLITE_IOERR, d)
      else
        match Db.insert_vote poll idx voter t d with
        | inl err => (inl err, d)
        | inr d' => (inr tt, d')
        end
  | RunDeactivatePolls => (tt, Db.update_deactivate_polls d)
  | RunInsertPoll question options t =>
      (tt, Db.insert_poll question options t d)
  | AllSubscriptions => (Db.push_subscriptions d, d)
  | RunDeleteSubscription endpoint =>
      if store_fails e _ (RunDeleteSubscription endpoint)
      then (inl Db.SQLITE_IOERR, d)
      else (inr tt, Db.delete_subscription endpoint d)
  | RunUpsertSubscription endpoint sub h ua now =>
      (tt, Db.upsert_subscription endpoint sub h ua now d)
  | ImportWebPush => (webpush_installed e, d)
  | SetVapidDetails _ _ _ => (tt, d)
  | SendNotification sub p => (push_service e sub p, d)
  end.

(** Whether an operation throws into the function that called it: a
    statement outside a [try] on which the store fails ([run], [get] and
    [all] reject on every error), and [setVapidDetails] on keys it
    refuses.  The failures of the import, of a delivery and of the two
    statements in a [try] are caught where they happen. *)
Definition throws `{External} (e : env) {A : Type} (o : op A) : bool :=
  match o with
  | RunInsertVote _ _ _ _ | RunDeleteSubscription _ | ImportWebPush
  | SendNotification _ _ => false
  | SetVapidDetails subject publicKey privateKey =>
      negb (vapidDetailsAccepted subject publicKey privateKey)
  | _ => store_fails e _ o
  end.

(** An asynchronous function: it returns, or it awaits an operation and
    goes on with the answer. *)
Inductive prog (R : Type) : Type :=
| Ret (r : R)
| Do {A : Type} (o : op A) (k : A -> prog R).

Arguments Ret {R} r.
Arguments Do {R A} o k.

Fixpoint bind {R S : Type} (p : prog R) (f : R -> prog S) : prog S :=
  match p with
  | Ret r => f r
  | Do o k => Do o (fun a => bind (k a) f)
  end.

Definition await {A : Type} (o : op A) : prog A := Do o Ret.

Declare Scope prog_scope.
Delimit Scope prog_scope with prog.
Notation "x <- p ;; q" := (bind p (fun x => q))
  (at level 61, p at next level, right associativity) : prog_scope.
Notation "p ;; q" := (bind p (fun _ => q))
  (at level 61, right associativity) : prog_scope.
Local Open Scope prog_scope.

Definition step_world (e : env) {A : Type} (o : op A) (w : world) : A * world :=
  let answer := exec e o (w_db w) in
  (fst answer, {| w_db := snd answer; w_log := w_log w ++ [Ev o] |}).

(** A program run to completion with nothing else in between, none of
    its operations throwing. *)
Fixpoint run (e : env) {R : Type} (p : prog R) (w : world) : R * world :=
  match p with
  | Ret r => (r, w)
  | Do o k =>
      let next := step_world e o w in
      run e (k (fst next)) (snd next)
  end.

(** The same, up to the first operation that throws: no handler catches
    what [throws] lets through, so the program ends there without a
    result, the operation logged and the database as the operations before
    it left it. *)
Fixpoint try_run `{External} (e : env) {R : Type} (p : prog R) (w : world)
  : option R * world :=
  match p with
  | Ret r => (Some r, w)
  | Do o k =>
      if throws e o
      then (None, {| w_db := w_db w; w_log := w_log w ++ [Ev o] |})
      else
        let next := step_world e o w in
        try_run e (k (fst next)) (snd next)
  end.

(** Requests in flight share the world; the event loop resumes one of
    them at a time, up to its next await. *)
Fixpoint resume (e : env) {R : Type} (i : nat) (tasks : list (prog R))
    (w : world) : list (prog R) * world :=
  match tasks, i with
  | [], _ => ([], w)
  | Ret r :: rest, O => (Ret r :: rest, w)
  | Do o k :: rest, O =>
      let next := step_world e o w in
      (k (fst next) :: rest, snd next)
  | p :: rest, S j =>
      let others := resume e j rest w in
      (p :: fst others, snd others)
  end.

Fixpoint run_schedule (e : env) {R : Type} (schedule : list nat)
    (tasks : list (prog R)) (w : world) : list (prog R) * world :=
  match schedule with
  | [] => (tasks, w)
  | i :: later =>
      let next := resume e i tasks w in
      run_schedule e later (fst next) (snd next)
  end.

(** ** Responses *)

(** The JSON bodies the handlers send.  Messages are spelt without
    their accents and pictographs. *)
Inductive body : Type :=
| Ok
| Error (message : string)
| ValidationError (paths : list string)
| TooManyRequests (retry_after_sec : Js.number)
| PushReport (sent failed : Z)
| NoActivePoll
| ActivePoll (id : Z) (question : string) (options : list string)
    (created_at : Z) (results : list (string * Z * Js.number)).

Record cookie : Type := {
  cookie_name : string;
  cookie_value : string;
  cookie_httpOnly : bool;
  cookie_sameSite : string;
  cookie_secure : bool;
  cookie_maxAge : Z
}.

Record response : Type := {
  status : Z;
  json : body;
  set_cookie : option cookie
}.

(** [res.status(code).json(b)], and [res.json(b)] with the default 200. *)
Definition reply (code : Z) (b : body) : response :=
  {| status := code; json := b; set_cookie := None |}.

(** ** The server *)

Section Server.

Context `{External} (cfg : config).

(** *** Helpers *)

(** [sha256(input)]. *)
Definition sha256 (input : string) : string := Sha256.hex input.

(** [cleanText(str, maxLen)] on a string. *)
Definition cleanText (str : string) (maxLen : Z) : string :=
  let cleaned := Js.trim (sanitizeHtml str) in
  if negb (maxLen =? 0) && (Js.length cleaned >? maxLen)
  then Js.slice0 maxLen cleaned
  else cleaned.

(** [signAdminToken()]. *)
Definition signAdminToken (now : Z) : string :=
  jwt_sign_admin (JWT_SECRET cfg) now.

(** [setAuthCookie(res, token)]: the cookie it puts on the response. *)
Definition setAuthCookie (token : string) : cookie :=
  let isProd := (NODE_ENV cfg =? "production")%string in
  {| cookie_name := COOKIE_NAME cfg; cookie_value := token;
     cookie_httpOnly := true; cookie_sameSite := "lax";
     cookie_secure := isProd; cookie_maxAge := 8 * 60 * 60 * 1000 |}.

(** [requireAdmin]: the response that ends the request, or nothing when
    [next()] is called.  [token] is [req.cookies[COOKIE_NAME]]. *)
Definition requireAdmin (token : option string) (now : Z) : option response :=
  match token with
  | None => Some (reply 401 (Error "Non authentifie"))
  | Some tok =>
      if negb (Js.nonempty tok) then Some (reply 401 (Error "Non authentifie"))
      else
        match jwt_verify tok (JWT_SECRET cfg) now with
        | None => Some (reply 401 (Error "Session expiree"))
        | Some pl =>
            if claim_admin pl then None
            else Some (reply 403 (Error "Acces refuse"))
        end
  end.

(** *** Device identity: the middleware on [/api] *)

(** The middleware answers 400 itself or sets [req.deviceHash].
    [header] is [req.get("X-Device-Id")]. *)
Definition resolveDeviceHash (header : option string) : response + string :=
  let deviceId := match header with Some s => s | None => "" end in
  if negb (Js.nonempty deviceId) || (Js.length deviceId <? 8)
     || (Js.length deviceId >? 200)
  then inl (reply 400 (Error "En-tete X-Device-Id manquant"))
  else inr (sha256 deviceId).

(** The middleware as a step of the request: it awaits nothing. *)
Definition device_middleware (header : option string)
  : prog (response + string) :=
  Ret (resolveDeviceHash header).

(** A route under [/api]: the middleware, then the handler. *)
Definition api (header : option string) (handler : string -> prog response)
  : prog response :=
  resolved <- device_middleware header ;;
  match resolved with
  | inl rejected => Ret rejected
  | inr deviceHash => handler deviceHash
  end.

(** *** Push helpers *)

(** [canUsePushConfig()]. *)
Definition canUsePushConfig : bool :=
  Js.nonempty (VAPID_PUBLIC_KEY cfg) && Js.nonempty (VAPID_PRIVATE_KEY cfg).

(** [initWebPushIfConfigured()]: whether a configured module came
    back. *)
Definition initWebPushIfConfigured : prog bool :=
  if negb canUsePushConfig then Ret false
  else
    webpush <- await ImportWebPush ;;
    if negb webpush then Ret false
    else
      await (SetVapidDetails (VAPID_SUBJECT cfg) (VAPID_PUBLIC_KEY cfg)
               (VAPID_PRIVATE_KEY cfg)) ;;
      Ret true.

(** What [sendPushToAll] returns. *)
Record push_result : Type := {
  pr_sent : Z;
  pr_failed : Z;
  pr_disabled : bool;
  pr_reason : option string
}.

(** [status === 404 || status === 410] on [e?.statusCode]. *)
Definition gone (statusCode : option Z) : bool :=
  match statusCode with
  | Some status => (status =? 404) || (status =? 410)
  | None => false
  end.

(** The [for] loop of [sendPushToAll] over the rows read at its start. *)
Fixpoint push_loop (p : payload) (subs : list Db.push_row) (sent failed : Z)
  : prog (Z * Z) :=
  match subs with
  | [] => Ret (sent, failed)
  | s :: rest =>
      let subscription := Db.push_subscription_json s in
      outcome <- await (SendNotification subscription p) ;;
      match outcome with
      | Delivered => push_loop p rest (sent + 1) failed
      | Rejected statusCode =>
          if gone statusCode
          then await (RunDeleteSubscription (Db.push_endpoint s)) ;;
               push_loop p rest sent (failed + 1)
          else push_loop p rest sent (failed + 1)
      end
  end.

(** [sendPushToAll(payload)]. *)
Definition sendPushToAll (p : payload) : prog push_result :=
  if negb canUsePushConfig
  then Ret {| pr_sent := 0; pr_failed := 0; pr_disabled := true;
              pr_reason := Some "missing_vapid" |}
  else
    webpush <- initWebPushIfConfigured ;;
    if negb webpush
    then Ret {| pr_sent := 0; pr_failed := 0; pr_disabled := true;
                pr_reason := Some "missing_webpush_module" |}
    else
      subs <- await AllSubscriptions ;;
      counts <- push_loop p subs 0 0 ;;
      Ret {| pr_sent := fst counts; pr_failed := snd counts;
             pr_disabled := false; pr_reason := None |}.

(** *** [POST /api/public/ideas] *)

Record ideas_body : Type := {
  ib_text : Js.value;
  ib_category : Js.value;
  ib_urgency : Js.value;
  ib_hp : Js.value
}.

Definition categories : list string :=
  ["vie-scolaire"; "cantine"; "ecologie"; "clubs-evenements"; "materiel";
   "autre"].

Definition urgencies : list string := ["basse"; "moyenne"; "haute"].

Definition ideas_checks (b : ideas_body) : list (string * bool) :=
  [("text", Validator.string_between 10 500 (ib_text b));
   ("category", Validator.isIn categories (ib_category b));
   ("urgency", Validator.isIn urgencies (ib_urgency b));
   ("hp", Validator.optional (Validator.string_between 0 5) (ib_hp b))].

(** The insert and the answer that end an accepted submission. *)
Definition ideas_accept (deviceHash : string) (b : ideas_body) (stamp : Z)
  : prog response :=
  let text := cleanText (Js.or_empty (ib_text b)) 500 in
  let category := Js.bound_text (ib_category b) in
  let urgency := Js.bound_text (ib_urgency b) in
  await (RunInsertIdea text category urgency deviceHash stamp) ;;
  Ret (reply 200 Ok).

(** [Number(process.env.IDEA_COOLDOWN_SEC || 60)]: the numeral in the
    environment as a number. *)
Definition cooldown_sec : Js.number := Js.double (IDEA_COOLDOWN_SEC cfg).

(** The handler; [now] is [Date.now()] at the cooldown check and [stamp]
    is [nowIso()] at the insert.  In the handlers below, [now] is the time
    a token is verified at, [stamp] the [nowIso()] of an insert and [ts]
    that of a notification. *)
Definition post_ideas (deviceHash : string) (b : ideas_body) (now stamp : Z)
  : prog response :=
  match Validator.failed (ideas_checks b) with
  | (_ :: _) as errors => Ret (reply 400 (ValidationError errors))
  | [] =>
      if Js.nonempty (Js.trim (Js.or_empty (ib_hp b)))
      then Ret (reply 400 (Error "Requete invalide"))
      else
        last <- await (GetLastIdea deviceHash) ;;
        match last with
        | Some created_at =>
            let diff :=
              Js.div (Js.sub (Js.of_Z now) (Js.of_Z created_at))
                (Js.of_Z 1000) in
            let remaining := Js.Math_ceil (Js.sub cooldown_sec diff) in
            if Js.lt (Js.of_Z 0) remaining
            then Ret (reply 429 (TooManyRequests remaining))
            else ideas_accept deviceHash b stamp
        | None => ideas_accept deviceHash b stamp
        end
  end.

(** *** [GET /api/public/poll] *)

(** [Math.round((votes / total) * 100)]. *)
Definition percent_of (votes total : Z) : Js.number :=
  Js.Math_round
    (Js.mul (Js.div (Js.of_Z votes) (Js.of_Z total)) (Js.of_Z 100)).

Fixpoint poll_results (options : list string) (idx : Z) (counts : list (Z * Z))
    (total : Z) : list (string * Z * Js.number) :=
  match options with
  | [] => []
  | label :: rest =>
      let votes :=
        match find (fun r => fst r =? idx) counts with
        | Some r => snd r
        | None => 0
        end in
      let percent :=
        if total =? 0 then Js.of_Z 0 else percent_of votes total in
      (label, votes, percent) :: poll_results rest (idx + 1) counts total
  end.

Definition get_poll : prog response :=
  p <- await GetActivePoll ;;
  match p with
  | None => Ret (reply 200 NoActivePoll)
  | Some p =>
      let options := Db.poll_options_json p in
      counts <- await (AllVoteCounts (Db.poll_id p)) ;;
      let total := fold_left (fun acc r => acc + snd r) counts 0 in
      Ret (reply 200
             (ActivePoll (Db.poll_id p) (Db.poll_question p) options
                (Db.poll_created_at p)
                (poll_results options 0 counts total)))
  end.

(** *** [POST /api/public/poll/:id/vote] *)

Record vote_request : Type := {
  vr_id : string;
  vr_optionIndex : Js.value
}.

Definition vote_checks (r : vote_request) : list (string * bool) :=
  [("optionIndex", Validator.isInt 0 50 (vr_optionIndex r))].

(** The integer an integral number binds as. *)
Definition integer_of (n : Js.number) : Z :=
  match n with
  | Js.Fin q => Qfloor q
  | _ => 0
  end.

Definition post_vote (deviceHash : string) (r : vote_request) (stamp : Z)
  : prog response :=
  match Validator.failed (vote_checks r) with
  | (_ :: _) as errors => Ret (reply 400 (ValidationError errors))
  | [] =>
      let pollId := StringToNumber (vr_id r) in
      p <- await (GetPoll pollId) ;;
      match p with
      | None => Ret (reply 404 (Error "Sondage introuvable"))
      | Some p =>
          if Db.poll_active p =? 0
          then Ret (reply 404 (Error "Sondage introuvable"))
          else
            let options := Db.poll_options_json p in
            let idx := ToNumber (vr_optionIndex r) in
            if negb (Js.isInteger idx) || Js.lt idx (Js.of_Z 0)
               || Js.ge idx (Js.of_Z (Z.of_nat (List.length options)))
            then Ret (reply 400 (Error "Option invalide"))
            else
              inserted <- await (RunInsertVote pollId (integer_of idx)
                                   deviceHash stamp) ;;
              match inserted with
              | inl _ => Ret (reply 409 (Error "Vote deja enregistre"))
              | inr _ => Ret (reply 200 Ok)
              end
      end
  end.

(** *** [POST /api/push/subscribe] *)

(** [req.body.subscription] when it is an object: its [endpoint], and
    its [keys] when they are an object. *)
Record subscribe_body : Type := {
  sb_endpoint : Js.value;
  sb_keys : option (Js.value * Js.value)
}.

Definition subscribe_checks (b : option subscribe_body) : list (string * bool) :=
  match b with
  | None =>
      [("subscription", false); ("subscription.endpoint", false);
       ("subscription.keys", false); ("subscription.keys.p256dh", false);
       ("subscription.keys.auth", false)]
  | Some s =>
      [("subscription", true);
       ("subscription.endpoint",
        Validator.string_between 10 2000 (sb_endpoint s));
       ("subscription.keys",
        match sb_keys s with Some _ => true | None => false end);
       ("subscription.keys.p256dh",
        match sb_keys s with
        | Some k => Validator.string_between 10 300 (fst k)
        | None => false
        end);
       ("subscription.keys.auth",
        match sb_keys s with
        | Some k => Validator.string_between 10 300 (snd k)
        | None => false
        end)]
  end.

(** [userAgent] is [req.get("User-Agent") || ""]. *)
Definition post_subscribe (deviceHash : string) (b : option subscribe_body)
    (userAgent : string) (now : Z) : prog response :=
  match Validator.failed (subscribe_checks b) with
  | (_ :: _) as errors => Ret (reply 400 (ValidationError errors))
  | [] =>
      match b with
      | Some {| sb_endpoint := endpoint; sb_keys := Some (p256dh, auth) |} =>
          let endpoint := Js.or_empty endpoint in
          let sub := {| Db.sub_endpoint := endpoint;
                        Db.sub_p256dh := Js.or_empty p256dh;
                        Db.sub_auth := Js.or_empty auth |} in
          let ua := cleanText userAgent 220 in
          await (RunUpsertSubscription endpoint sub deviceHash ua now) ;;
          Ret (reply 200 Ok)
      | _ => Ret (reply 400 (ValidationError []))
      end
  end.

(** *** [POST /api/push/send] *)

Record send_body : Type := {
  sd_title : Js.value;
  sd_body : Js.value;
  sd_url : Js.value;
  sd_tag : Js.value
}.

Definition send_checks (b : send_body) : list (string * bool) :=
  [("title", Validator.string_between 1 60 (sd_title b));
   ("body", Validator.string_between 1 180 (sd_body b));
   ("url",
    Validator.optional_nullable (Validator.string_between 0 300) (sd_url b));
   ("tag",
    Validator.optional_nullable (Validator.string_between 0 60) (sd_tag b))].

(** [v ? String(v).trim() : fallback] on a validated field. *)
Definition trimmed_or (fallback : string) (v : Js.value) : string :=
  if Js.nonempty (Js.or_empty v) then Js.trim (Js.or_empty v) else fallback.

Definition post_push_send (token : option string) (b : send_body)
    (now ts : Z) : prog response :=
  match requireAdmin token now with
  | Some refused => Ret refused
  | None =>
      match Validator.failed (send_checks b) with
      | (_ :: _) as errors => Ret (reply 400 (ValidationError errors))
      | [] =>
          let p := {| pl_title := cleanText (Js.or_empty (sd_title b)) 60;
                      pl_body := cleanText (Js.or_empty (sd_body b)) 180;
                      pl_url := trimmed_or "/" (sd_url b);
                      pl_tag := trimmed_or "cvl" (sd_tag b);
                      pl_ts := ts |} in
          result <- sendPushToAll p ;;
          if pr_disabled result
          then Ret (reply 501 (Error "Push non configure (VAPID_*)"))
          else Ret (reply 200 (PushReport (pr_sent result) (pr_failed result)))
      end
  end.

(** *** [POST /api/auth/login] *)

Record login_body : Type := {
  lb_password : Js.value
}.

Definition login_checks (b : login_body) : list (string * bool) :=
  [("password", Validator.string_between 6 128 (lb_password b))].

Definition post_login (b : login_body) (now : Z) : prog response :=
  match Validator.failed (login_checks b) with
  | (_ :: _) as errors => Ret (reply 400 (ValidationError errors))
  | [] =>
      if negb (Js.nonempty (ADMIN_PASSWORD_HASH cfg))
      then Ret (reply 500 (Error "ADMIN_PASSWORD_HASH non configure"))
      else
        let ok := bcrypt_compare (Js.or_empty (lb_password b))
                    (ADMIN_PASSWORD_HASH cfg) in
        if negb ok then Ret (reply 401 (Error "Identifiants invalides"))
        else
          let token := signAdminToken now in
          Ret {| status := 200; json := Ok;
                 set_cookie := Some (setAuthCookie token) |}
  end.

(** *** [POST /api/admin/news] *)

Record news_body : Type := {
  nb_title : Js.value;
  nb_description : Js.value
}.

Definition news_checks (b : news_body) : list (string * bool) :=
  [("title", Validator.string_between 3 80 (nb_title b));
   ("description", Validator.string_between 10 800 (nb_description b))].

(** The push that follows a publication, when the keys are configured. *)
Definition auto_push (p : payload) : prog unit :=
  if canUsePushConfig then sendPushToAll p ;; Ret tt else Ret tt.

Definition post_admin_news (token : option string) (b : news_body)
    (now stamp ts : Z) : prog response :=
  match requireAdmin token now with
  | Some refused => Ret refused
  | None =>
      match Validator.failed (news_checks b) with
      | (_ :: _) as errors => Ret (reply 400 (ValidationError errors))
      | [] =>
          let title := cleanText (Js.or_empty (nb_title b)) 80 in
          let description := cleanText (Js.or_empty (nb_description b)) 800 in
          await (RunInsertNews title description stamp) ;;
          auto_push {| pl_title := "Nouvelle actualite"; pl_body := title;
                       pl_url := "/#actualites"; pl_tag := "news";
                       pl_ts := ts |} ;;
          Ret (reply 200 Ok)
      end
  end.

(** *** [POST /api/admin/poll] *)

(** [pb_options] is [req.body.options] when it is an array. *)
Record poll_body : Type := {
  pb_question : Js.value;
  pb_options : option (list Js.value)
}.

Definition poll_checks (b : poll_body) : list (string * bool) :=
  [("question", Validator.string_between 5 140 (pb_question b));
   ("options",
    match pb_options b with
    | Some l => (2 <=? Z.of_nat (List.length l))
                && (Z.of_nat (List.length l) <=? 8)
    | None => false
    end);
   ("options.*",
    match pb_options b with
    | Some l => forallb (Validator.string_between 1 60) l
    | None => true
    end)].

(** The two statements that rotate the active poll, each awaited on its
    own. *)
Definition activate_poll (question : string) (options : list string)
    (stamp : Z) : prog unit :=
  await RunDeactivatePolls ;;
  await (RunInsertPoll question options stamp).

Definition post_admin_poll (token : option string) (b : poll_body)
    (now stamp ts : Z) : prog response :=
  match requireAdmin token now with
  | Some refused => Ret refused
  | None =>
      match Validator.failed (poll_checks b) with
      | (_ :: _) as errors => Ret (reply 400 (ValidationError errors))
      | [] =>
          let question := cleanText (Js.or_empty (pb_question b)) 140 in
          let options :=
            map (fun o => cleanText (Js.or_empty o) 60)
              (match pb_options b with Some l => l | None => [] end) in
          activate_poll question options stamp ;;
          auto_push {| pl_title := "Nouveau sondage"; pl_body := question;
                       pl_url := "/#sondage"; pl_tag := "poll";
                       pl_ts := ts |} ;;
          Ret (reply 200 Ok)
      end
  end.

(** *** The routes *)

(** The requests to the routes above, with the times their handlers read
    the clock at. *)
Inductive request : Type :=
| Post_ideas (b : ideas_body) (now stamp : Z)
| Get_poll
| Post_vote (r : vote_request) (stamp : Z)
| Post_subscribe (b : option subscribe_body) (userAgent : string) (now : Z)
| Post_push_send (token : option string) (b : send_body) (now ts : Z)
| Post_login (b : login_body) (now : Z)
| Post_admin_news (token : option string) (b : news_body) (now stamp ts : Z)
| Post_admin_poll (token : option string) (b : poll_body) (now stamp ts : Z).

(** A request with its [X-Device-Id] header, routed to its handler. *)
Definition handle (header : option string) (rq : request) : prog response :=
  api header
    (fun deviceHash =>
       match rq with
       | Post_ideas b now stamp => post_ideas deviceHash b now stamp
       | Get_poll => get_poll
       | Post_vote r stamp => post_vote deviceHash r stamp
       | Post_subscribe b userAgent now =>
           post_subscribe deviceHash b userAgent now
       | Post_push_send token b now ts => post_push_send token b now ts
       | Post_login b now => post_login b now
       | Post_admin_news token b now stamp ts =>
           post_admin_news token b now stamp ts
       | Post_admin_poll token b now stamp ts =>
           post_admin_poll token b now stamp ts
       end).

(** Requests handled one at a time, each to its end before the next. *)
Fixpoint serve (e : env) (history : list (option string * request))
    (w : world) : world :=
  match history with
  | [] => w
  | (header, rq) :: later => serve e later (snd (run e (handle header rq) w))
  end.


End Server.

(** ** Sample data for the examples *)

Module Sample.

Local Open Scope string_scope.

(** Stand-ins for the libraries: tagged strings for the password hash
    and the token, decimal integers for [Number], and for
    [setVapidDetails] a subject that is a [mailto:] address with keys of
    the lengths of 65 and 32 bytes in URL-safe base64. *)
#[global] Instance libs : External := {|
  sanitizeHtml := fun s => s;
  bcrypt_compare := fun password hash => (hash =? "bcrypt:" ++ password)%string;
  jwt_sign_admin := fun secret _ => "admin." ++ secret;
  jwt_verify := fun token secret _ =>
    if (token =? "admin." ++ secret)%string
    then Some {| claim_admin := true |}
    else None;
  StringToNumber := fun s =>
    match Validator.int_of_string s with
    | Some z => Js.of_Z z
    | None => if (s =? "")%string then Js.of_Z 0 else Js.NaN
    end;
  vapidDetailsAccepted := fun subject publicKey privateKey =>
    prefix "mailto:" subject
    && (String.length publicKey =? 87)%nat
    && (String.length privateKey =? 43)%nat
|}.

Definition cfg : config :=
  {| JWT_SECRET := "secret"; ADMIN_PASSWORD_HASH := "bcrypt:right";
     COOKIE_NAME := "cvl_admin"; IDEA_COOLDOWN_SEC := inject_Z 60;
     VAPID_PUBLIC_KEY :=
       "BEl62iUYgUivxIkv69yViEuiBIa-Ib9-SkvMeAtA3LFgDzkrxZJjSgSnfckjBJuBkr3qBUYIHBQFLXYp5Nksh8U";
     VAPID_PRIVATE_KEY := "UUxI4O8-FbRouAevSmBQ6o18hgE4nSG3qwvJTfKc-ls";
     VAPID_SUBJECT := "mailto:admin@example.com"; NODE_ENV := "" |}.

(** The same server with a cooldown of 2.003 seconds. *)
Definition cfg_short_cooldown : config :=
  {| JWT_SECRET := "secret"; ADMIN_PASSWORD_HASH := "bcrypt:right";
     COOKIE_NAME := "cvl_admin"; IDEA_COOLDOWN_SEC := 2003 # 1000;
     VAPID_PUBLIC_KEY := ""; VAPID_PRIVATE_KEY := "";
     VAPID_SUBJECT := "mailto:admin@example.com"; NODE_ENV := "" |}.

(** The same server with keys that [setVapidDetails] refuses. *)
Definition cfg_bad_keys : config :=
  {| JWT_SECRET := "secret"; ADMIN_PASSWORD_HASH := "bcrypt:right";
     COOKIE_NAME := "cvl_admin"; IDEA_COOLDOWN_SEC := inject_Z 60;
     VAPID_PUBLIC_KEY := "BPublic"; VAPID_PRIVATE_KEY := "private";
     VAPID_SUBJECT := "mailto:admin@example.com"; NODE_ENV := "" |}.

(** The same server without VAPID keys. *)
Definition cfg_no_push : config :=
  {| JWT_SECRET := "secret"; ADMIN_PASSWORD_HASH := "bcrypt:right";
     COOKIE_NAME := "cvl_admin"; IDEA_COOLDOWN_SEC := inject_Z 60;
     VAPID_PUBLIC_KEY := ""; VAPID_PRIVATE_KEY := "";
     VAPID_SUBJECT := "mailto:admin@example.com"; NODE_ENV := "" |}.

(** A push service that has lost the endpoints starting with [x] and is
    unreachable for those starting with [u]. *)
Definition service (sub : Db.subscription) (_ : payload) : delivery :=
  match Db.sub_endpoint sub with
  | String "x" _ => Rejected (Some 410)
  | String "u" _ => Rejected None
  | _ => Delivered
  end.

Definition world_ok : env :=
  {| webpush_installed := true; push_service := service;
     store_fails := fun _ _ => false |}.

(** A store that fails on every guarded statement. *)
Definition world_failing_store : env :=
  {| webpush_installed := true; push_service := service;
     store_fails := fun _ _ => true |}.

(** The same world, where the store fails on the INSERT of a poll. *)
Definition world_insert_poll_fails : env :=
  {| webpush_installed := true; push_service := service;
     store_fails := fun _ o =>
       match o with
       | RunInsertPoll _ _ _ => true
       | _ => false
       end |}.

Definition world_no_module : env :=
  {| webpush_installed := false; push_service := service;
     store_fails := fun _ _ => false |}.

Definition start (d : Db.t) : world := {| w_db := d; w_log := [] |}.

Definition device : option string := Some "abc12345".

Definition idea_body : ideas_body :=
  {| ib_text := Js.Str "Plus de bancs dans la cour";
     ib_category := Js.Str "vie-scolaire"; ib_urgency := Js.Str "basse";
     ib_hp := Js.Undefined |}.

Definition admin_token : option string := Some "admin.secret".

Definition poll_request : poll_body :=
  {| pb_question := Js.Str "Quel club ouvrir ?";
     pb_options := Some [Js.Str "Echecs"; Js.Str "Robotique"] |}.

Definition other_poll_request : poll_body :=
  {| pb_question := Js.Str "Quel menu vendredi ?";
     pb_options := Some [Js.Str "Pizza"; Js.Str "Couscous"] |}.

Definition vote_for (poll : string) (option_index : Z) : vote_request :=
  {| vr_id := poll; vr_optionIndex := Js.Num (Js.of_Z option_index) |}.

(** A first poll is published and the device [dev] votes on it. *)
Definition after_first_vote : world :=
  snd (run world_ok (post_vote "dev" (vote_for "1" 0) 2000)
         (snd (run world_ok
                 (post_admin_poll cfg_no_push admin_token poll_request
                    1000 1000 1000)
                 (start Db.empty)))).

(** Then a second poll is published, which retires the first. *)
Definition after_second_poll : world :=
  snd (run world_ok
         (post_admin_poll cfg_no_push admin_token other_poll_request
            3000 3000 3000)
         after_first_vote).

(** The device [dev] has submitted an idea at second 1. *)
Definition after_idea : world :=
  snd (run world_ok (post_ideas cfg "dev" idea_body 1000 1000)
         (start Db.empty)).

Definition first_poll : Db.poll :=
  {| Db.poll_id := 1; Db.poll_question := "Quel club ouvrir ?";
     Db.poll_options_json := ["Echecs"; "Robotique"];
     Db.poll_active := 1; Db.poll_created_at := 1000 |}.

Definition subscriber (endpoint device : string) : Db.push_row :=
  {| Db.push_endpoint := endpoint;
     Db.push_subscription_json :=
       {| Db.sub_endpoint := endpoint; Db.sub_p256dh := "p256dh-key";
          Db.sub_auth := "auth-secret" |};
     Db.push_device_hash := device; Db.push_user_agent := "Firefox";
     Db.push_created_at := 500; Db.push_updated_at := 500 |}.

(** Three subscribers; the endpoint of the second is gone. *)
Definition three_subscribers : world :=
  start
    (Db.set_push
       [subscriber "https://push.example/a" "d1";
        subscriber "x-https://push.example/b" "d2";
        subscriber "https://push.example/c" "d3"]
       Db.empty).

Definition notice : payload :=
  {| pl_title := "Info"; pl_body := "Reunion"; pl_url := "/";
     pl_tag := "cvl"; pl_ts := 0 |}.

(** A server whose admin password, [right-enough], is long enough for the
    login route. *)
Definition cfg_login : config :=
  {| JWT_SECRET := "secret"; ADMIN_PASSWORD_HASH := "bcrypt:right-enough";
     COOKIE_NAME := "cvl_admin"; IDEA_COOLDOWN_SEC := inject_Z 60;
     VAPID_PUBLIC_KEY := ""; VAPID_PRIVATE_KEY := "";
     VAPID_SUBJECT := "mailto:admin@example.com"; NODE_ENV := "" |}.

End Sample.

(** ** What the properties are stated with *)

(** The seconds since an idea stamped [created_at], at time [now]: the
    exact quotient, and the number the server computes for it. *)
Definition elapsed_sec (now created_at : Z) : Q :=
  (inject_Z (now - created_at) / inject_Z 1000)%Q.

Definition elapsed (now created_at : Z) : Js.number :=
  Js.div (Js.sub (Js.of_Z now) (Js.of_Z created_at)) (Js.of_Z 1000).

(** The finite numbers of the binary64 format are multiples of
    [2^-1074]. *)
Definition grid (q : Q) : Prop :=
  exists m : Z, (q == inject_Z m * Js.pow2 (-1074))%Q.

Definition is_double (n : Js.number) : Prop :=
  match n with
  | Js.Fin q => grid q
  | _ => True
  end.

(** The sign of a number. *)
Definition positive (n : Js.number) : Prop :=
  match n with
  | Js.Fin r => (0 < r)%Q
  | Js.Infinity negative => negative = false
  | Js.NaN => False
  end.

Definition not_positive (n : Js.number) : Prop :=
  match n with
  | Js.Fin r => (r <= 0)%Q
  | Js.Infinity negative => negative = true
  | Js.NaN => False
  end.

(** A whole number between 0 and 100. *)
Definition percentage (n : Js.number) : Prop :=
  exists z : Z, 0 <= z <= 100 /\ n = Js.of_Z z.

(** A whole number of seconds, one at least, or [Infinity]. *)
Definition whole_seconds (n : Js.number) : Prop :=
  match n with
  | Js.Fin r => exists z : Z, 1 <= z /\ r = inject_Z z
  | Js.Infinity negative => negative = false
  | Js.NaN => False
  end.

(** An option index that no poll of [count] options has: not a number,
    not finite, not an integer, negative, or [count] and above. *)
Inductive bad_option_index (count : nat) : Js.number -> Prop :=
| bad_nan : bad_option_index count Js.NaN
| bad_infinite (negative : bool) : bad_option_index count (Js.Infinity negative)
| bad_fraction (q : Q) :
    (forall z : Z, ~ (q == inject_Z z)%Q) -> bad_option_index count (Js.Fin q)
| bad_negative (q : Q) : (q < 0)%Q -> bad_option_index count (Js.Fin q)
| bad_too_large (q : Q) :
    (inject_Z (Z.of_nat count) <= q)%Q -> bad_option_index count (Js.Fin q).

(** The number of vote rows of a (poll, device) pair. *)
Definition votes_of (poll : Z) (voter : string) (d : Db.t) : nat :=
  List.length (filter (Db.same_voter poll voter) (Db.poll_votes d)).

(** At most one vote row for every (poll, device) pair. *)
Definition at_most_one_vote (d : Db.t) : Prop :=
  forall (poll : Z) (voter : string), (votes_of poll voter d <= 1)%nat.

(** The number of polls with [active = 1]. *)
Definition active_count (d : Db.t) : nat :=
  List.length (filter (fun p => Db.poll_active p =? 1) (Db.polls d)).

(** No poll is active before any poll exists, and exactly one is
    afterwards. *)
Definition one_active_if_any (d : Db.t) : Prop :=
  active_count d = match Db.polls d with [] => 0%nat | _ :: _ => 1%nat end.

(** How the delivery to a stored subscription settles. *)
Definition outcome_of (e : env) (p : payload) (s : Db.push_row) : delivery :=
  push_service e (Db.push_subscription_json s) p.

Definition delivered (e : env) (p : payload) (s : Db.push_row) : bool :=
  match outcome_of e p s with
  | Delivered => true
  | Rejected _ => false
  end.

(** The delivery failed with status 404 or 410. *)
Definition endpoint_gone (e : env) (p : payload) (s : Db.push_row) : bool :=
  match outcome_of e p s with
  | Rejected (Some status) => (status =? 404) || (status =? 410)
  | _ => false
  end.

(** The row is deleted: its endpoint is gone and the delete goes through. *)
Definition pruned (e : env) (p : payload) (s : Db.push_row) : bool :=
  endpoint_gone e p s
  && negb (store_fails e _ (RunDeleteSubscription (Db.push_endpoint s))).

(** The deliveries attempted, as a log records them. *)
Fixpoint attempts (log : list event) : list Db.subscription :=
  match log with
  | [] => []
  | Ev o :: rest =>
      match o with
      | SendNotification sub _ => sub :: attempts rest
      | _ => attempts rest
      end
  end.

(** The database once the loop has deleted what it could of [subs]. *)
Definition prune_all (e : env) (p : payload) (subs : list Db.push_row)
    (d : Db.t) : Db.t :=
  fold_left
    (fun d s =>
       if pruned e p s then Db.delete_subscription (Db.push_endpoint s) d
       else d)
    subs d.

(** Some row of [subs] with the endpoint of [r] is deleted. *)
Definition pruned_by (e : env) (p : payload) (subs : list Db.push_row)
    (r : Db.push_row) : bool :=
  existsb
    (fun s => pruned e p s && (Db.push_endpoint r =? Db.push_endpoint s)%string)
    subs.

(** The dispatch throws: with the keys configured and the module
    installed, [setVapidDetails] refuses the keys, or the store fails on
    the SELECT of the subscriptions. *)
Definition push_throws `{External} (cfg : config) (e : env) : bool :=
  canUsePushConfig cfg && webpush_installed e
  && (negb (vapidDetailsAccepted (VAPID_SUBJECT cfg) (VAPID_PUBLIC_KEY cfg)
              (VAPID_PRIVATE_KEY cfg))
      || store_fails e _ AllSubscriptions).


(** The world once an operation is logged. *)
Definition logged {A : Type} (o : op A) (w : world) : world :=
  {| w_db := w_db w; w_log := w_log w ++ [Ev o] |}.

(** The primary key of [push_subscriptions]. *)
Definition endpoints_unique (d : Db.t) : Prop :=
  NoDup (map Db.push_endpoint (Db.push_subscriptions d)).

(** ** Further properties: what they are stated with *)

(** The token and the time an admin route verifies it at. *)
Definition admin_credentials (rq : request) : option (option string * Z) :=
  match rq with
  | Post_push_send token _ now _ => Some (token, now)
  | Post_admin_news token _ now _ _ => Some (token, now)
  | Post_admin_poll token _ now _ _ => Some (token, now)
  | _ => None
  end.

(** The [AUTOINCREMENT] counter of [ideas] is at or above every id in
    use. *)
Definition ideas_ids_bounded (d : Db.t) : Prop :=
  Forall (fun i => Db.idea_id i <= Db.seq_ideas d) (Db.ideas d).

(** The writes the handlers issue, with what each handler has checked
    by the time it issues them. *)
Inductive write `{External} (d : Db.t) : Db.t -> Prop :=
| write_idea (deviceHash : string) (b : ideas_body) (stamp : Z) :
    Validator.failed (ideas_checks b) = [] ->
    write d
      (Db.insert_idea (cleanText (Js.or_empty (ib_text b)) 500)
         (Js.bound_text (ib_category b)) (Js.bound_text (ib_urgency b))
         deviceHash stamp d)
| write_vote (poll : Js.number) (p : Db.poll) (option_index : Z)
    (voter : string) (stamp : Z) (d' : Db.t) :
    Db.select_poll poll d = Some p ->
    Db.poll_active p <> 0 ->
    0 <= option_index < Z.of_nat (List.length (Db.poll_options_json p)) ->
    Db.insert_vote poll option_index voter stamp d = inr d' ->
    write d d'
| write_subscribe (endpoint : string) (sub : Db.subscription)
    (deviceHash userAgent : string) (now : Z) :
    write d (Db.upsert_subscription endpoint sub deviceHash userAgent now d)
| write_unsubscribe (endpoint : string) :
    write d (Db.delete_subscription endpoint d)
| write_news (b : news_body) (stamp : Z) :
    Validator.failed (news_checks b) = [] ->
    write d
      (Db.insert_news (cleanText (Js.or_empty (nb_title b)) 80)
         (cleanText (Js.or_empty (nb_description b)) 800) stamp d)
| write_deactivate : write d (Db.update_deactivate_polls d)
| write_poll (b : poll_body) (stamp : Z) :
    Validator.failed (poll_checks b) = [] ->
    write d
      (Db.insert_poll (cleanText (Js.or_empty (pb_question b)) 140)
         (map (fun o => cleanText (Js.or_empty o) 60)
            (match pb_options b with Some l => l | None => [] end))
         stamp d).

(** Any number of such writes, one after the other. *)
Inductive writes `{External} (d : Db.t) : Db.t -> Prop :=
| writes_none : writes d d
| writes_more (d1 d2 : Db.t) : write d d1 -> writes d1 d2 -> writes d d2.

(** The labels of a list are words: none is empty or the text of a
    boolean. *)
Definition words (labels : list string) : bool :=
  negb (existsb (String.eqb "") labels
        || existsb (String.eqb "true") labels
        || existsb (String.eqb "false") labels).

(** An idea row as the submission route writes it: a category and an
    urgency sent as arrays of known labels are stored as the text of an
    object. *)
Definition idea_wellformed (i : Db.idea) : Prop :=
  Js.length (Db.idea_text i) <= 500
  /\ In (Db.idea_category i) ("[object Object]" :: categories)
  /\ In (Db.idea_urgency i) ("[object Object]" :: urgencies)
  /\ Db.idea_status i = "nouveau".

(** A poll row as the activation route writes it. *)
Definition poll_wellformed (p : Db.poll) : Prop :=
  Js.length (Db.poll_question p) <= 140
  /\ (2 <= List.length (Db.poll_options_json p) <= 8)%nat
  /\ Forall (fun o => Js.length o <= 60) (Db.poll_options_json p)
  /\ (Db.poll_active p = 0 \/ Db.poll_active p = 1).

(** A news row as the publication route writes it. *)
Definition news_wellformed (n : Db.news_item) : Prop :=
  Js.length (Db.news_title n) <= 80 /\ Js.length (Db.news_description n) <= 800.

(** The vote is on a poll of the table and for one of its options. *)
Definition vote_in_range (d : Db.t) (v : Db.vote) : Prop :=
  exists p : Db.poll,
    In p (Db.polls d)
    /\ Db.poll_id p = Db.vote_poll_id v
    /\ 0 <= Db.vote_option_index v
        < Z.of_nat (List.length (Db.poll_options_json p)).

(** Poll ids are distinct and at or below the [AUTOINCREMENT] counter. *)
Definition poll_ids_fresh (d : Db.t) : Prop :=
  NoDup (map Db.poll_id (Db.polls d))
  /\ Forall (fun p => Db.poll_id p <= Db.seq_poll d) (Db.polls d).

(** The number of vote rows of a poll for an option, and in all. *)
Definition votes_for (poll option_index : Z) (d : Db.t) : Z :=
  Z.of_nat
    (count_occ Z.eq_dec
       (map Db.vote_option_index
          (filter (fun v => Db.vote_poll_id v =? poll) (Db.poll_votes d)))
       option_index).

Definition votes_on (poll : Z) (d : Db.t) : Z :=
  Z.of_nat
    (List.length (filter (fun v => Db.vote_poll_id v =? poll) (Db.poll_votes d))).

(** The count a grouped result holds for a key: [map.get(idx) || 0]. *)
Definition counted (i : Z) (counts : list (Z * Z)) : Z :=
  match find (fun r => fst r =? i) counts with
  | Some r => snd r
  | None => 0
  end.

(** The sum of a list of integers. *)
Definition total_of (l : list Z) : Z := fold_right Z.add 0 l.

(** The labels and the votes an answer of the poll route lists. *)
Definition labels_of (results : list (string * Z * Js.number))
  : list string :=
  map (fun r => fst (fst r)) results.

Definition votes_listed (results : list (string * Z * Js.number)) : Z :=
  total_of (map (fun r => snd (fst r)) results).

(** The percentage the poll route shows for [votes] out of [total]: the
    quotient and its product by 100, each rounded to a binary64 number,
    then the nearest integer. *)
Definition share (votes total : Z) : Js.number :=
  if total =? 0 then Js.of_Z 0
  else
    Js.Math_round
      (Js.mul (Js.double (inject_Z votes / inject_Z total)) (Js.of_Z 100)).

(** The same percentage without the two roundings. *)
Definition exact_share (votes total : Z) : Z :=
  Qfloor (inject_Z votes / inject_Z total * inject_Z 100 + (1 # 2))%Q.

(** A vote on poll 1 whose option index is sent as the text [01], which
    the validator lets through. *)
Definition vote_with_leading_zero : vote_request :=
  {| vr_id := "1"; vr_optionIndex := Js.Str "01" |}.

(** A poll is published and two devices vote on it, one for each
    option. *)
Definition poll_with_two_votes : list (option string * request) :=
  [(Sample.device,
    Post_admin_poll Sample.admin_token Sample.poll_request 1000 1000 1000);
   (Some "abc12345", Post_vote (Sample.vote_for "1" 0) 2000);
   (Some "def67890", Post_vote (Sample.vote_for "1" 1) 2100)].

(** An idea whose category and urgency are sent as arrays. *)
Definition idea_in_arrays : ideas_body :=
  {| ib_text := Js.Str "Installer des bancs dans la cour";
     ib_category := Js.Arr [Js.Str "cantine"; Js.Str "autre"];
     ib_urgency := Js.Arr [Js.Str "basse"];
     ib_hp := Js.Undefined |}.

(** A first device has submitted an idea. *)
Definition one_idea : list (option string * request) :=
  [(Sample.device, Post_ideas Sample.idea_body 1000 1000)].

(** The stored rows of an endpoint, and the rows of the others. *)
Definition rows_of (endpoint : string) (d : Db.t) : list Db.push_row :=
  filter (fun r => (Db.push_endpoint r =? endpoint)%string)
    (Db.push_subscriptions d).

Definition rows_besides (endpoint : string) (d : Db.t) : list Db.push_row :=
  filter (fun r => negb (Db.push_endpoint r =? endpoint)%string)
    (Db.push_subscriptions d).

(** The [created_at] of the row of an endpoint, or [now] when it has
    none. *)
Definition first_stored (endpoint : string) (now : Z) (d : Db.t) : Z :=
  match find (fun r => (Db.push_endpoint r =? endpoint)%string)
          (Db.push_subscriptions d) with
  | Some r => Db.push_created_at r
  | None => now
  end.

(** A browser subscribes from one device. *)
Definition subscription_of (endpoint : string) : option subscribe_body :=
  Some {| sb_endpoint := Js.Str endpoint;
          sb_keys := Some (Js.Str "p256dh-key", Js.Str "auth-secret") |}.

Definition one_subscription : list (option string * request) :=
  [(Sample.device,
    Post_subscribe (subscription_of "https://push.example/a") "Firefox" 500)].

(** ** The information blocks

    The table [info_blocks], the seeding that ends [initDb], and the two
    routes that write and read it.  The table is passed from one to the
    next. *)

Module Info.

Record block : Type := {
  key : string;
  text : string;
  url : option string
}.

Definition keys : list string :=
  ["jpo"; "mini_stages"; "science_weekly"; "cycle_mauriac"; "region_aides"].

Definition site : option string := Some "https://lyceemauriac.fr/".

Definition defaults : list block :=
  [{| key := "jpo";
      text := "Journees Portes Ouvertes (JPO) : informations a confirmer par l'etablissement.";
      url := site |};
   {| key := "mini_stages";
      text := "Mini-stages en Seconde : decouvrir des filieres et options.";
      url := site |};
   {| key := "science_weekly";
      text := "Information scientifique de la semaine : resume et lien vers la source.";
      url := site |};
   {| key := "cycle_mauriac";
      text := "Cycle Mauriac / expositions : conferences, rencontres, expositions.";
      url := site |};
   {| key := "region_aides";
      text := "Aides de la Region Nouvelle-Aquitaine : bourses, equipement, transports.";
      url := site |}].

Definition has (k : string) (rows : list block) : bool :=
  existsb (fun r => (key r =? k)%string) rows.

(** [INSERT OR IGNORE INTO info_blocks(key, text, url) VALUES(?, ?, ?)] *)
Definition insert_or_ignore (b : block) (rows : list block) : list block :=
  if has (key b) rows then rows else rows ++ [b].

(** [INSERT INTO info_blocks(key, text, url) VALUES(?, ?, ?)
    ON CONFLICT(key) DO UPDATE SET text=excluded.text, url=excluded.url] *)
Definition upsert (b : block) (rows : list block) : list block :=
  if has (key b) rows
  then map (fun r =>
              if (key r =? key b)%string
              then {| key := key r; text := text b; url := url b |}
              else r)
         rows
  else rows ++ [b].

(** The loop over [defaults] that ends [initDb]. *)
Definition seed (rows : list block) : list block :=
  fold_left (fun rows b => insert_or_ignore b rows) defaults rows.

(** [obj[r.key] = { text: r.text, url: r.url }] for each row in turn, then
    [obj.k || null]. *)
Definition block_of (k : string) (rows : list block)
  : option (string * option string) :=
  fold_left
    (fun found r => if (key r =? k)%string then Some (text r, url r) else found)
    rows None.

End Info.

(** [GET /api/public/info]: the five keys with their block or [null]. *)
Definition get_info (rows : list Info.block)
  : list (string * option (string * option string)) :=
  map (fun k => (k, Info.block_of k rows)) Info.keys.

(** [POST /api/admin/info] *)
Record info_body : Type := {
  nf_key : Js.value;
  nf_text : Js.value;
  nf_url : Js.value
}.

Definition info_checks (b : info_body) : list (string * bool) :=
  [("key", Validator.isIn Info.keys (nf_key b));
   ("text", Validator.string_between 10 1200 (nf_text b));
   ("url",
    Validator.optional_nullable (Validator.string_between 0 300) (nf_url b))].

(** [req.body.url ? String(req.body.url).trim() : null] on a validated
    field. *)
Definition info_url (v : Js.value) : option string :=
  if Js.nonempty (Js.or_empty v) then Some (Js.trim (Js.or_empty v)) else None.

Definition post_admin_info `{External} (cfg : config) (token : option string)
    (b : info_body) (now : Z) (rows : list Info.block)
  : response * list Info.block :=
  match requireAdmin cfg token now with
  | Some refused => (refused, rows)
  | None =>
      match Validator.failed (info_checks b) with
      | (_ :: _) as errors => (reply 400 (ValidationError errors), rows)
      | [] =>
          let key := Js.bound_text (nf_key b) in
          let text := cleanText (Js.or_empty (nf_text b)) 1200 in
          let url := info_url (nf_url b) in
          (reply 200 Ok,
           Info.upsert {| Info.key := key; Info.text := text; Info.url := url |}
             rows)
      end
  end.

(** What happens to the table: the server starts, or an administrator
    posts a block. *)
Inductive info_event : Type :=
| Restart
| Post_admin_info (token : option string) (b : info_body) (now : Z).

Definition info_step `{External} (cfg : config) (rows : list Info.block)
    (ev : info_event) : list Info.block :=
  match ev with
  | Restart => Info.seed rows
  | Post_admin_info token b now => snd (post_admin_info cfg token b now rows)
  end.

(** The table after a first start on an empty database and the events
    that follow. *)
Definition info_after `{External} (cfg : config) (history : list info_event)
  : list Info.block :=
  fold_left (info_step cfg) history (Info.seed []).

(** The keys of a table: the five of the seeding, or those and the text
    of an object after them. *)
Definition info_keys_of (rows : list Info.block) : Prop :=
  map Info.key rows = Info.keys
  \/ map Info.key rows = (Info.keys ++ ["[object Object]"])%list.

(** An administrator rewrites the block on open days; its link is left
    out. *)
Definition open_days : info_body :=
  {| nf_key := Js.Str "jpo";
     nf_text := Js.Str "Portes ouvertes le samedi 14 mars de 9h a 13h.";
     nf_url := Js.Null |}.

(** ** The daily connections

    The table [daily_connections] and the middleware on [/api/public]
    that writes it. *)

Module Connections.

Record row : Type := {
  day : string;
  device_hash : string;
  last_seen : Z
}.

Definition same (d h : string) (r : row) : bool :=
  (day r =? d)%string && (device_hash r =? h)%string.

(** [INSERT INTO daily_connections(day, device_hash, last_seen)
    VALUES(?, ?, ?) ON CONFLICT(day, device_hash) DO UPDATE SET
    last_seen=excluded.last_seen] *)
Definition upsert (d h : string) (seen : Z) (rows : list row) : list row :=
  if existsb (same d h) rows
  then map (fun r =>
              if same d h r
              then {| day := day r; device_hash := device_hash r;
                      last_seen := seen |}
              else r)
         rows
  else rows ++ [{| day := d; device_hash := h; last_seen := seen |}].

(** [COUNT( * )] of the group of a day in
    [SELECT day, COUNT( * ) AS n FROM daily_connections ... GROUP BY day]. *)
Definition count (d : string) (rows : list row) : Z :=
  Z.of_nat (List.length (filter (fun r => (day r =? d)%string) rows)).

End Connections.

(** A request under [/api/public] that has passed the device middleware:
    its method, the day and the time the middleware reads from the clock,
    and whether its statement fails. *)
Record visit : Type := {
  v_method : string;
  v_day : string;
  v_device_hash : string;
  v_seen : Z;
  v_fails : bool
}.

(** The primary key of [daily_connections]. *)
Definition connection_key (r : Connections.row) : string * string :=
  (Connections.day r, Connections.device_hash r).

Definition key_eqb (k1 k2 : string * string) : bool :=
  (fst k1 =? fst k2)%string && (snd k1 =? snd k2)%string.

(** The visits the middleware records. *)
Definition recorded (v : visit) : bool :=
  (v_method v =? "GET")%string && negb (v_fails v).

(** The middleware: only a [GET] is tracked, and a failure of the
    statement is swallowed. *)
Definition track (rows : list Connections.row) (v : visit)
  : list Connections.row :=
  if negb (v_method v =? "GET")%string then rows
  else if v_fails v then rows
  else Connections.upsert (v_day v) (v_device_hash v) (v_seen v) rows.

(** The table after the visits, from an empty one. *)
Definition connections_after (visits : list visit) : list Connections.row :=
  fold_left track visits [].

(** The devices of the recorded visits of a day. *)
Definition devices_on (d : string) (visits : list visit) : list string :=
  map v_device_hash
    (filter (fun v => recorded v && (v_day v =? d)%string) visits).

(** Two devices on one day; the first comes back, once with a [POST], and
    one statement of the second fails. *)
Definition two_devices_one_day : list visit :=
  [{| v_method := "GET"; v_day := "2025-03-14"; v_device_hash := "h1";
      v_seen := 100; v_fails := false |};
   {| v_method := "GET"; v_day := "2025-03-14"; v_device_hash := "h2";
      v_seen := 200; v_fails := true |};
   {| v_method := "POST"; v_day := "2025-03-14"; v_device_hash := "h1";
      v_seen := 300; v_fails := false |};
   {| v_method := "GET"; v_day := "2025-03-14"; v_device_hash := "h1";
      v_seen := 400; v_fails := false |};
   {| v_method := "GET"; v_day := "2025-03-14"; v_device_hash := "h2";
      v_seen := 500; v_fails := false |};
   {| v_method := "GET"; v_day := "2025-03-15"; v_device_hash := "h1";
      v_seen := 600; v_fails := false |}].

(** ** The public news list *)

(** [ORDER BY id DESC]: the rows sorted by decreasing id. *)
Fixpoint insert_desc {A : Type} (id : A -> Z) (x : A) (l : list A) : list A :=
  match l with
  | [] => [x]
  | y :: rest => if id y <? id x then x :: l else y :: insert_desc id x rest
  end.

Definition order_by_id_desc {A : Type} (id : A -> Z) (rows : list A) : list A :=
  fold_right (insert_desc id) [] rows.

(** [GET /api/public/news]:
    [SELECT id, title, description, created_at FROM news ORDER BY id DESC
    LIMIT 30]. *)
Definition get_news (d : Db.t) : list Db.news_item :=
  firstn 30 (order_by_id_desc Db.news_id (Db.news d)).

(** Each number is below those after it. *)
Fixpoint ascending (l : list Z) : Prop :=
  match l with
  | [] => True
  | x :: rest => Forall (fun y => x < y) rest /\ ascending rest
  end.

(** The news rows are in the order of their ids, which the
    [AUTOINCREMENT] counter bounds. *)
Definition news_ids_ascending (d : Db.t) : Prop :=
  ascending (map Db.news_id (Db.news d))
  /\ Forall (fun n => Db.news_id n <= Db.seq_news d) (Db.news d).

Definition ball : news_body :=
  {| nb_title := Js.Str "Bal de fin d'annee";
     nb_description := Js.Str "Le bal aura lieu le 20 juin." |}.

Definition one_news : list (option string * request) :=
  [(Sample.device,
    Post_admin_news Sample.admin_token
      {| nb_title := Js.Str "Tournoi d'echecs";
         nb_description := Js.Str "Inscriptions au CDI jusqu'a vendredi." |}
      1000 1000 1000)].

(** ** The service worker

    The [fetch] and [install] handlers of [sw.js] over the two caches.  A
    cache is keyed by the URL of the request, written without the origin
    of the worker and without fragment; responses are complete ones, which
    a cache accepts, and a [put] has taken effect by the time the next
    event is handled. *)

Module Sw.

(** What is read of a response; the second form of content is
    [JSON.stringify({ error: message })]. *)
Inductive content : Type :=
| Fetched (body : string)
| Json_error (message : string).

Record response : Type := {
  status : Z;
  payload : content
}.

(** What the handler reads of a request: [req.method], [req.url],
    whether [url.origin === self.location.origin], whether
    [req.mode === "navigate"], and [req.headers.get("accept")]. *)
Record request : Type := {
  method : string;
  url : string;
  same_origin : bool;
  navigate : bool;
  accept : option string
}.

Definition cache : Type := list (string * response).

(** [CACHE_STATIC] and [CACHE_RUNTIME]. *)
Record caches : Type := {
  static : cache;
  runtime : cache
}.

Definition ASSETS : list string :=
  ["/"; "/index.html"; "/manifest.json"; "/icon-192.png"; "/icon-512.png";
   "/extra.js"; "/admin/dashboard/"; "/admin/dashboard/index.html";
   "/admin/dashboard/dashboard.js"].

(** [cache.match(req)] *)
Definition lookup (u : string) (c : cache) : option response :=
  option_map snd (find (fun entry => (fst entry =? u)%string) c).

(** [cache.put(req, response)]: the entry of the URL is replaced. *)
Definition put (u : string) (r : response) (c : cache) : cache :=
  (u, r) :: filter (fun entry => negb (fst entry =? u)%string) c.

(** [caches.match(req)]: the caches in the order they were created. *)
Definition match_any (u : string) (c : caches) : option response :=
  match lookup u (static c) with
  | Some r => Some r
  | None => lookup u (runtime c)
  end.

Definition put_runtime (u : string) (r : response) (c : caches) : caches :=
  {| static := static c; runtime := put u r (runtime c) |}.

(** [s.includes(needle)] *)
Fixpoint includes (needle s : string) : bool :=
  match s with
  | EmptyString => (needle =? "")%string
  | String _ rest => String.prefix needle s || includes needle rest
  end.

(** [url.pathname]: the URL up to its query. *)
Fixpoint pathname (u : string) : string :=
  match u with
  | EmptyString => EmptyString
  | String c rest => if (c =? "?")%char then EmptyString
                     else String c (pathname rest)
  end.

Definition isHTML (req : request) : bool :=
  navigate req
  || includes "text/html" (match accept req with Some a => a | None => "" end).

Definition isPublicApiGet (req : request) : bool :=
  same_origin req && String.prefix "/api/public/" (pathname (url req)).

(** What becomes of the request: the worker leaves it to the browser, or
    answers it, or the promise it gave to [respondWith] rejects or holds
    no response. *)
Inductive outcome : Type :=
| Untouched
| Responds (r : response)
| Rejects.

Definition offline : response :=
  {| status := 503; payload := Json_error "offline" |}.

(** The [fetch] listener; [network] is what [fetch(req)] resolves to, or
    nothing when it rejects. *)
Definition on_fetch (req : request) (network : option response) (c : caches)
  : outcome * caches :=
  if negb (method req =? "GET")%string then (Untouched, c)
  else if same_origin req && isHTML req then
    match network with
    | Some fresh => (Responds fresh, put_runtime (url req) fresh c)
    | None =>
        match match_any (url req) c with
        | Some cached => (Responds cached, c)
        | None =>
            match match_any "/index.html" c with
            | Some page => (Responds page, c)
            | None => (Rejects, c)
            end
        end
    end
  else if isPublicApiGet req then
    match network with
    | Some fresh => (Responds fresh, put_runtime (url req) fresh c)
    | None =>
        match lookup (url req) (runtime c) with
        | Some cached => (Responds cached, c)
        | None => (Responds offline, c)
        end
    end
  else if same_origin req then
    match match_any (url req) c with
    | Some cached => (Responds cached, c)
    | None =>
        match network with
        | Some fresh => (Responds fresh, put_runtime (url req) fresh c)
        | None => (Rejects, c)
        end
    end
  else (Untouched, c).

(** [response.ok] *)
Definition ok (r : response) : bool := (200 <=? status r) && (status r <=? 299).

(** [cache.addAll(urls)]: every URL is fetched, and nothing is stored
    unless every answer is there and [ok]. *)
Fixpoint fetch_all (network : string -> option response) (urls : list string)
  : option (list (string * response)) :=
  match urls with
  | [] => Some []
  | u :: rest =>
      match network u with
      | Some r =>
          if ok r
          then option_map (cons (u, r)) (fetch_all network rest)
          else None
      | None => None
      end
  end.

(** The [install] listener, and whether its promise is fulfilled. *)
Definition on_install (network : string -> option response) (c : caches)
  : bool * caches :=
  match fetch_all network ASSETS with
  | Some entries =>
      (true,
       {| static := fold_left (fun c entry => put (fst entry) (snd entry) c)
                      entries (static c);
          runtime := runtime c |})
  | None => (false, c)
  end.

(** The caches after a sequence of requests with what the network
    answered to each. *)
Definition after (events : list (request * option response)) (c : caches)
  : caches :=
  fold_left (fun c ev => snd (on_fetch (fst ev) (snd ev) c)) events c.

(** The most recent answer of the network to a [GET] of the URL on the
    worker's origin. *)
Fixpoint last_seen (u : string) (events : list (request * option response))
  : option response :=
  match events with
  | [] => None
  | ev :: rest =>
      match last_seen u rest with
      | Some r => Some r
      | None =>
          if (method (fst ev) =? "GET")%string && same_origin (fst ev)
             && (url (fst ev) =? u)%string
          then snd ev
          else None
      end
  end.

(** A script's request. *)
Definition get (u : string) : request :=
  {| method := "GET"; url := u; same_origin := true; navigate := false;
     accept := Some "*/*" |}.

(** A navigation. *)
Definition visit (u : string) : request :=
  {| method := "GET"; url := u; same_origin := true; navigate := true;
     accept := Some "text/html,application/xhtml+xml" |}.

Definition page (text : string) : response :=
  {| status := 200; payload := Fetched text |}.

End Sw.

(** ** The public key of the push service *)

(** [GET /api/push/public-key]: 501, or 200 with [{ publicKey }], given
    on the right. *)
Definition get_public_key (cfg : config) : response + string :=
  if negb (Js.nonempty (VAPID_PUBLIC_KEY cfg))
  then inl (reply 501 (Error "Push non configure (VAPID_PUBLIC_KEY)"))
  else inr (VAPID_PUBLIC_KEY cfg).

(** A server with the public key of the push service but not the private
    one. *)
Definition cfg_public_key_only : config :=
  {| JWT_SECRET := "secret"; ADMIN_PASSWORD_HASH := "bcrypt:right";
     COOKIE_NAME := "cvl_admin"; IDEA_COOLDOWN_SEC := inject_Z 60;
     VAPID_PUBLIC_KEY := "BPublic"; VAPID_PRIVATE_KEY := "";
     VAPID_SUBJECT := "mailto:admin@example.com"; NODE_ENV := "" |}.

Definition announcement : send_body :=
  {| sd_title := Js.Str "Info"; sd_body := Js.Str "Reunion du CVL jeudi";
     sd_url := Js.Undefined; sd_tag := Js.Undefined |}.

(** ** The key handed to the push manager *)

(** ["=".repeat(n)] *)
Fixpoint repeat_equals (n : nat) : string :=
  match n with
  | O => EmptyString
  | S m => String "=" (repeat_equals m)
  end.

(** [s.replace(/c/g, d)] for characters [c] and [d]. *)
Fixpoint replace_all (c d : ascii) (s : string) : string :=
  match s with
  | EmptyString => EmptyString
  | String x rest =>
      String (if (x =? c)%char then d else x) (replace_all c d rest)
  end.

(** The text [urlBase64ToUint8Array] hands to [atob]. *)
Definition base64_of_url (base64String : string) : string :=
  let padding :=
    repeat_equals (Z.to_nat ((4 - Js.length base64String mod 4) mod 4)) in
  replace_all "_" "/" (replace_all "-" "+" (base64String ++ padding)).

(** [urlBase64ToUint8Array(base64String)], given [atob]: the code units
    of the decoded text, or nothing when [atob] throws. *)
Definition urlBase64ToUint8Array (atob : string -> option string)
    (base64String : string) : option (list Z) :=
  option_map
    (fun raw => map (fun c => Z.of_nat (nat_of_ascii c)) (list_ascii_of_string raw))
    (atob (base64_of_url base64String)).

(** The characters of a string. *)
Fixpoint has_char (c : ascii) (s : string) : bool :=
  match s with
  | EmptyString => false
  | String x rest => (x =? c)%char || has_char c rest
  end.

(** ** The public counters *)

(** [GET /api/public/stats]: [{ ideas, votes }], the [COUNT( * )] of the
    two tables. *)
Definition get_public_stats (d : Db.t) : Z * Z :=
  (Z.of_nat (List.length (Db.ideas d)),
   Z.of_nat (List.length (Db.poll_votes d))).

(** The answers to the requests of a history handled one at a time. *)
Fixpoint answers `{External} (cfg : config) (e : env)
    (history : list (option string * request)) (w : world) : list response :=
  match history with
  | [] => []
  | (header, rq) :: later =>
      fst (run e (handle cfg header rq) w)
      :: answers cfg e later (snd (run e (handle cfg header rq) w))
  end.

Definition is_idea (rq : request) : bool :=
  match rq with
  | Post_ideas _ _ _ => true
  | _ => false
  end.

Definition is_vote (rq : request) : bool :=
  match rq with
  | Post_vote _ _ => true
  | _ => false
  end.

(** The number of requests of a kind that were answered 200. *)
Fixpoint accepted (kind : request -> bool)
    (history : list (option string * request)) (replies : list response) : Z :=
  match history, replies with
  | (_, rq) :: later, r :: rest =>
      (if kind rq && (status r =? 200) then 1 else 0)
      + accepted kind later rest
  | _, _ => 0
  end.

(** An idea, a poll, two votes of which one is a repeat, and an idea too
    early. *)
Definition busy_day : list (option string * request) :=
  [(Sample.device, Post_ideas Sample.idea_body 1000 1000);
   (Sample.device,
    Post_admin_poll Sample.admin_token Sample.poll_request 2000 2000 2000);
   (Sample.device, Post_vote (Sample.vote_for "1" 0) 3000);
   (Sample.device, Post_vote (Sample.vote_for "1" 1) 4000);
   (Sample.device, Post_ideas Sample.idea_body 5000 5000)].

(** ** Proof tactics *)

Local Open Scope prog_scope.

(** Unfolding a program up to its next test on an answer. *)
Ltac run_steps := cbn [bind await run step_world exec fst snd w_db w_log].

(** The same for a program whose operations may throw. *)
Ltac try_steps :=
  cbn [bind await try_run throws step_world exec fst snd w_db w_log].

(** Equations that bring the deliveries recorded in a log to the front. *)
Create Rewrite HintDb push_log.

(** The rest of the delivery loop, from the induction hypothesis [IH] at
    the counters the rest is entered with. *)
Ltac loop_rest IH sent failed :=
  match goal with
  | |- context [run ?e _ ?w1] =>
      destruct (IH sent failed w1) as (Hcount & Hdb & Hlog);
      rewrite Hcount, Hdb, Hlog; cbn [w_db w_log];
      autorewrite with push_log; cbn [attempts];
      autorewrite with push_log;
      split; [f_equal; lia | split; reflexivity]
  end.

(** Case analysis on the store failing at the guarded statement under
    focus. *)
Ltac case_store_fails :=
  match goal with
  | |- context [store_fails ?e ?A ?o] => destruct (store_fails e A o)
  end.

(** ** The model on small inputs *)

Example trim_both_ends : Js.trim "  a b	 " = "a b".
Proof. reflexivity. Qed.

Example trim_blank : Js.trim "   " = "".
Proof. reflexivity. Qed.

Example isInt_accepts :
  map (Validator.isInt 0 50)
    [Js.Num (Js.of_Z 0); Js.Num (Js.of_Z 50); Js.Str "7"; Js.Str "+7";
     Js.Str "07"; Js.Str "00"; Js.Arr [Js.Num (Js.of_Z 3)];
     Js.Arr [Js.Str "1"; Js.Str "2"]; Js.Arr []]
  = [true; true; true; true; true; true; true; true; true].
Proof. reflexivity. Qed.

Example isInt_refuses :
  map (Validator.isInt 0 50)
    [Js.Num (Js.of_Z (-1)); Js.Num (Js.of_Z 51); Js.Num (Js.Fin (3 # 2));
     Js.Num Js.NaN; Js.Str "1.5"; Js.Str ""; Js.Str "abc"; Js.Str "051";
     Js.Null; Js.Undefined; Js.Bool true; Js.Obj; Js.Arr [Js.Str "x"];
     Js.Arr [Js.Num (Js.of_Z 1); Js.Num (Js.of_Z 51)]]
  = [false; false; false; false; false; false; false; false; false; false;
     false; false; false; false].
Proof. reflexivity. Qed.

Example isIn_on_arrays :
  map (Validator.isIn ["basse"; "moyenne"; "haute"])
    [Js.Str "haute"; Js.Arr [Js.Str "haute"];
     Js.Arr [Js.Str "basse"; Js.Str "haute"]; Js.Arr [];
     Js.Arr [Js.Arr [Js.Str "haute"]]; Js.Str "forte";
     Js.Arr [Js.Str "haute"; Js.Str "forte"]; Js.Obj; Js.Undefined;
     Js.Arr [Js.Arr [Js.Str "basse"; Js.Str "forte"]]]
  = [true; true; true; true; true; false; false; false; false; true].
Proof. reflexivity. Qed.

Example device_id_bounds :
  map (fun header =>
         match resolveDeviceHash header with
         | inl rejected => status rejected
         | inr _ => 200
         end)
    [None; Some ""; Some "abc1234"; Some "abc12345"]
  = [400; 400; 400; 200].
Proof. reflexivity. Qed.

Example sha256_abc :
  Sha256.hex "abc"
  = "ba7816bf8f01cfea414140de5dae2223b00361a396177a9cb410ff61f20015ad".
Proof. vm_compute. reflexivity. Qed.

Example sha256_two_blocks :
  Sha256.hex "abcdbcdecdefdefgefghfghighijhijkijkljklmklmnlmnomnopnopq"
  = "248d6a61d20638b8e5c026930c3e6039a33ce45964ff2167f6ecedd419db06c1".
Proof. vm_compute. reflexivity. Qed.

Example device_hash_abc12345 :
  resolveDeviceHash (Some "abc12345")
  = inr "14f8f4bb8c0e79a02670a5fea5682da717a5b3d3dc7b1706f7a4bab9afae18c2".
Proof. vm_compute. reflexivity. Qed.

Example last_idea_is_of_greatest_id :
  Db.select_last_idea "dev"
    (Db.insert_idea "c" "autre" "basse" "other" 30
       (Db.insert_idea "b" "autre" "basse" "dev" 20
          (Db.insert_idea "a" "autre" "basse" "dev" 10 Db.empty)))
  = Some 20.
Proof. reflexivity. Qed.

Example first_vote_is_recorded :
  map (fun v => (Db.vote_poll_id v, Db.vote_option_index v, Db.vote_voter_hash v))
    (Db.poll_votes (w_db Sample.after_first_vote))
  = [(1, 0, "dev")].
Proof. reflexivity. Qed.

Example poll_results_percent :
  fst (run Sample.world_ok get_poll Sample.after_first_vote)
  = reply 200
      (ActivePoll 1 "Quel club ouvrir ?" ["Echecs"; "Robotique"] 1000
         [("Echecs", 1, Js.of_Z 100); ("Robotique", 0, Js.of_Z 0)]).
Proof. vm_compute. reflexivity. Qed.

Example double_of_decimals :
  Js.double (2003 # 1000) = Js.Fin (140948594587861 # 70368744177664)
  /\ Js.double (1 # 10) = Js.Fin (3602879701896397 # 36028797018963968)
  /\ Js.sub (Js.double (3 # 10)) (Js.double (1 # 10))
     = Js.Fin (7205759403792793 # 36028797018963968)
  /\ Js.double (inject_Z (2 ^ 53 + 1)) = Js.of_Z (2 ^ 53)
  /\ Js.double (inject_Z (2 ^ 53 + 3)) = Js.of_Z (2 ^ 53 + 4)
  /\ Js.double (inject_Z (2 ^ 1024)) = Js.Infinity false
  /\ Js.double (1 # 2 ^ 1075) = Js.Fin 0
  /\ Js.double (- (3 # 2 ^ 1075)) = Js.Fin (- (1 # 2 ^ 1073)).
Proof. vm_compute. repeat split. Qed.


(** ** Numbers *)

Lemma pow2_pos (k : Z) : (0 < Js.pow2 k)%Q.
Proof. apply Qpower_0_lt. reflexivity. Qed.

Lemma pow2_plus (a b : Z) : (Js.pow2 (a + b) == Js.pow2 a * Js.pow2 b)%Q.
Proof. apply Qpower_plus. discriminate. Qed.

Lemma pow2_le (a b : Z) : a <= b -> (Js.pow2 a <= Js.pow2 b)%Q.
Proof. intros Hab. apply Qpower_le_compat_l; [exact Hab | discriminate]. Qed.

Lemma pow2_nonneg_Z (k : Z) : 0 <= k -> (Js.pow2 k == inject_Z (2 ^ k))%Q.
Proof.
  intros Hk. unfold Js.pow2. rewrite Zpower_Qpower by exact Hk. reflexivity.
Qed.

Lemma pow2_lt_inv (a b : Z) : (Js.pow2 a < Js.pow2 b)%Q -> a < b.
Proof. intros Hlt. apply (Qpower_lt_compat_l_inv 2); [exact Hlt | reflexivity]. Qed.

(** The exponent is at most the logarithm. *)
Lemma exponent_le (q : Q) : (0 < q)%Q -> (Js.pow2 (Js.exponent q) <= q)%Q.
Proof.
  intros Hq. unfold Js.exponent.
  set (e := Z.log2 (Qnum q) - Z.log2 (Z.pos (Qden q))).
  destruct (Qcompare_spec q (Js.pow2 e)) as [Heq | Hlt | Hgt].
  - rewrite Heq. apply Qle_refl.
  - destruct q as [n d]. cbn [Qnum Qden] in *.
    assert (Hn : 0 < n).
    { unfold Qlt in Hq. cbn in Hq. lia. }
    pose proof (Z.log2_spec n Hn) as [Hn_low _].
    pose proof (Z.log2_spec (Z.pos d) (Pos2Z.is_pos d)) as [_ Hd_high].
    pose proof (Z.log2_nonneg n) as Hln.
    pose proof (Z.log2_nonneg (Z.pos d)) as Hld.
    assert (Hsplit : (Js.pow2 (e - 1) * inject_Z (2 ^ (Z.log2 (Z.pos d) + 1))
                      == inject_Z (2 ^ Z.log2 n))%Q).
    { rewrite <- !pow2_nonneg_Z by lia. rewrite <- pow2_plus.
      subst e. replace (Z.log2 n - Z.log2 (Z.pos d) - 1
                        + (Z.log2 (Z.pos d) + 1)) with (Z.log2 n) by lia.
      reflexivity. }
    assert (Hd : (Js.pow2 (e - 1) * inject_Z (Z.pos d) <= inject_Z n)%Q).
    { apply Qle_trans with (inject_Z (2 ^ Z.log2 n)).
      - rewrite <- Hsplit. apply Qmult_le_l; [apply pow2_pos |].
        rewrite <- Zle_Qle. lia.
      - rewrite <- Zle_Qle. exact Hn_low. }
    apply Qle_shift_div_l in Hd; [| reflexivity].
    eapply Qle_trans; [exact Hd |].
    unfold Qdiv, Qinv, Qmult, Qle, inject_Z. cbn. lia.
  - apply Qlt_le_weak, Hgt.
Qed.

Lemma nearest_even_ge (q : Q) (m : Z) :
  (inject_Z m <= q)%Q -> m <= Js.nearest_even q.
Proof.
  intros Hm. unfold Js.nearest_even.
  assert (Hf : m <= Qfloor q).
  { rewrite <- (Qfloor_Z m). apply Qfloor_resp_le, Hm. }
  destruct (q - inject_Z (Qfloor q) ?= 1 # 2)%Q;
    [destruct (Z.even (Qfloor q)) | |]; lia.
Qed.

Lemma nearest_even_le (q : Q) (m : Z) :
  (q <= inject_Z m)%Q -> Js.nearest_even q <= m.
Proof.
  intros Hm. unfold Js.nearest_even.
  assert (Hf : Qfloor q <= m).
  { rewrite <- (Qfloor_Z m). apply Qfloor_resp_le, Hm. }
  destruct (Z.eq_dec (Qfloor q) m) as [Heq | Hne].
  - assert (Hq : (q - inject_Z (Qfloor q) <= 0)%Q).
    { rewrite Heq. apply (Qplus_le_l _ _ (inject_Z m)). ring_simplify.
      exact Hm. }
    destruct (Qcompare_spec (q - inject_Z (Qfloor q)) (1 # 2))
      as [Hc | Hc | Hc].
    + rewrite Hc in Hq. exfalso. apply Hq. reflexivity.
    + lia.
    + exfalso. apply (Qlt_irrefl (1 # 2)).
      eapply Qlt_le_trans; [exact Hc |].
      eapply Qle_trans; [exact Hq | discriminate].
  - destruct (q - inject_Z (Qfloor q) ?= 1 # 2)%Q;
      [destruct (Z.even (Qfloor q)) | |]; lia.
Qed.

(** What [round_positive] is the lowest terms of. *)
Lemma round_positive_eq (q : Q) :
  let k := Z.max (Js.exponent q - 52) (-1074) in
  (Js.round_positive q
   == inject_Z (Js.nearest_even (q / Js.pow2 k)) * Js.pow2 k)%Q.
Proof. apply Qred_correct. Qed.

Lemma round_positive_grid (q : Q) : grid (Js.round_positive q).
Proof.
  pose proof (round_positive_eq q) as Heq. cbv zeta in Heq.
  set (k := Z.max (Js.exponent q - 52) (-1074)) in *.
  exists (Js.nearest_even (q / Js.pow2 k) * 2 ^ (k + 1074)).
  rewrite Heq, inject_Z_mult, <- pow2_nonneg_Z by lia.
  rewrite <- Qmult_assoc, <- pow2_plus.
  replace (k + 1074 + -1074) with k by lia. reflexivity.
Qed.

Lemma round_positive_nonneg (q : Q) :
  (0 <= q)%Q -> (0 <= Js.round_positive q)%Q.
Proof.
  intros Hq. rewrite round_positive_eq.
  apply Qmult_le_0_compat; [| apply Qlt_le_weak, pow2_pos].
  change 0%Q with (inject_Z 0). rewrite <- Zle_Qle.
  apply nearest_even_ge. cbn.
  apply Qle_shift_div_l; [apply pow2_pos |]. rewrite Qmult_0_l. exact Hq.
Qed.

(** A positive number of the grid does not round to zero. *)
Lemma round_positive_pos (q : Q) :
  (Js.pow2 (-1074) <= q)%Q -> (0 < Js.round_positive q)%Q.
Proof.
  intros Hq. rewrite round_positive_eq.
  set (k := Z.max (Js.exponent q - 52) (-1074)).
  assert (Hpos : (0 < q)%Q).
  { eapply Qlt_le_trans; [apply (pow2_pos (-1074)) | exact Hq]. }
  assert (Hk : (Js.pow2 k <= q)%Q).
  { subst k.
    destruct (Z.max_spec (Js.exponent q - 52) (-1074)) as [[_ ->] | [_ ->]].
    - exact Hq.
    - eapply Qle_trans; [| apply exponent_le, Hpos]. apply pow2_le. lia. }
  assert (Hone : 1 <= Js.nearest_even (q / Js.pow2 k)).
  { apply nearest_even_ge. apply Qle_shift_div_l; [apply pow2_pos |].
    rewrite Qmult_1_l. exact Hk. }
  apply Qmult_lt_0_compat; [| apply pow2_pos].
  change 0%Q with (inject_Z 0). rewrite <- Zlt_Qlt. lia.
Qed.

Lemma grid_pos (q : Q) : grid q -> (0 < q)%Q -> (Js.pow2 (-1074) <= q)%Q.
Proof.
  intros [m Hm] Hq. rewrite Hm in *.
  assert (Hm1 : 1 <= m).
  { destruct (Z_lt_le_dec m 1) as [Hlt | Hle]; [| exact Hle].
    exfalso. apply (Qlt_irrefl 0). eapply Qlt_le_trans; [exact Hq |].
    setoid_replace 0%Q with (0 * Js.pow2 (-1074))%Q by ring.
    apply Qmult_le_compat_r; [| apply Qlt_le_weak, pow2_pos].
    change 0%Q with (inject_Z 0). rewrite <- Zle_Qle. lia. }
  setoid_replace (Js.pow2 (-1074)) with (1 * Js.pow2 (-1074))%Q at 1 by ring.
  apply Qmult_le_compat_r; [| apply Qlt_le_weak, pow2_pos].
  change 1%Q with (inject_Z 1). rewrite <- Zle_Qle. exact Hm1.
Qed.

Lemma grid_opp (q : Q) : grid q -> grid (- q).
Proof.
  intros [m Hm]. exists (- m). rewrite Hm, inject_Z_opp. ring.
Qed.

Lemma grid_minus (x y : Q) : grid x -> grid y -> grid (x - y).
Proof.
  intros [m Hm] [n Hn]. exists (m - n).
  rewrite Hm, Hn. unfold Zminus. rewrite inject_Z_plus, inject_Z_opp. ring.
Qed.

Lemma double_is_double (q : Q) : is_double (Js.double q).
Proof.
  unfold Js.double.
  destruct (q ?= 0)%Q.
  - exists 0. ring.
  - destruct (Js.overflows _); [exact I |]. apply grid_opp, round_positive_grid.
  - destruct (Js.overflows _); [exact I |]. apply round_positive_grid.
Qed.

Lemma double_positive (q : Q) :
  grid q -> (0 < q)%Q -> positive (Js.double q).
Proof.
  intros Hgrid Hq. unfold Js.double.
  destruct (Qcompare_spec q 0) as [Heq | Hlt | Hgt].
  - rewrite Heq in Hq. discriminate Hq.
  - exfalso. exact (Qlt_irrefl _ (Qlt_trans _ _ _ Hq Hlt)).
  - destruct (Js.overflows _); [reflexivity |].
    apply round_positive_pos, grid_pos; assumption.
Qed.

Lemma double_not_positive (q : Q) :
  (q <= 0)%Q -> not_positive (Js.double q).
Proof.
  intros Hq. unfold Js.double.
  destruct (Qcompare_spec q 0) as [Heq | Hlt | Hgt].
  - apply Qle_refl.
  - destruct (Js.overflows _); [reflexivity |]. cbn.
    setoid_replace 0%Q with (- 0)%Q by ring. apply Qopp_le_compat.
    apply round_positive_nonneg.
    setoid_replace 0%Q with (- 0)%Q by ring. apply Qopp_le_compat. exact Hq.
  - exfalso. exact (Qlt_irrefl _ (Qlt_le_trans _ _ _ Hgt Hq)).
Qed.

(** Below [2^53], rounding does not cross an integer. *)
Lemma double_le_integer (q : Q) (N : Z) :
  (0 <= q)%Q -> (q <= inject_Z N)%Q -> N < 2 ^ 53 ->
  exists r : Q, Js.double q = Js.Fin r /\ (0 <= r <= inject_Z N)%Q.
Proof.
  intros Hq HN Hsmall. unfold Js.double.
  destruct (Qcompare_spec q 0) as [Heq | Hlt | Hgt].
  - exists 0%Q. split; [reflexivity |]. split; [apply Qle_refl |].
    rewrite <- Heq. exact HN.
  - exfalso. exact (Qlt_irrefl _ (Qlt_le_trans _ _ _ Hlt Hq)).
  - assert (Hbound : (Js.round_positive q <= inject_Z N)%Q).
    { rewrite round_positive_eq.
      set (k := Z.max (Js.exponent q - 52) (-1074)).
      assert (He : Js.exponent q < 53).
      { apply pow2_lt_inv. eapply Qle_lt_trans; [apply exponent_le, Hgt |].
        eapply Qle_lt_trans; [exact HN |].
        rewrite pow2_nonneg_Z by lia. rewrite <- Zlt_Qlt. exact Hsmall. }
      assert (Hk : k <= 0) by lia.
      assert (Hinv : (Js.pow2 (- k) * Js.pow2 k == 1)%Q).
      { rewrite <- pow2_plus. replace (- k + k) with 0 by lia. reflexivity. }
      assert (Hn : Js.nearest_even (q / Js.pow2 k) <= N * 2 ^ (- k)).
      { apply nearest_even_le. apply Qle_shift_div_r; [apply pow2_pos |].
        rewrite inject_Z_mult, <- pow2_nonneg_Z by lia.
        rewrite <- Qmult_assoc, Hinv, Qmult_1_r. exact HN. }
      apply Qle_trans with (inject_Z (N * 2 ^ (- k)) * Js.pow2 k)%Q.
      - apply Qmult_le_compat_r; [| apply Qlt_le_weak, pow2_pos].
        rewrite <- Zle_Qle. exact Hn.
      - rewrite inject_Z_mult, <- pow2_nonneg_Z by lia.
        rewrite <- Qmult_assoc, Hinv, Qmult_1_r. apply Qle_refl. }
    assert (Hfinite : Js.overflows (Js.round_positive q) = false).
    { unfold Js.overflows. destruct (Qle_bool _ _) eqn:Hover; [| reflexivity].
      apply Qle_bool_iff in Hover. exfalso.
      apply (Qlt_irrefl (Js.pow2 1024)).
      eapply Qle_lt_trans; [exact Hover |].
      eapply Qle_lt_trans; [exact Hbound |].
      rewrite pow2_nonneg_Z by lia. rewrite <- Zlt_Qlt.
      eapply Z.lt_trans; [exact Hsmall |]. reflexivity. }
    rewrite Hfinite. exists (Js.round_positive q). split; [reflexivity |].
    split; [apply round_positive_nonneg, Qlt_le_weak, Hgt | exact Hbound].
Qed.

Lemma Qlt_bool_iff (x y : Q) : Js.Qlt_bool x y = true <-> (x < y)%Q.
Proof.
  unfold Js.Qlt_bool. rewrite negb_true_iff.
  destruct (Qle_bool y x) eqn:Hle.
  - apply Qle_bool_iff in Hle. split; [discriminate |].
    intros Hlt. exfalso. exact (Qlt_irrefl _ (Qlt_le_trans _ _ _ Hlt Hle)).
  - split; [| reflexivity]. intros _. apply Qnot_le_lt. intros Hyx.
    apply Qle_bool_iff in Hyx. congruence.
Qed.

Lemma Qlt_bool_false (x y : Q) : Js.Qlt_bool x y = false <-> (y <= x)%Q.
Proof.
  unfold Js.Qlt_bool. rewrite negb_false_iff. apply Qle_bool_iff.
Qed.

(** [0 < n] on a number with a sign. *)
Lemma lt_zero_positive (n : Js.number) :
  positive n -> Js.lt (Js.of_Z 0) n = true.
Proof.
  destruct n as [| negative | r]; cbn; [intros [] | intros -> | intros Hr].
  - reflexivity.
  - apply Qlt_bool_iff, Hr.
Qed.

Lemma lt_zero_not_positive (n : Js.number) :
  not_positive n -> Js.lt (Js.of_Z 0) n = false.
Proof.
  destruct n as [| negative | r]; cbn; [intros [] | intros -> | intros Hr].
  - reflexivity.
  - apply Qlt_bool_false, Hr.
Qed.

Lemma ceil_positive (n : Js.number) :
  positive n -> whole_seconds (Js.Math_ceil n).
Proof.
  destruct n as [| negative | r]; cbn; [intros [] | intros ->; reflexivity |].
  intros Hr. exists (Qceiling r). split; [| reflexivity].
  assert (Hlt : (inject_Z 0 < inject_Z (Qceiling r))%Q).
  { eapply Qlt_le_trans; [exact Hr | apply Qle_ceiling]. }
  rewrite <- Zlt_Qlt in Hlt. lia.
Qed.

Lemma ceil_not_positive (n : Js.number) :
  not_positive n -> not_positive (Js.Math_ceil n).
Proof.
  destruct n as [| negative | r]; cbn; [intros [] | intros ->; reflexivity |].
  intros Hr. change 0%Q with (inject_Z 0). rewrite <- Zle_Qle.
  rewrite <- (Qceiling_Z 0). apply Qceiling_resp_le, Hr.
Qed.

Lemma whole_seconds_positive (n : Js.number) : whole_seconds n -> positive n.
Proof.
  destruct n as [| negative | r]; cbn; [intros [] | intros ->; reflexivity |].
  intros (z & Hz & ->). change 0%Q with (inject_Z 0). rewrite <- Zlt_Qlt. lia.
Qed.

(** The difference of two numbers of the format has the sign of their
    order: it is positive when the first is above the second, and zero or
    negative (or no number, for two infinities of a sign) when it is
    not. *)
Lemma sub_positive (a b : Js.number) :
  is_double a -> is_double b -> Js.lt b a = true -> positive (Js.sub a b).
Proof.
  destruct a as [| [|] | x], b as [| [|] | y];
    cbn [Js.lt Js.sub is_double Bool.eqb negb positive];
    intros Ha Hb Hlt; try discriminate; try reflexivity.
  apply Qlt_bool_iff in Hlt. apply double_positive.
  - apply grid_minus; assumption.
  - apply (Qplus_lt_l _ _ y). ring_simplify. exact Hlt.
Qed.

Lemma sub_not_positive (a b : Js.number) :
  Js.lt b a = false ->
  Js.lt (Js.of_Z 0) (Js.Math_ceil (Js.sub a b)) = false.
Proof.
  destruct a as [| [|] | x], b as [| [|] | y];
    cbn [Js.lt Js.sub Bool.eqb negb Js.Math_ceil Js.of_Z];
    intros Hlt; try discriminate; try reflexivity.
  apply Qlt_bool_false in Hlt.
  apply lt_zero_not_positive, ceil_not_positive, double_not_positive.
  apply (Qplus_le_l _ _ y). ring_simplify. exact Hlt.
Qed.

Lemma nearest_even_near (q : Q) :
  (q - (1 # 2) <= inject_Z (Js.nearest_even q) <= q + (1 # 2))%Q.
Proof.
  unfold Js.nearest_even.
  pose proof (Qfloor_le q) as Hlow. pose proof (Qlt_floor q) as Hhigh.
  rewrite inject_Z_plus in Hhigh. change (inject_Z 1) with 1%Q in Hhigh.
  destruct (Qcompare_spec (q - inject_Z (Qfloor q)) (1 # 2)) as [Heq | Hlt | Hgt].
  - destruct (Z.even (Qfloor q)).
    + lra.
    + rewrite inject_Z_plus. change (inject_Z 1) with 1%Q. lra.
  - lra.
  - rewrite inject_Z_plus. change (inject_Z 1) with 1%Q. lra.
Qed.

Lemma exponent_lt (q : Q) (E : Z) :
  (0 < q)%Q -> (q < Js.pow2 E)%Q -> Js.exponent q < E.
Proof.
  intros Hq HE. apply pow2_lt_inv.
  eapply Qle_lt_trans; [apply exponent_le, Hq | exact HE].
Qed.

(** Rounding moves a number by half a unit in the last place at most. *)
Lemma round_positive_near (q : Q) (E : Z) :
  (0 < q)%Q -> (q < Js.pow2 E)%Q -> -1021 <= E ->
  (q - Js.pow2 (E - 53) <= Js.round_positive q <= q + Js.pow2 (E - 53))%Q.
Proof.
  intros Hq HE Hnormal. rewrite round_positive_eq.
  set (k := Z.max (Js.exponent q - 52) (-1074)).
  pose proof (exponent_lt q E Hq HE) as Hexp.
  assert (Hk : k <= E - 53) by lia.
  pose proof (pow2_pos k) as Hpos.
  pose proof (pow2_le k (E - 53) Hk) as Hunit.
  pose proof (nearest_even_near (q / Js.pow2 k)) as [Hlow Hhigh].
  assert (Hq' : (q / Js.pow2 k * Js.pow2 k == q)%Q).
  { field. intros Hzero. rewrite Hzero in Hpos. discriminate Hpos. }
  apply (Qmult_le_compat_r _ _ (Js.pow2 k)) in Hlow;
    [| apply Qlt_le_weak, Hpos].
  apply (Qmult_le_compat_r _ _ (Js.pow2 k)) in Hhigh;
    [| apply Qlt_le_weak, Hpos].
  set (n := (inject_Z (Js.nearest_even (q / Js.pow2 k)) * Js.pow2 k)%Q) in *.
  split; lra.
Qed.

Lemma round_positive_le_integer (q : Q) (N : Z) :
  (0 < q)%Q -> (q <= inject_Z N)%Q -> Js.exponent q < 53 ->
  (Js.round_positive q <= inject_Z N)%Q.
Proof.
  intros Hq HN He. rewrite round_positive_eq.
  set (k := Z.max (Js.exponent q - 52) (-1074)).
  assert (Hk : k <= 0) by lia.
  assert (Hinv : (Js.pow2 (- k) * Js.pow2 k == 1)%Q).
  { rewrite <- pow2_plus. replace (- k + k) with 0 by lia. reflexivity. }
  assert (Hn : Js.nearest_even (q / Js.pow2 k) <= N * 2 ^ (- k)).
  { apply nearest_even_le. apply Qle_shift_div_r; [apply pow2_pos |].
    rewrite inject_Z_mult, <- pow2_nonneg_Z by lia.
    rewrite <- Qmult_assoc, Hinv, Qmult_1_r. exact HN. }
  apply Qle_trans with (inject_Z (N * 2 ^ (- k)) * Js.pow2 k)%Q.
  - apply Qmult_le_compat_r; [| apply Qlt_le_weak, pow2_pos].
    rewrite <- Zle_Qle. exact Hn.
  - rewrite inject_Z_mult, <- pow2_nonneg_Z by lia.
    rewrite <- Qmult_assoc, Hinv, Qmult_1_r. apply Qle_refl.
Qed.

Lemma round_positive_ge_integer (q : Q) (N : Z) :
  (0 < q)%Q -> (inject_Z N <= q)%Q -> Js.exponent q < 53 ->
  (inject_Z N <= Js.round_positive q)%Q.
Proof.
  intros Hq HN He. rewrite round_positive_eq.
  set (k := Z.max (Js.exponent q - 52) (-1074)).
  assert (Hk : k <= 0) by lia.
  assert (Hinv : (Js.pow2 (- k) * Js.pow2 k == 1)%Q).
  { rewrite <- pow2_plus. replace (- k + k) with 0 by lia. reflexivity. }
  assert (Hn : N * 2 ^ (- k) <= Js.nearest_even (q / Js.pow2 k)).
  { apply nearest_even_ge. apply Qle_shift_div_l; [apply pow2_pos |].
    rewrite inject_Z_mult, <- pow2_nonneg_Z by lia.
    rewrite <- Qmult_assoc, Hinv, Qmult_1_r. exact HN. }
  apply Qle_trans with (inject_Z (N * 2 ^ (- k)) * Js.pow2 k)%Q.
  - rewrite inject_Z_mult, <- pow2_nonneg_Z by lia.
    rewrite <- Qmult_assoc, Hinv, Qmult_1_r. apply Qle_refl.
  - apply Qmult_le_compat_r; [| apply Qlt_le_weak, pow2_pos].
    rewrite <- Zle_Qle. exact Hn.
Qed.

(** Below [2^E], for [E] up to 53, a number is rounded to a number of
    the format that is within [2^(E-53)] of it and on the same side of
    every integer. *)
Lemma double_below (q : Q) (E : Z) :
  (0 <= q)%Q -> (q < Js.pow2 E)%Q -> 0 <= E <= 53 ->
  exists r : Q,
    Js.double q = Js.Fin r
    /\ (q - Js.pow2 (E - 53) <= r <= q + Js.pow2 (E - 53))%Q
    /\ (forall N : Z, (inject_Z N <= q)%Q -> (inject_Z N <= r)%Q)
    /\ (forall N : Z, (q <= inject_Z N)%Q -> (r <= inject_Z N)%Q).
Proof.
  intros Hq Hsmall HE. unfold Js.double.
  pose proof (pow2_pos (E - 53)) as Hunit.
  destruct (Qcompare_spec q 0) as [Heq | Hlt | Hgt].
  - exists 0%Q. split; [reflexivity |].
    split; [split; lra |]. split; intros N HN; lra.
  - exfalso. lra.
  - pose proof (round_positive_near q E Hgt Hsmall ltac:(lia)) as Hnear.
    assert (He : Js.exponent q < 53).
    { pose proof (exponent_lt q E Hgt Hsmall). lia. }
    assert (Hfinite : Js.overflows (Js.round_positive q) = false).
    { unfold Js.overflows. destruct (Qle_bool _ _) eqn:Hover; [| reflexivity].
      apply Qle_bool_iff in Hover. exfalso.
      pose proof (pow2_le E 53 ltac:(lia)) as Hhigh.
      pose proof (pow2_le (E - 53) 0 ltac:(lia)) as Hlow.
      assert (Hbig : (Js.pow2 53 + Js.pow2 0 < Js.pow2 1024)%Q)
        by (vm_compute; reflexivity).
      lra. }
    rewrite Hfinite. exists (Js.round_positive q).
    split; [reflexivity |]. split; [exact Hnear |]. split; intros N HN.
    + apply round_positive_ge_integer; assumption.
    + apply round_positive_le_integer; assumption.
Qed.

Lemma Qred_integer (z : Z) : Qred (inject_Z z) = inject_Z z.
Proof.
  unfold Qred, inject_Z.
  pose proof (Z.ggcd_gcd z 1) as Hg.
  pose proof (Z.ggcd_correct_divisors z 1) as Hd.
  destruct (Z.ggcd z 1) as [g [aa bb]]. cbn [fst snd] in *.
  rewrite Z.gcd_1_r in Hg. subst g. destruct Hd as [Ha Hb].
  rewrite Z.mul_1_l in Ha, Hb. subst. reflexivity.
Qed.

(** An integer below [2^53] is in the format. *)
Lemma double_integer (q : Q) (z : Z) :
  (q == inject_Z z)%Q -> 0 <= z < 2 ^ 53 ->
  Js.double q = Js.Fin (inject_Z z).
Proof.
  intros Hq [Hlow Hhigh].
  assert (Hz : (0 <= inject_Z z)%Q).
  { change 0%Q with (inject_Z 0). rewrite <- Zle_Qle. exact Hlow. }
  assert (Hsmall : (q < Js.pow2 53)%Q).
  { rewrite Hq, pow2_nonneg_Z by lia. rewrite <- Zlt_Qlt. exact Hhigh. }
  unfold Js.double.
  destruct (Qcompare_spec q 0) as [Heq | Hlt | Hgt].
  - assert (Hzero : z = 0).
    { rewrite Heq in Hq. unfold Qeq in Hq. cbn in Hq. lia. }
    subst z. reflexivity.
  - exfalso. lra.
  - destruct (double_below q 53 (Qlt_le_weak _ _ Hgt) Hsmall ltac:(lia))
      as (r & Hr & _ & Hge & Hle).
    unfold Js.double in Hr.
    destruct (Qcompare_spec q 0) as [Heq' | Hlt' | _]; try (exfalso; lra).
    destruct (Js.overflows (Js.round_positive q)); [discriminate |].
    injection Hr as <-. f_equal.
    assert (Hsame : (Js.round_positive q == inject_Z z)%Q).
    { apply Qle_antisym; [apply Hle | apply Hge]; rewrite Hq; apply Qle_refl. }
    unfold Js.round_positive in *.
    rewrite Qred_correct in Hsame. apply Qred_complete in Hsame.
    rewrite Hsame. apply Qred_integer.
Qed.

(** A number of milliseconds, in seconds, is a thousandth away at least
    from the integers it is not. *)
Lemma thousandth_below (k N : Z) :
  (inject_Z k / inject_Z 1000 < inject_Z N)%Q ->
  (inject_Z k / inject_Z 1000 <= inject_Z N - (1 # 1000))%Q.
Proof.
  intros Hlt.
  assert (Hk : (inject_Z k / inject_Z 1000 * 1000 == inject_Z k)%Q)
    by (field; discriminate).
  assert (Hz : k < N * 1000).
  { rewrite Zlt_Qlt, inject_Z_mult. change (inject_Z 1000) with 1000%Q in *.
    lra. }
  assert (Hq : (inject_Z k <= inject_Z (N * 1000 - 1))%Q)
    by (rewrite <- Zle_Qle; lia).
  unfold Z.sub in Hq. rewrite inject_Z_plus, inject_Z_mult in Hq.
  change (inject_Z 1000) with 1000%Q in *.
  change (inject_Z (- (1))) with (- (1))%Q in Hq. lra.
Qed.

Lemma thousandth_above (k N : Z) :
  (inject_Z N < inject_Z k / inject_Z 1000)%Q ->
  (inject_Z N + (1 # 1000) <= inject_Z k / inject_Z 1000)%Q.
Proof.
  intros Hlt.
  assert (Hk : (inject_Z k / inject_Z 1000 * 1000 == inject_Z k)%Q)
    by (field; discriminate).
  assert (Hz : N * 1000 < k).
  { rewrite Zlt_Qlt, inject_Z_mult. change (inject_Z 1000) with 1000%Q in *.
    lra. }
  assert (Hq : (inject_Z (N * 1000 + 1) <= inject_Z k)%Q)
    by (rewrite <- Zle_Qle; lia).
  rewrite inject_Z_plus, inject_Z_mult in Hq.
  change (inject_Z 1000) with 1000%Q in *.
  change (inject_Z 1) with 1%Q in Hq. lra.
Qed.

Lemma Qceiling_between (r : Q) (m : Z) :
  (inject_Z m - 1 < r)%Q -> (r <= inject_Z m)%Q -> Qceiling r = m.
Proof.
  intros Hlow Hhigh.
  assert (Hle : Qceiling r <= m).
  { rewrite <- (Qceiling_Z m). apply Qceiling_resp_le, Hhigh. }
  assert (Hlt : m - 1 < Qceiling r).
  { rewrite Zlt_Qlt. unfold Z.sub. rewrite inject_Z_plus.
    change (inject_Z (- (1))) with (- (1))%Q.
    pose proof (Qle_ceiling r). lra. }
  lia.
Qed.

(** With a cooldown of a whole number of seconds, the server tells an idea
    inside the window from one outside it as the exact seconds do, and
    the ceiling it sends is the exact one. *)
Lemma whole_cooldown (c now created_at : Z) :
  0 <= c < 2 ^ 40 ->
  0 <= now - created_at < 1000 * 2 ^ 40 ->
  Js.lt (elapsed now created_at) (Js.double (inject_Z c))
  = Js.Qlt_bool (elapsed_sec now created_at) (inject_Z c)
  /\ ((elapsed_sec now created_at < inject_Z c)%Q ->
      Js.Math_ceil (Js.sub (Js.double (inject_Z c)) (elapsed now created_at))
      = Js.of_Z (Js.ceil (inject_Z c - elapsed_sec now created_at))).
Proof.
  intros Hc Hk.
  assert (Hunit : (Js.pow2 (40 - 53) == 1 # 8192)%Q) by reflexivity.
  rewrite (double_integer (inject_Z c) c) by (try reflexivity; lia).
  unfold elapsed, Js.of_Z. cbn [Js.sub].
  rewrite (double_integer (inject_Z now - inject_Z created_at)
             (now - created_at));
    [| unfold Z.sub; rewrite inject_Z_plus, inject_Z_opp; reflexivity | lia].
  cbn [Js.div]. change (inject_Z 1000 ?= 0)%Q with Gt. cbv iota.
  fold (elapsed_sec now created_at).
  set (x := elapsed_sec now created_at).
  assert (Hx_low : (0 <= x)%Q).
  { subst x. unfold elapsed_sec. apply Qle_shift_div_l; [reflexivity |].
    rewrite Qmult_0_l. change 0%Q with (inject_Z 0). rewrite <- Zle_Qle. lia. }
  assert (Hx_high : (x < Js.pow2 40)%Q).
  { subst x. unfold elapsed_sec. apply Qlt_shift_div_r; [reflexivity |].
    rewrite pow2_nonneg_Z by lia. rewrite <- inject_Z_mult, <- Zlt_Qlt. lia. }
  assert (Hc_low : (0 <= inject_Z c)%Q).
  { change 0%Q with (inject_Z 0). rewrite <- Zle_Qle. lia. }
  assert (Hc_high : (inject_Z c < Js.pow2 40)%Q).
  { rewrite pow2_nonneg_Z by lia. rewrite <- Zlt_Qlt. lia. }
  destruct (double_below x 40 Hx_low Hx_high ltac:(lia))
    as (d & -> & [Hd_low Hd_high] & Hd_ge & Hd_le).
  cbn [Js.lt Js.sub].
  assert (Hinside : (x < inject_Z c)%Q -> (d < inject_Z c)%Q).
  { intros Hlt. pose proof (thousandth_below _ _ Hlt) as Hgap.
    fold (elapsed_sec now created_at) in Hgap. fold x in Hgap. lra. }
  split.
  - destruct (Qlt_le_dec x (inject_Z c)) as [Hlt | Hge].
    + rewrite (proj2 (Qlt_bool_iff _ _) Hlt).
      apply Qlt_bool_iff, Hinside, Hlt.
    + rewrite (proj2 (Qlt_bool_false _ _) Hge).
      apply Qlt_bool_false, Hd_ge, Hge.
  - intros Hlt. specialize (Hinside Hlt).
    assert (Hdiff_low : (0 <= inject_Z c - d)%Q) by lra.
    assert (Hdiff_high : (inject_Z c - d < Js.pow2 40)%Q).
    { pose proof (Hd_ge 0 Hx_low) as Hd0. change (inject_Z 0) with 0%Q in Hd0.
      lra. }
    destruct (double_below (inject_Z c - d) 40 Hdiff_low Hdiff_high
                ltac:(lia))
      as (r & -> & [Hr_low Hr_high] & Hr_ge & Hr_le).
    cbn [Js.Math_ceil]. unfold Js.of_Z, Js.ceil. do 2 f_equal.
    set (m := Qceiling (inject_Z c - x)).
    pose proof (Qle_ceiling (inject_Z c - x)) as Hm_high.
    pose proof (Qceiling_lt (inject_Z c - x)) as Hm_low.
    fold m in Hm_high, Hm_low.
    unfold Z.sub in Hm_low. rewrite inject_Z_plus in Hm_low.
    change (inject_Z (- (1))) with (- (1))%Q in Hm_low.
    apply Qceiling_between.
    + assert (Hbelow : (x < inject_Z (c - m + 1))%Q).
      { rewrite inject_Z_plus. unfold Z.sub.
        rewrite inject_Z_plus, inject_Z_opp. change (inject_Z 1) with 1%Q.
        lra. }
      pose proof (thousandth_below _ _ Hbelow) as Hgap.
      fold (elapsed_sec now created_at) in Hgap. fold x in Hgap.
      rewrite inject_Z_plus in Hgap. unfold Z.sub in Hgap.
      rewrite inject_Z_plus, inject_Z_opp in Hgap.
      change (inject_Z 1) with 1%Q in Hgap. lra.
    + destruct (Qlt_le_dec (inject_Z (c - m)) x) as [Habove | Hat].
      * pose proof (thousandth_above _ _ Habove) as Hgap.
        fold (elapsed_sec now created_at) in Hgap. fold x in Hgap.
        unfold Z.sub in Hgap. rewrite inject_Z_plus, inject_Z_opp in Hgap.
        lra.
      * assert (Hx_at : (inject_Z (c - m) <= x)%Q).
        { unfold Z.sub. rewrite inject_Z_plus, inject_Z_opp. lra. }
        pose proof (Hd_ge (c - m) Hx_at) as Hd_at.
        assert (Hr_at : (inject_Z c - d <= inject_Z m)%Q).
        { unfold Z.sub in Hd_at. rewrite inject_Z_plus, inject_Z_opp in Hd_at.
          lra. }
        exact (Hr_le m Hr_at).
Qed.

(** ** Running programs *)

Lemma run_bind (e : env) {R S : Type} (p : prog R) (f : R -> prog S) :
  forall w,
    run e (bind p f) w = run e (f (fst (run e p w))) (snd (run e p w)).
Proof.
  induction p as [r | A o k IH]; intros w; cbn [bind run fst snd].
  - reflexivity.
  - apply IH.
Qed.

Lemma try_run_bind `{External} (e : env) {R S : Type} (p : prog R)
    (f : R -> prog S) :
  forall w,
    try_run e (bind p f) w
    = match fst (try_run e p w) with
      | Some r => try_run e (f r) (snd (try_run e p w))
      | None => (None, snd (try_run e p w))
      end.
Proof.
  induction p as [r | A o k IH]; intros w; cbn [bind try_run fst snd].
  - reflexivity.
  - destruct (throws e o); [reflexivity | apply IH].
Qed.


Lemma step_world_db (e : env) {A : Type} (o : op A) (w : world) :
  w_db (snd (step_world e o w)) = snd (exec e o (w_db w)).
Proof. reflexivity. Qed.

(** A property of the database that every single operation keeps is kept
    by every program, run alone or interleaved with others. *)
Section Invariants.

Variable e : env.
Variable I : Db.t -> Prop.
Hypothesis exec_keeps : forall (A : Type) (o : op A) (d : Db.t),
  I d -> I (snd (exec e o d)).

Lemma step_world_keeps {A : Type} (o : op A) (w : world) :
  I (w_db w) -> I (w_db (snd (step_world e o w))).
Proof. intros Hw. rewrite step_world_db. apply exec_keeps, Hw. Qed.

Lemma run_keeps {R : Type} (p : prog R) :
  forall w, I (w_db w) -> I (w_db (snd (run e p w))).
Proof.
  induction p as [r | A o k IH]; intros w Hw; cbn [run].
  - exact Hw.
  - apply IH, step_world_keeps, Hw.
Qed.

Lemma resume_keeps {R : Type} (tasks : list (prog R)) :
  forall i w, I (w_db w) -> I (w_db (snd (resume e i tasks w))).
Proof.
  induction tasks as [| p rest IH]; intros i w Hw.
  - destruct i; exact Hw.
  - destruct i as [| j].
    + destruct p as [r | A o k]; cbn [resume snd].
      * exact Hw.
      * apply step_world_keeps, Hw.
    + destruct p as [r | A o k]; cbn [resume snd]; apply IH, Hw.
Qed.

Lemma run_schedule_keeps {R : Type} (schedule : list nat) :
  forall (tasks : list (prog R)) w,
    I (w_db w) -> I (w_db (snd (run_schedule e schedule tasks w))).
Proof.
  induction schedule as [| i later IH]; intros tasks w Hw; cbn [run_schedule].
  - exact Hw.
  - apply IH, resume_keeps, Hw.
Qed.

End Invariants.

(** ** Device identity *)







(** ** Idea submissions *)

Lemma div_is_double (a b : Js.number) : is_double (Js.div a b).
Proof.
  destruct a as [| sa | x], b as [| sb | y]; cbn [Js.div is_double];
    try exact I.
  - destruct (y ?= 0)%Q; exact I.
  - exists 0. ring.
  - destruct (y ?= 0)%Q; [destruct (x ?= 0)%Q; exact I | |];
      apply double_is_double.
Qed.

(** C4, as amended: once a submission is well-formed, a device whose
    most recent idea is less than the cooldown old, the age and the
    cooldown being the numbers the server holds for them, gets 429 with
    [retry_after_sec] the ceiling of their difference as the server
    computes it, which is a whole number of seconds, one at least (or
    [Infinity], for a cooldown beyond the numbers), and nothing is
    written; a device with no idea, or whose most recent idea is at least
    the cooldown old, gets its idea inserted.  When the cooldown is a
    whole number of seconds below [2^40], as the default of 60 is, and the
    idea is not older than that many seconds, the server tells an idea
    inside the window from one outside it as the exact seconds do, and
    [retry_after_sec] is the ceiling of the cooldown minus the elapsed
    seconds. *)
Theorem cooldown_gate `{External} (cfg : config) :
  forall (e : env) (w : world) (deviceHash : string) (b : ideas_body)
         (now stamp : Z),
    Validator.failed (ideas_checks b) = [] ->
    Js.trim (Js.or_empty (ib_hp b)) = "" ->
    let out := run e (post_ideas cfg deviceHash b now stamp) w in
    let accepted :=
      fst out = reply 200 Ok
      /\ w_db (snd out)
         = Db.insert_idea (cleanText (Js.or_empty (ib_text b)) 500)
             (Js.bound_text (ib_category b)) (Js.bound_text (ib_urgency b))
             deviceHash stamp (w_db w) in
    match Db.select_last_idea deviceHash (w_db w) with
    | Some created_at =>
        let remaining :=
          Js.Math_ceil (Js.sub (cooldown_sec cfg) (elapsed now created_at)) in
        (if Js.lt (elapsed now created_at) (cooldown_sec cfg)
         then
           fst out = reply 429 (TooManyRequests remaining)
           /\ whole_seconds remaining
           /\ w_db (snd out) = w_db w
         else accepted)
        /\ forall c : Z,
             IDEA_COOLDOWN_SEC cfg = inject_Z c ->
             0 <= c < 2 ^ 40 ->
             0 <= now - created_at < 1000 * 2 ^ 40 ->
             Js.lt (elapsed now created_at) (cooldown_sec cfg)
             = Js.Qlt_bool (elapsed_sec now created_at) (IDEA_COOLDOWN_SEC cfg)
             /\ ((elapsed_sec now created_at < IDEA_COOLDOWN_SEC cfg)%Q ->
                 remaining
                 = Js.of_Z
                     (Js.ceil
                        (IDEA_COOLDOWN_SEC cfg
                         - elapsed_sec now created_at)))
    | None => accepted
    end.
Proof.
  intros e w deviceHash b now stamp Hvalid Hhp out accepted.
  subst out accepted. unfold post_ideas. rewrite Hvalid, Hhp.
  cbn [Js.nonempty String.eqb negb]. run_steps.
  destruct (Db.select_last_idea deviceHash (w_db w)) as [created_at |];
    [| cbn; split; reflexivity].
  fold (elapsed now created_at). cbv zeta. split.
  - destruct (Js.lt (elapsed now created_at) (cooldown_sec cfg)) eqn:Hlt.
    + assert (Hpos : positive
                       (Js.sub (cooldown_sec cfg) (elapsed now created_at))).
      { apply sub_positive;
          [apply double_is_double | apply div_is_double | exact Hlt]. }
      rewrite (lt_zero_positive _
                 (whole_seconds_positive _ (ceil_positive _ Hpos))).
      cbn. repeat split. apply ceil_positive, Hpos.
    + rewrite (sub_not_positive _ _ Hlt). cbn. split; reflexivity.
  - intros c Hwhole Hc Hage. unfold cooldown_sec. rewrite Hwhole.
    apply whole_cooldown; assumption.
Qed.

Lemma cooldown_gate_witness :
  let out :=
    run Sample.world_ok
      (post_ideas Sample.cfg "dev" Sample.idea_body 41000 41000)
      Sample.after_idea in
  (fst out = reply 429 (TooManyRequests (Js.of_Z 20))
   /\ whole_seconds (Js.of_Z 20)
   /\ w_db (snd out) = w_db Sample.after_idea)
  /\ Js.Math_ceil
       (Js.sub (cooldown_sec Sample.cfg) (elapsed 41000 1000))
     = Js.of_Z (Js.ceil (inject_Z 60 - elapsed_sec 41000 1000)).
Proof.
  pose proof (cooldown_gate Sample.cfg Sample.world_ok Sample.after_idea "dev"
                Sample.idea_body 41000 41000 eq_refl eq_refl) as Hgate.
  assert (Hlast : Db.select_last_idea "dev" (w_db Sample.after_idea)
                  = Some 1000) by (vm_compute; reflexivity).
  rewrite Hlast in Hgate. cbv zeta in Hgate.
  destruct Hgate as [Hanswer Hexact].
  split.
  - vm_compute in Hanswer. vm_compute. exact Hanswer.
  - apply (Hexact 60 eq_refl); [vm_compute | vm_compute | vm_compute];
      try (split; [discriminate | reflexivity]); reflexivity.
Defined.

(** C4, the claim as stated fails: the ceiling the server sends is that
    of a difference of rounded numbers.  With a cooldown of 2.003 seconds
    and an idea 1.003 seconds old, the ceiling of the cooldown minus the
    elapsed seconds is 1, and the server answers 2. *)
Lemma retry_after_not_the_exact_ceiling :
  let out :=
    run Sample.world_ok
      (post_ideas Sample.cfg_short_cooldown "dev" Sample.idea_body 2003 2003)
      Sample.after_idea in
  Db.select_last_idea "dev" (w_db Sample.after_idea) = Some 1000
  /\ (elapsed_sec 2003 1000 == 1003 # 1000)%Q
  /\ (IDEA_COOLDOWN_SEC Sample.cfg_short_cooldown == 2003 # 1000)%Q
  /\ Js.ceil (IDEA_COOLDOWN_SEC Sample.cfg_short_cooldown
              - elapsed_sec 2003 1000)
     = 1
  /\ fst out = reply 429 (TooManyRequests (Js.of_Z 2)).
Proof. vm_compute. repeat split. Qed.

(** At the very end of the window the ceiling is zero and the idea is
    taken; a millisecond earlier one second is still asked for. *)
Example cooldown_boundary :
  fst (run Sample.world_ok
         (post_ideas Sample.cfg "dev" Sample.idea_body 61000 61000)
         Sample.after_idea)
  = reply 200 Ok
  /\ fst (run Sample.world_ok
            (post_ideas Sample.cfg "dev" Sample.idea_body 60999 60999)
            Sample.after_idea)
     = reply 429 (TooManyRequests (Js.of_Z 1)).
Proof. vm_compute. split; reflexivity. Qed.

(** C10: a submission whose honeypot field holds a string that is not
    empty once trimmed is answered 400 whatever its other fields, without
    any operation: nothing is read, no idea is written, and the world,
    with the cooldown state in it, is left as it was. *)
Theorem honeypot_rejected `{External} (cfg : config) :
  forall (e : env) (w : world) (deviceHash : string) (b : ideas_body)
         (now stamp : Z) (s : string),
    ib_hp b = Js.Str s ->
    Js.trim s <> "" ->
    status (fst (run e (post_ideas cfg deviceHash b now stamp) w)) = 400
    /\ snd (run e (post_ideas cfg deviceHash b now stamp) w) = w.
Proof.
  intros e w deviceHash b now stamp s Hhp Hfilled.
  unfold post_ideas.
  destruct (Validator.failed (ideas_checks b)) as [| path paths].
  - rewrite Hhp. cbn [Js.or_empty]. unfold Js.nonempty.
    destruct (String.eqb_spec (Js.trim s) "") as [Hempty | _];
      [contradiction |].
    cbn. split; reflexivity.
  - cbn. split; reflexivity.
Qed.

Lemma honeypot_rejected_witness :
  let b := {| ib_text := Js.Str "Plus de bancs dans la cour";
              ib_category := Js.Str "vie-scolaire";
              ib_urgency := Js.Str "basse"; ib_hp := Js.Str " bot " |} in
  status (fst (run Sample.world_ok (post_ideas Sample.cfg "dev" b 1000 1000)
                 (Sample.start Db.empty))) = 400
  /\ snd (run Sample.world_ok (post_ideas Sample.cfg "dev" b 1000 1000)
            (Sample.start Db.empty))
     = Sample.start Db.empty.
Proof.
  apply (honeypot_rejected Sample.cfg Sample.world_ok (Sample.start Db.empty)
           "dev"
           {| ib_text := Js.Str "Plus de bancs dans la cour";
              ib_category := Js.Str "vie-scolaire";
              ib_urgency := Js.Str "basse"; ib_hp := Js.Str " bot " |}
           1000 1000 " bot ").
  - reflexivity.
  - vm_compute. discriminate.
Defined.

(** ** Votes *)

Lemma q_is_integer_iff (q : Q) :
  Js.q_is_integer q = true <-> exists z : Z, (q == inject_Z z)%Q.
Proof.
  unfold Js.q_is_integer. rewrite Qeq_bool_iff. split.
  - intros Heq. exists (Qfloor q). symmetry. exact Heq.
  - intros [z Hz]. rewrite (Qfloor_comp _ _ Hz), Qfloor_Z. symmetry. exact Hz.
Qed.

(** The handler's test refuses every bad option index. *)
Lemma bad_option_index_refused (count : nat) (n : Js.number) :
  bad_option_index count n ->
  negb (Js.isInteger n) || Js.lt n (Js.of_Z 0)
  || Js.ge n (Js.of_Z (Z.of_nat count)) = true.
Proof.
  intros [| negative | q Hfrac | q Hneg | q Hlarge]; cbn [Js.isInteger negb orb];
    try reflexivity.
  - destruct (Js.q_is_integer q) eqn:Hint; [| reflexivity].
    apply q_is_integer_iff in Hint. destruct Hint as [z Hz].
    exfalso. exact (Hfrac z Hz).
  - assert (Hlt : Js.lt (Js.Fin q) (Js.of_Z 0) = true).
    { cbn [Js.lt Js.of_Z]. apply Qlt_bool_iff. exact Hneg. }
    rewrite Hlt. apply orb_true_iff. left. apply orb_true_r.
  - assert (Hge : Js.ge (Js.Fin q) (Js.of_Z (Z.of_nat count)) = true).
    { cbn [Js.ge Js.lt Js.of_Z]. apply negb_true_iff.
      destruct (Js.Qlt_bool q (inject_Z (Z.of_nat count))) eqn:Hb;
        [| reflexivity].
      apply Qlt_bool_iff in Hb. exfalso. exact (Qlt_not_le _ _ Hb Hlarge). }
    rewrite Hge. apply orb_true_r.
Qed.

(** C6: on a poll that exists and is active, a vote whose option index is
    not a number, not an integer, negative, or not below the number of
    options is answered 400, and the database is left as it was. *)
Theorem vote_bad_option_rejected `{External} :
  forall (e : env) (w : world) (deviceHash : string) (r : vote_request)
         (stamp : Z) (p : Db.poll),
    Db.select_poll (StringToNumber (vr_id r)) (w_db w) = Some p ->
    Db.poll_active p <> 0 ->
    bad_option_index (List.length (Db.poll_options_json p))
      (ToNumber (vr_optionIndex r)) ->
    status (fst (run e (post_vote deviceHash r stamp) w)) = 400
    /\ w_db (snd (run e (post_vote deviceHash r stamp) w)) = w_db w.
Proof.
  intros e w deviceHash r stamp p Hfound Hactive Hbad.
  unfold post_vote.
  destruct (Validator.failed (vote_checks r)) as [| path paths];
    [| cbn; split; reflexivity].
  run_steps. rewrite Hfound.
  destruct (Z.eqb_spec (Db.poll_active p) 0) as [Hzero | _];
    [contradiction |].
  rewrite (bad_option_index_refused _ _ Hbad).
  cbn. split; reflexivity.
Qed.

Lemma vote_bad_option_rejected_witness :
  status (fst (run Sample.world_ok (post_vote "new" (Sample.vote_for "1" 2) 2500)
                 Sample.after_first_vote)) = 400
  /\ w_db (snd (run Sample.world_ok
                  (post_vote "new" (Sample.vote_for "1" 2) 2500)
                  Sample.after_first_vote))
     = w_db Sample.after_first_vote.
Proof.
  apply (vote_bad_option_rejected Sample.world_ok Sample.after_first_vote
           "new" (Sample.vote_for "1" 2) 2500 Sample.first_poll).
  - reflexivity.
  - vm_compute. discriminate.
  - apply bad_too_large. vm_compute. discriminate.
Defined.

Lemma existsb_false_filter {A : Type} (f : A -> bool) (l : list A) :
  existsb f l = false -> filter f l = [].
Proof.
  induction l as [| x l IH]; cbn [existsb filter]; intros Hex.
  - reflexivity.
  - apply orb_false_iff in Hex. destruct Hex as [Hx Hl].
    rewrite Hx. apply IH, Hl.
Qed.

Lemma filter_inhabited_existsb {A : Type} (f : A -> bool) (l : list A) :
  (1 <= List.length (filter f l))%nat -> existsb f l = true.
Proof.
  intros Hlen. destruct (existsb f l) eqn:Hex; [reflexivity |].
  rewrite (existsb_false_filter f l Hex) in Hlen. cbn in Hlen. lia.
Qed.

Lemma select_poll_id (n : Js.number) (d : Db.t) (p : Db.poll) :
  Db.select_poll n d = Some p ->
  Db.as_integer n = Some (Db.poll_id p)
  /\ existsb (fun q => Db.poll_id q =? Db.poll_id p) (Db.polls d) = true.
Proof.
  unfold Db.select_poll.
  destruct (Db.as_integer n) as [z |]; [| discriminate].
  intros Hfind. pose proof (find_some _ _ Hfind) as [Hin Heq].
  apply Z.eqb_eq in Heq. subst z. split; [reflexivity |].
  apply existsb_exists. exists p. split; [exact Hin | apply Z.eqb_refl].
Qed.

(** The insert of a vote, once the bound poll id is known to be an
    integer. *)
Lemma insert_vote_integer (n : Js.number) (z idx : Z) (voter : string)
    (t : Z) (d : Db.t) :
  Db.as_integer n = Some z ->
  Db.insert_vote n idx voter t d
  = if existsb (Db.same_voter z voter) (Db.poll_votes d)
    then inl Db.SQLITE_CONSTRAINT_UNIQUE
    else if negb (existsb (fun p => Db.poll_id p =? z) (Db.polls d))
    then inl Db.SQLITE_CONSTRAINT_FOREIGNKEY
    else
      inr {| Db.ideas := Db.ideas d; Db.news := Db.news d;
             Db.polls := Db.polls d;
             Db.poll_votes := Db.poll_votes d ++
               [{| Db.vote_id := Db.seq_poll_votes d + 1;
                   Db.vote_poll_id := z; Db.vote_option_index := idx;
                   Db.vote_voter_hash := voter; Db.vote_created_at := t |}];
             Db.push_subscriptions := Db.push_subscriptions d;
             Db.seq_ideas := Db.seq_ideas d; Db.seq_news := Db.seq_news d;
             Db.seq_poll := Db.seq_poll d;
             Db.seq_poll_votes := Db.seq_poll_votes d + 1 |}.
Proof.
  intros Hint. unfold Db.insert_vote. rewrite Hint.
  destruct n; [discriminate Hint | discriminate Hint | reflexivity].
Qed.

(** The unique constraint at work: an accepted insert keeps every pair
    at one row at most. *)
Lemma insert_vote_keeps (n : Js.number) (idx : Z) (voter : string) (t : Z)
    (d d' : Db.t) :
  at_most_one_vote d ->
  Db.insert_vote n idx voter t d = inr d' ->
  at_most_one_vote d'.
Proof.
  intros Hinv Hins.
  destruct (Db.as_integer n) as [z |] eqn:Hint.
  - rewrite (insert_vote_integer n z idx voter t d Hint) in Hins.
    destruct (existsb (Db.same_voter z voter) (Db.poll_votes d)) eqn:Hex;
      [discriminate |].
    destruct (negb (existsb (fun p => Db.poll_id p =? z) (Db.polls d)));
      [discriminate |].
    injection Hins as <-. intros poll who. unfold votes_of.
    cbn [Db.poll_votes]. rewrite filter_app, length_app.
    cbn [filter]. unfold Db.same_voter at 2.
    cbn [Db.vote_poll_id Db.vote_voter_hash].
    destruct (Z.eqb_spec z poll) as [-> | Hne]; cbn [andb].
    + destruct (String.eqb_spec voter who) as [-> | Hne].
      * rewrite (existsb_false_filter _ _ Hex). cbn. lia.
      * specialize (Hinv poll who). unfold votes_of in Hinv. cbn. lia.
    + specialize (Hinv poll who). unfold votes_of in Hinv. cbn. lia.
  - unfold Db.insert_vote in Hins. rewrite Hint in Hins.
    destruct n; discriminate Hins.
Qed.

Lemma exec_keeps_at_most_one_vote (e : env) :
  forall (A : Type) (o : op A) (d : Db.t),
    at_most_one_vote d -> at_most_one_vote (snd (exec e o d)).
Proof.
  intros A o d Hinv.
  destruct o; cbn [exec snd]; try exact Hinv.
  - case_store_fails; [exact Hinv |].
    destruct (Db.insert_vote poll option_index voter created_at d)
      as [err | d'] eqn:Hins; cbn [snd]; [exact Hinv |].
    exact (insert_vote_keeps _ _ _ _ _ _ Hinv Hins).
  - case_store_fails; exact Hinv.
  - unfold Db.upsert_subscription.
    destruct (existsb _ (Db.push_subscriptions d)); exact Hinv.
Qed.

(** The handler's test lets every index of an option through. *)
Lemma option_index_accepted (count : nat) (z : Z) :
  0 <= z < Z.of_nat count ->
  negb (Js.isInteger (Js.of_Z z)) || Js.lt (Js.of_Z z) (Js.of_Z 0)
  || Js.ge (Js.of_Z z) (Js.of_Z (Z.of_nat count)) = false.
Proof.
  intros [Hlo Hhi]. unfold Js.of_Z. cbn [Js.isInteger Js.lt Js.ge].
  assert (Hint : Js.q_is_integer (inject_Z z) = true).
  { apply q_is_integer_iff. exists z. reflexivity. }
  assert (Hneg : Js.Qlt_bool (inject_Z z) (inject_Z 0) = false).
  { destruct (Js.Qlt_bool (inject_Z z) (inject_Z 0)) eqn:Hb; [| reflexivity].
    apply Qlt_bool_iff in Hb. rewrite <- Zlt_Qlt in Hb. lia. }
  assert (Hbelow : Js.Qlt_bool (inject_Z z) (inject_Z (Z.of_nat count)) = true).
  { apply Qlt_bool_iff. rewrite <- Zlt_Qlt. exact Hhi. }
  rewrite Hint, Hneg, Hbelow. reflexivity.
Qed.

Lemma integer_of_Z (z : Z) : integer_of (Js.of_Z z) = z.
Proof. unfold integer_of, Js.of_Z. apply Qfloor_Z. Qed.

(** C2, as amended: from a database with at most one vote row for every
    (poll, device) pair, every interleaving of any requests leaves at most
    one row for every pair; and a well-formed vote of a device that
    already has a row on a poll that is still active is answered 409 and
    writes nothing. *)
Theorem second_vote_conflict `{External} :
  forall (e : env) (w : world) (deviceHash : string) (r : vote_request)
         (stamp : Z) (p : Db.poll) (z : Z),
    at_most_one_vote (w_db w) ->
    Validator.failed (vote_checks r) = [] ->
    Db.select_poll (StringToNumber (vr_id r)) (w_db w) = Some p ->
    Db.poll_active p <> 0 ->
    ToNumber (vr_optionIndex r) = Js.of_Z z ->
    0 <= z < Z.of_nat (List.length (Db.poll_options_json p)) ->
    (1 <= votes_of (Db.poll_id p) deviceHash (w_db w))%nat ->
    fst (run e (post_vote deviceHash r stamp) w)
    = reply 409 (Error "Vote deja enregistre")
    /\ w_db (snd (run e (post_vote deviceHash r stamp) w)) = w_db w
    /\ (forall (R : Type) (tasks : list (prog R)) (schedule : list nat),
          at_most_one_vote (w_db (snd (run_schedule e schedule tasks w)))).
Proof.
  intros e w deviceHash r stamp p z Hinv Hvalid Hfound Hactive Hidx Hrange
    Hvoted.
  assert (Hrun :
    fst (run e (post_vote deviceHash r stamp) w)
    = reply 409 (Error "Vote deja enregistre")
    /\ w_db (snd (run e (post_vote deviceHash r stamp) w)) = w_db w).
  { unfold post_vote. rewrite Hvalid.
    run_steps. rewrite Hfound.
    destruct (Z.eqb_spec (Db.poll_active p) 0) as [Hzero | _];
      [contradiction |].
    rewrite Hidx, (option_index_accepted _ _ Hrange), integer_of_Z.
    run_steps.
    destruct (select_poll_id _ _ _ Hfound) as [Hint _].
    case_store_fails; [cbn; split; reflexivity |].
    rewrite (insert_vote_integer _ _ _ _ _ _ Hint).
    unfold votes_of in Hvoted.
    rewrite (filter_inhabited_existsb _ _ Hvoted).
    cbn. split; reflexivity. }
  destruct Hrun as [Hresponse Hdb]. repeat split; try assumption.
  intros R tasks schedule.
  apply run_schedule_keeps; [apply exec_keeps_at_most_one_vote | exact Hinv].
Qed.

Lemma second_vote_conflict_witness :
  fst (run Sample.world_ok (post_vote "dev" (Sample.vote_for "1" 1) 2500)
         Sample.after_first_vote)
  = reply 409 (Error "Vote deja enregistre")
  /\ w_db (snd (run Sample.world_ok
                  (post_vote "dev" (Sample.vote_for "1" 1) 2500)
                  Sample.after_first_vote))
     = w_db Sample.after_first_vote
  /\ (forall (R : Type) (tasks : list (prog R)) (schedule : list nat),
        at_most_one_vote
          (w_db (snd (run_schedule Sample.world_ok schedule tasks
                        Sample.after_first_vote)))).
Proof.
  apply (second_vote_conflict Sample.world_ok Sample.after_first_vote "dev"
           (Sample.vote_for "1" 1) 2500 Sample.first_poll 1).
  - intros poll voter. unfold votes_of.
    change (Db.poll_votes (w_db Sample.after_first_vote))
      with [{| Db.vote_id := 1; Db.vote_poll_id := 1;
               Db.vote_option_index := 0; Db.vote_voter_hash := "dev";
               Db.vote_created_at := 2000 |}].
    cbn [filter]. destruct (Db.same_voter poll voter _); cbn; lia.
  - reflexivity.
  - reflexivity.
  - cbn. lia.
  - reflexivity.
  - cbn. lia.
  - vm_compute. lia.
Defined.

(** C2, the claim as stated fails twice.  A second vote of the same device
    on the same poll is answered 404, not 409, once the poll has been
    retired by a newer one; and the first vote of a device is answered
    409, though no row of its own exists, when the insert fails for a
    reason of the store: 409 does not single out the duplicate. *)
Lemma second_vote_not_always_distinct_409 :
  (votes_of 1 "dev" (w_db Sample.after_second_poll) = 1%nat
   /\ fst (run Sample.world_ok (post_vote "dev" (Sample.vote_for "1" 0) 4000)
             Sample.after_second_poll)
      = reply 404 (Error "Sondage introuvable"))
  /\ (votes_of 2 "new" (w_db Sample.after_second_poll) = 0%nat
      /\ fst (run Sample.world_failing_store
                (post_vote "new" (Sample.vote_for "2" 0) 4000)
                Sample.after_second_poll)
         = reply 409 (Error "Vote deja enregistre")).
Proof. vm_compute. repeat split. Qed.

(** ** Login *)

(** C7, as amended: a password that does not match the stored hash never
    gets the session cookie, and the world is left as it was; the answer
    is 400 when the password is not 6 to 128 characters long, else 500
    when no hash is configured, else 401. *)
Theorem login_mismatch_no_cookie `{External} (cfg : config) :
  forall (e : env) (w : world) (password : string) (now : Z),
    bcrypt_compare password (ADMIN_PASSWORD_HASH cfg) = false ->
    let out := run e (post_login cfg {| lb_password := Js.Str password |} now) w in
    set_cookie (fst out) = None
    /\ status (fst out)
       = (if negb (Validator.isLength 6 128 password) then 400
          else if negb (Js.nonempty (ADMIN_PASSWORD_HASH cfg)) then 500
          else 401)
    /\ snd out = w.
Proof.
  intros e w password now Hmismatch out. subst out.
  unfold post_login, login_checks, Validator.failed.
  cbn [filter map fst snd lb_password Validator.string_between Js.or_empty].
  destruct (Validator.isLength 6 128 password); cbn [negb filter map fst snd].
  - destruct (Js.nonempty (ADMIN_PASSWORD_HASH cfg)); cbn [negb].
    + rewrite Hmismatch. cbn. repeat split.
    + cbn. repeat split.
  - cbn. repeat split.
Qed.

Lemma login_mismatch_no_cookie_witness :
  let out :=
    run Sample.world_ok
      (post_login Sample.cfg {| lb_password := Js.Str "wrong-password" |} 0)
      (Sample.start Db.empty) in
  set_cookie (fst out) = None
  /\ status (fst out) = 401
  /\ snd out = Sample.start Db.empty.
Proof.
  apply (login_mismatch_no_cookie Sample.cfg Sample.world_ok
           (Sample.start Db.empty) "wrong-password" 0).
  reflexivity.
Defined.

(** C7, the claim as stated fails: against the hash of [right], the
    password [wrong] does not match, and the answer is 400, not 401: it
    is shorter than the six characters the route requires. *)
Lemma login_wrong_is_400 :
  bcrypt_compare "right" (ADMIN_PASSWORD_HASH Sample.cfg) = true
  /\ bcrypt_compare "wrong" (ADMIN_PASSWORD_HASH Sample.cfg) = false
  /\ fst (run Sample.world_ok
            (post_login Sample.cfg {| lb_password := Js.Str "wrong" |} 0)
            (Sample.start Db.empty))
     = reply 400 (ValidationError ["password"]).
Proof. vm_compute. repeat split. Qed.

(** The cookie is set exactly when the body is valid, a hash is
    configured and the comparison succeeds. *)
Lemma login_cookie_exactly `{External} (cfg : config) :
  forall (e : env) (w : world) (b : login_body) (now : Z),
    set_cookie (fst (run e (post_login cfg b now) w))
    = if Validator.string_between 6 128 (lb_password b)
         && Js.nonempty (ADMIN_PASSWORD_HASH cfg)
         && bcrypt_compare (Js.or_empty (lb_password b))
              (ADMIN_PASSWORD_HASH cfg)
      then Some (setAuthCookie cfg (signAdminToken cfg now))
      else None.
Proof.
  intros e w b now.
  unfold post_login, login_checks, Validator.failed.
  cbn [filter map fst snd].
  destruct (Validator.string_between 6 128 (lb_password b));
    cbn [negb filter map fst snd andb]; [| reflexivity].
  destruct (Js.nonempty (ADMIN_PASSWORD_HASH cfg)); cbn [negb andb];
    [| reflexivity].
  destruct (bcrypt_compare _ _); reflexivity.
Qed.

(** ** Push notifications *)

Lemma requireAdmin_refusal `{External} (cfg : config) (token : option string)
    (now : Z) (refused : response) :
  requireAdmin cfg token now = Some refused ->
  status refused = 401 \/ status refused = 403.
Proof.
  unfold requireAdmin. destruct token as [tok |].
  - destruct (negb (Js.nonempty tok)).
    + intros [= <-]. left. reflexivity.
    + destruct (jwt_verify tok (JWT_SECRET cfg) now) as [pl |].
      * destruct (claim_admin pl); [discriminate |].
        intros [= <-]. right. reflexivity.
      * intros [= <-]. left. reflexivity.
  - intros [= <-]. left. reflexivity.
Qed.

(** C5: without VAPID keys, or without the [web-push] module, the
    dispatch returns its disabled result; it sends nothing and neither
    reads nor writes the subscriptions (all it may do is try the import);
    and the send route leaves the database as it was and answers what
    [requireAdmin] refuses with, else 400 to an invalid body, else 501:
    never 200. *)
Theorem push_disabled_501 `{External} (cfg : config) :
  forall (e : env) (w : world) (token : option string) (b : send_body)
         (now ts : Z) (p : payload),
    canUsePushConfig cfg = false \/ webpush_installed e = false ->
    let sent := run e (sendPushToAll cfg p) w in
    let out := run e (post_push_send cfg token b now ts) w in
    pr_disabled (fst sent) = true
    /\ w_db (snd sent) = w_db w
    /\ w_log (snd sent)
       = (w_log w
          ++ (if canUsePushConfig cfg then [Ev ImportWebPush] else []))%list
    /\ w_db (snd out) = w_db w
    /\ status (fst out)
       = match requireAdmin cfg token now with
         | Some refused => status refused
         | None =>
             match Validator.failed (send_checks b) with
             | [] => 501
             | _ :: _ => 400
             end
         end
    /\ status (fst out) <> 200.
Proof.
  intros e w token b now ts p Hoff sent out.
  assert (Hsend : forall q : payload,
    pr_disabled (fst (run e (sendPushToAll cfg q) w)) = true
    /\ w_db (snd (run e (sendPushToAll cfg q) w)) = w_db w
    /\ w_log (snd (run e (sendPushToAll cfg q) w))
       = (w_log w
          ++ (if canUsePushConfig cfg then [Ev ImportWebPush] else []))%list).
  { intros q. unfold sendPushToAll, initWebPushIfConfigured.
    destruct (canUsePushConfig cfg) eqn:Hcan; cbn [negb].
    - destruct Hoff as [Hoff | Hoff]; [discriminate |].
      run_steps. rewrite Hoff. cbn. repeat split.
    - cbn. rewrite app_nil_r. repeat split. }
  subst sent out.
  destruct (Hsend p) as (Hdisabled & Hdb & Hlog).
  repeat (split; [assumption |]).
  unfold post_push_send.
  destruct (requireAdmin cfg token now) as [refused |] eqn:Hadmin.
  - cbn [run fst snd]. repeat split.
    destruct (requireAdmin_refusal cfg token now refused Hadmin) as [-> | ->];
      discriminate.
  - destruct (Validator.failed (send_checks b)) as [| path paths].
    + rewrite run_bind.
      match goal with
      | |- context [run e (sendPushToAll cfg ?q) w] =>
          destruct (Hsend q) as (Hd & Hq & _)
      end.
      rewrite Hd. cbn [run fst snd]. rewrite Hq.
      repeat split. discriminate.
    + cbn [run fst snd]. repeat split. discriminate.
Qed.

Lemma push_disabled_501_witness :
  let p := {| pl_title := "Info"; pl_body := "Reunion"; pl_url := "/";
              pl_tag := "cvl"; pl_ts := 0 |} in
  let sent := run Sample.world_ok (sendPushToAll Sample.cfg_no_push p)
                Sample.after_first_vote in
  let out :=
    run Sample.world_ok
      (post_push_send Sample.cfg_no_push Sample.admin_token
         {| sd_title := Js.Str "Info"; sd_body := Js.Str "Reunion";
            sd_url := Js.Undefined; sd_tag := Js.Null |} 0 0)
      Sample.after_first_vote in
  pr_disabled (fst sent) = true
  /\ w_db (snd sent) = w_db Sample.after_first_vote
  /\ w_log (snd sent) = (w_log Sample.after_first_vote ++ [])%list
  /\ w_db (snd out) = w_db Sample.after_first_vote
  /\ status (fst out) = 501
  /\ status (fst out) <> 200.
Proof.
  exact (push_disabled_501 Sample.cfg_no_push Sample.world_ok
           Sample.after_first_vote Sample.admin_token
           {| sd_title := Js.Str "Info"; sd_body := Js.Str "Reunion";
              sd_url := Js.Undefined; sd_tag := Js.Null |} 0 0
           {| pl_title := "Info"; pl_body := "Reunion"; pl_url := "/";
              pl_tag := "cvl"; pl_ts := 0 |}
           (or_introl eq_refl)).
Defined.

Lemma attempts_app (l1 l2 : list event) :
  attempts (l1 ++ l2) = (attempts l1 ++ attempts l2)%list.
Proof.
  induction l1 as [| [A o] l1 IH]; cbn [attempts app].
  - reflexivity.
  - destruct o; cbn [app]; rewrite IH; reflexivity.
Qed.

#[local] Hint Rewrite attempts_app @app_nil_r : push_log.
#[local] Hint Rewrite <- @app_assoc : push_log.

Lemma filter_filter {A : Type} (f g : A -> bool) (l : list A) :
  filter f (filter g l) = filter (fun x => g x && f x) l.
Proof.
  induction l as [| x l IH]; cbn [filter]; [reflexivity |].
  destruct (g x); cbn [filter andb]; [destruct (f x) |]; rewrite IH;
    reflexivity.
Qed.

Lemma set_push_same (d : Db.t) : Db.set_push (Db.push_subscriptions d) d = d.
Proof. destruct d. reflexivity. Qed.

Lemma NoDup_map_injective {A B : Type} (f : A -> B) (l : list A) :
  NoDup (map f l) ->
  forall a b : A, In a l -> In b l -> f a = f b -> a = b.
Proof.
  induction l as [| x l IH]; cbn [map]; intros Hnd a b Ha Hb Hf.
  - destruct Ha.
  - inversion Hnd as [| y ys Hnotin Hrest]; subst.
    destruct Ha as [<- | Ha], Hb as [<- | Hb].
    + reflexivity.
    + exfalso. apply Hnotin. rewrite Hf. apply in_map, Hb.
    + exfalso. apply Hnotin. rewrite <- Hf. apply in_map, Ha.
    + exact (IH Hrest a b Ha Hb Hf).
Qed.

Section Fanout.

Context `{External} (e : env) (p : payload).

Lemma prune_all_cons (s : Db.push_row) (rest : list Db.push_row) (d : Db.t) :
  prune_all e p (s :: rest) d
  = prune_all e p rest
      (if pruned e p s then Db.delete_subscription (Db.push_endpoint s) d
       else d).
Proof. reflexivity. Qed.


(** The loop counts every row once, deletes what it can of the endpoints
    that are gone, and attempts each delivery in turn, whatever happened
    to the rows before. *)
Lemma push_loop_run (subs : list Db.push_row) :
  forall (sent failed : Z) (w : world),
    fst (run e (push_loop p subs sent failed) w)
    = (sent + Z.of_nat (List.length (filter (delivered e p) subs)),
       failed
       + Z.of_nat
           (List.length (filter (fun s => negb (delivered e p s)) subs)))
    /\ w_db (snd (run e (push_loop p subs sent failed) w))
       = prune_all e p subs (w_db w)
    /\ attempts (w_log (snd (run e (push_loop p subs sent failed) w)))
       = (attempts (w_log w) ++ map Db.push_subscription_json subs)%list.
Proof.
  induction subs as [| s rest IH]; intros sent failed w.
  - cbn. rewrite !Z.add_0_r, app_nil_r. repeat split.
  - cbn [push_loop]. run_steps.
    rewrite prune_all_cons. cbn [filter map].
    unfold pruned, endpoint_gone, delivered, outcome_of in *.
    destruct (push_service e (Db.push_subscription_json s) p)
      as [| [status |]]; cbn [negb andb List.length gone].
    + loop_rest IH (sent + 1) failed.
    + destruct ((status =? 404) || (status =? 410)); cbn [andb].
      * run_steps. case_store_fails; cbn [negb fst snd];
          loop_rest IH sent (failed + 1).
      * loop_rest IH sent (failed + 1).
    + loop_rest IH sent (failed + 1).
Qed.

(** What the deletes add up to: the rows that remain are those no
    deleted row shares an endpoint with. *)
Lemma prune_all_table (subs : list Db.push_row) :
  forall d : Db.t,
    prune_all e p subs d
    = Db.set_push
        (filter (fun r => negb (pruned_by e p subs r)) (Db.push_subscriptions d))
        d.
Proof.
  induction subs as [| s rest IH]; intros d.
  - cbn [prune_all fold_left pruned_by existsb negb].
    rewrite filter_true. symmetry. apply set_push_same.
  - rewrite prune_all_cons, IH. unfold pruned_by. cbn [existsb].
    destruct (pruned e p s); cbn [andb orb].
    + unfold Db.delete_subscription, Db.set_push.
      cbn [Db.push_subscriptions Db.ideas Db.news Db.polls Db.poll_votes
           Db.seq_ideas Db.seq_news Db.seq_poll Db.seq_poll_votes].
      rewrite filter_filter. f_equal.
      apply filter_ext. intros r. rewrite negb_orb. reflexivity.
    + reflexivity.
Qed.

(** Under the primary key, a row is deleted on its own account only. *)
Lemma pruned_by_own (subs : list Db.push_row) :
  NoDup (map Db.push_endpoint subs) ->
  forall r : Db.push_row, In r subs -> pruned_by e p subs r = pruned e p r.
Proof.
  intros Hkey r Hin. unfold pruned_by.
  destruct (pruned e p r) eqn:Hr.
  - apply existsb_exists. exists r. split; [exact Hin |].
    rewrite Hr, String.eqb_refl. reflexivity.
  - destruct (existsb _ subs) eqn:Hex; [| reflexivity].
    apply existsb_exists in Hex. destruct Hex as (s & Hs & Hboth).
    apply andb_true_iff in Hboth. destruct Hboth as [Hpruned Hsame].
    apply String.eqb_eq in Hsame.
    rewrite (NoDup_map_injective _ _ Hkey r s Hin Hs Hsame) in Hr.
    congruence.
Qed.

End Fanout.

Lemma NoDup_map_filter {A B : Type} (f : A -> B) (keep : A -> bool)
    (l : list A) :
  NoDup (map f l) -> NoDup (map f (filter keep l)).
Proof.
  induction l as [| x l IH]; cbn [map filter]; intros Hnd; [exact Hnd |].
  inversion Hnd as [| y ys Hnotin Hrest]; subst.
  destruct (keep x); cbn [map]; [| exact (IH Hrest)].
  constructor; [| exact (IH Hrest)].
  intros Hin. apply Hnotin. apply in_map_iff in Hin.
  destruct Hin as (a & Hfa & Ha). apply filter_In in Ha.
  rewrite <- Hfa. apply in_map, Ha.
Qed.

Lemma NoDup_snoc {A : Type} (l : list A) (x : A) :
  NoDup l -> ~ In x l -> NoDup (l ++ [x]).
Proof.
  intros Hnd Hnotin. apply NoDup_app; [exact Hnd | repeat constructor; intros [] |].
  intros a Ha [<- | []]. exact (Hnotin Ha).
Qed.

(** The primary key at work: every operation keeps the endpoints of the
    stored subscriptions distinct, so they are distinct in every state the
    server reaches from the empty database, whatever the interleaving. *)
Lemma exec_keeps_endpoints_unique (e : env) :
  forall (A : Type) (o : op A) (d : Db.t),
    endpoints_unique d -> endpoints_unique (snd (exec e o d)).
Proof.
  intros A o d Hkey. unfold endpoints_unique in *.
  destruct o; cbn [exec snd]; try exact Hkey.
  - case_store_fails; [exact Hkey |].
    destruct (Db.insert_vote _ _ _ _ _) as [err | d'] eqn:Hins;
      cbn [snd]; [exact Hkey |].
    unfold Db.insert_vote in Hins.
    destruct poll; try discriminate;
      (destruct (Db.as_integer _); [| discriminate]);
      (destruct (existsb _ (Db.poll_votes d)); [discriminate |]);
      (destruct (negb _); [discriminate |]);
      injection Hins as <-; exact Hkey.
  - case_store_fails; cbn [snd]; [exact Hkey |].
    apply NoDup_map_filter, Hkey.
  - unfold Db.upsert_subscription.
    destruct (existsb _ (Db.push_subscriptions d)) eqn:Hex;
      cbn [Db.set_push Db.push_subscriptions].
    + rewrite map_map.
      erewrite map_ext; [exact Hkey |].
      intros r. cbn beta.
      destruct (String.eqb_spec (Db.push_endpoint r) endpoint) as [-> | _];
        reflexivity.
    + rewrite map_app. cbn [map Db.push_endpoint].
      apply NoDup_snoc; [exact Hkey |].
      intros Hin. apply in_map_iff in Hin. destruct Hin as (r & Hr & Hin).
      assert (Htrue : existsb
                        (fun r => (Db.push_endpoint r =? endpoint)%string)
                        (Db.push_subscriptions d) = true).
      { apply existsb_exists. exists r. split; [exact Hin |].
        rewrite Hr. apply String.eqb_refl. }
      congruence.
Qed.

Lemma endpoints_unique_reachable (e : env) {R : Type}
    (tasks : list (prog R)) (schedule : list nat) :
  endpoints_unique
    (w_db (snd (run_schedule e schedule tasks
                  {| w_db := Db.empty; w_log := [] |}))).
Proof.
  apply run_schedule_keeps; [apply exec_keeps_endpoints_unique |].
  constructor.
Qed.

Lemma delivered_not_pruned (e : env) (p : payload) (s : Db.push_row) :
  delivered e p s = true -> pruned e p s = false.
Proof.
  unfold pruned, endpoint_gone, delivered.
  destruct (outcome_of e p s); [reflexivity | discriminate].
Qed.

(** Nothing throws in the loop: each delivery and each delete is in a
    [try]. *)
Lemma try_push_loop `{External} (e : env) (p : payload)
    (subs : list Db.push_row) :
  forall (sent failed : Z) (w : world),
    try_run e (push_loop p subs sent failed) w
    = (Some (fst (run e (push_loop p subs sent failed) w)),
       snd (run e (push_loop p subs sent failed) w)).
Proof.
  induction subs as [| s rest IH]; intros sent failed w; cbn [push_loop].
  - reflexivity.
  - cbn [bind await try_run run throws].
    destruct (fst (step_world e (SendNotification _ p) w)) as [| statusCode];
      [apply IH |].
    destruct (gone statusCode); [| apply IH].
    cbn [bind await try_run run throws]. apply IH.
Qed.

(** The dispatch with operations that may throw: it stops at
    [setVapidDetails] or at the SELECT, or runs to its end. *)
Lemma try_sendPushToAll `{External} (cfg : config) (e : env) (p : payload)
    (w : world) :
  try_run e (sendPushToAll cfg p) w
  = if push_throws cfg e
    then
      (None,
       if vapidDetailsAccepted (VAPID_SUBJECT cfg) (VAPID_PUBLIC_KEY cfg)
            (VAPID_PRIVATE_KEY cfg)
       then
         logged AllSubscriptions
           (logged (SetVapidDetails (VAPID_SUBJECT cfg) (VAPID_PUBLIC_KEY cfg)
                      (VAPID_PRIVATE_KEY cfg))
              (logged ImportWebPush w))
       else
         logged (SetVapidDetails (VAPID_SUBJECT cfg) (VAPID_PUBLIC_KEY cfg)
                   (VAPID_PRIVATE_KEY cfg))
           (logged ImportWebPush w))
    else
      (Some (fst (run e (sendPushToAll cfg p) w)),
       snd (run e (sendPushToAll cfg p) w)).
Proof.
  unfold sendPushToAll, initWebPushIfConfigured, push_throws.
  destruct (canUsePushConfig cfg); cbn [negb andb]; [| reflexivity].
  cbn [bind await try_run run throws step_world exec fst snd].
  destruct (webpush_installed e); cbn [negb andb]; [| reflexivity].
  cbn [bind await try_run run throws step_world exec fst snd w_db w_log].
  destruct (vapidDetailsAccepted _ _ _); cbn [negb orb]; [| reflexivity].
  cbn [bind await try_run run throws step_world exec fst snd w_db w_log].
  destruct (store_fails e _ AllSubscriptions); [reflexivity |].
  rewrite try_run_bind, try_push_loop. cbn [fst snd].
  rewrite run_bind. reflexivity.
Qed.

(** C3: with the keys configured and the module installed, the dispatch
    throws when [setVapidDetails] refuses the keys or the SELECT of the
    subscriptions fails, before any delivery or delete.  Otherwise it
    attempts a delivery to every stored subscription, in turn, whatever
    the outcome of the others; it returns as [sent] the number of
    deliveries that succeeded and as [failed] the number of those that did
    not, which add up to the number of subscriptions; the rows left in
    storage are those whose endpoint was not answered 404 or 410, together
    with those whose delete failed; and every subscription that was
    delivered to is still stored. *)
Theorem push_fanout `{External} (cfg : config) :
  forall (e : env) (w : world) (p : payload),
    canUsePushConfig cfg = true ->
    webpush_installed e = true ->
    endpoints_unique (w_db w) ->
    let subs := Db.push_subscriptions (w_db w) in
    let out := try_run e (sendPushToAll cfg p) w in
    if push_throws cfg e
    then
      fst out = None
      /\ attempts (w_log (snd out)) = attempts (w_log w)
      /\ w_db (snd out) = w_db w
    else
      fst out
      = Some
          {| pr_sent := Z.of_nat (List.length (filter (delivered e p) subs));
             pr_failed :=
               Z.of_nat
                 (List.length
                    (filter (fun s => negb (delivered e p s)) subs));
             pr_disabled := false; pr_reason := None |}
      /\ Z.of_nat (List.length (filter (delivered e p) subs))
         + Z.of_nat
             (List.length (filter (fun s => negb (delivered e p s)) subs))
         = Z.of_nat (List.length subs)
      /\ attempts (w_log (snd out))
         = (attempts (w_log w) ++ map Db.push_subscription_json subs)%list
      /\ w_db (snd out)
         = Db.set_push (filter (fun s => negb (pruned e p s)) subs) (w_db w)
      /\ filter (delivered e p) (Db.push_subscriptions (w_db (snd out)))
         = filter (delivered e p) subs.
Proof.
  intros e w p Hkeys Hmodule Hkey subs out. subst out.
  rewrite try_sendPushToAll.
  destruct (push_throws cfg e) eqn:Hthrows; cbn [fst snd].
  - split; [reflexivity |].
    destruct (vapidDetailsAccepted _ _ _); cbn [logged w_db w_log];
      rewrite !attempts_app; cbn [attempts]; rewrite !app_nil_r;
      split; reflexivity.
  - set (out := run e (sendPushToAll cfg p) w).
    assert (Hrun :
      fst out
      = {| pr_sent := Z.of_nat (List.length (filter (delivered e p) subs));
           pr_failed :=
             Z.of_nat
               (List.length (filter (fun s => negb (delivered e p s)) subs));
           pr_disabled := false; pr_reason := None |}
      /\ w_db (snd out) = prune_all e p subs (w_db w)
      /\ attempts (w_log (snd out))
         = (attempts (w_log w) ++ map Db.push_subscription_json subs)%list).
    { subst out. unfold sendPushToAll, initWebPushIfConfigured.
      rewrite Hkeys. cbn [negb]. run_steps. rewrite Hmodule. cbn [negb].
      run_steps. cbn [negb]. run_steps. rewrite run_bind.
      match goal with
      | |- context [run e (push_loop p ?l 0 0) ?w1] =>
          destruct (push_loop_run e p l 0 0 w1) as (Hcount & Hdb & Hlog)
      end.
      cbn [run fst snd]. rewrite Hcount, Hdb, Hlog. cbn [fst snd w_db w_log].
      rewrite !attempts_app. cbn [attempts]. rewrite !app_nil_r.
      repeat split. }
    destruct Hrun as (Hresult & Hdb & Hlog).
    assert (Htable :
      w_db (snd out)
      = Db.set_push (filter (fun s => negb (pruned e p s)) subs) (w_db w)).
    { rewrite Hdb, prune_all_table. f_equal.
      apply filter_ext_in. intros r Hin.
      rewrite (pruned_by_own e p subs Hkey r Hin). reflexivity. }
    rewrite Hresult.
    repeat split; try assumption.
    + rewrite <- Nat2Z.inj_add, filter_length. reflexivity.
    + rewrite Htable. cbn [Db.set_push Db.push_subscriptions].
      rewrite filter_filter. apply filter_ext_in. intros s _.
      destruct (delivered e p s) eqn:Hd; [| apply andb_false_r].
      rewrite (delivered_not_pruned e p s Hd). reflexivity.
Qed.

Lemma push_fanout_witness :
  let out :=
    try_run Sample.world_ok (sendPushToAll Sample.cfg Sample.notice)
      Sample.three_subscribers in
  fst out
  = Some {| pr_sent := 2; pr_failed := 1; pr_disabled := false;
            pr_reason := None |}
  /\ 2 + 1 = 3
  /\ attempts (w_log (snd out))
     = map Db.push_subscription_json
         [Sample.subscriber "https://push.example/a" "d1";
          Sample.subscriber "x-https://push.example/b" "d2";
          Sample.subscriber "https://push.example/c" "d3"]
  /\ w_db (snd out)
     = Db.set_push
         [Sample.subscriber "https://push.example/a" "d1";
          Sample.subscriber "https://push.example/c" "d3"]
         Db.empty
  /\ filter (delivered Sample.world_ok Sample.notice)
       (Db.push_subscriptions (w_db (snd out)))
     = [Sample.subscriber "https://push.example/a" "d1";
        Sample.subscriber "https://push.example/c" "d3"].
Proof.
  assert (Hkey : endpoints_unique (w_db Sample.three_subscribers)).
  { unfold endpoints_unique. cbn.
    repeat constructor; cbn; intuition discriminate. }
  exact (push_fanout Sample.cfg Sample.world_ok Sample.three_subscribers
           Sample.notice eq_refl eq_refl Hkey).
Defined.

(** With keys that [setVapidDetails] refuses, the dispatch throws before
    it reads the subscriptions: nothing is sent, nothing is deleted, and
    the send route answers nothing. *)
Example push_keys_refused :
  let out :=
    try_run Sample.world_ok
      (post_push_send Sample.cfg_bad_keys Sample.admin_token
         {| sd_title := Js.Str "Info"; sd_body := Js.Str "Reunion";
            sd_url := Js.Undefined; sd_tag := Js.Undefined |} 0 0)
      Sample.three_subscribers in
  fst out = None
  /\ attempts (w_log (snd out)) = []
  /\ w_db (snd out) = w_db Sample.three_subscribers.
Proof. vm_compute. repeat split. Qed.

(** With the keys configured and the module missing, the import is tried
    and the send route still answers 501. *)
Example push_module_missing :
  let out :=
    run Sample.world_no_module
      (post_push_send Sample.cfg Sample.admin_token
         {| sd_title := Js.Str "Info"; sd_body := Js.Str "Reunion";
            sd_url := Js.Undefined; sd_tag := Js.Undefined |} 0 0)
      Sample.three_subscribers in
  status (fst out) = 501
  /\ attempts (w_log (snd out)) = []
  /\ w_db (snd out) = w_db Sample.three_subscribers.
Proof. vm_compute. repeat split. Qed.

(** ** Poll activation *)

Lemma deactivate_all_inactive (ps : list Db.poll) :
  filter (fun p => Db.poll_active p =? 1)
    (map (fun p => if Db.poll_active p =? 1 then Db.deactivate p else p) ps)
  = [].
Proof.
  induction ps as [| p ps IH]; cbn [map filter]; [reflexivity |].
  destruct (Db.poll_active p =? 1) eqn:Hactive.
  - cbn [Db.deactivate Db.poll_active]. exact IH.
  - rewrite Hactive. exact IH.
Qed.

Lemma active_count_deactivate (d : Db.t) :
  active_count (Db.update_deactivate_polls d) = 0%nat.
Proof.
  unfold active_count, Db.update_deactivate_polls.
  cbn [Db.set_polls Db.polls]. rewrite deactivate_all_inactive. reflexivity.
Qed.

Lemma active_count_insert (question : string) (options : list string)
    (t : Z) (d : Db.t) :
  active_count (Db.insert_poll question options t d) = S (active_count d).
Proof.
  unfold active_count, Db.insert_poll. cbn [Db.set_polls Db.polls].
  rewrite filter_app, length_app. cbn. lia.
Qed.


Lemma prune_all_polls (e : env) (p : payload) (subs : list Db.push_row)
    (d : Db.t) :
  Db.polls (prune_all e p subs d) = Db.polls d.
Proof. rewrite prune_all_table. reflexivity. Qed.

(** A dispatch leaves the poll table as it is. *)
Lemma sendPushToAll_polls `{External} (cfg : config) (e : env) (p : payload)
    (w : world) :
  Db.polls (w_db (snd (run e (sendPushToAll cfg p) w))) = Db.polls (w_db w).
Proof.
  unfold sendPushToAll, initWebPushIfConfigured.
  destruct (canUsePushConfig cfg); cbn [negb]; [| reflexivity].
  run_steps. destruct (webpush_installed e); cbn [negb]; [| reflexivity].
  run_steps. cbn [negb]. run_steps. rewrite run_bind. cbn [run snd].
  match goal with
  | |- context [run e (push_loop p ?l 0 0) ?w1] =>
      destruct (push_loop_run e p l 0 0 w1) as (_ & Hdb & _)
  end.
  rewrite Hdb. apply prune_all_polls.
Qed.

Lemma auto_push_polls `{External} (cfg : config) (e : env) (p : payload)
    (w : world) :
  Db.polls (w_db (snd (run e (auto_push cfg p) w))) = Db.polls (w_db w).
Proof.
  unfold auto_push. destruct (canUsePushConfig cfg); [| reflexivity].
  rewrite run_bind. cbn [run snd]. apply sendPushToAll_polls.
Qed.

Lemma one_active_if_any_polls (d d' : Db.t) :
  Db.polls d' = Db.polls d -> one_active_if_any d -> one_active_if_any d'.
Proof.
  unfold one_active_if_any, active_count. intros ->. exact (fun Hd => Hd).
Qed.

Lemma insert_vote_polls (n : Js.number) (idx : Z) (voter : string) (t : Z)
    (d d' : Db.t) :
  Db.insert_vote n idx voter t d = inr d' -> Db.polls d' = Db.polls d.
Proof.
  unfold Db.insert_vote.
  destruct n; try discriminate;
    (destruct (Db.as_integer _); [| discriminate]);
    (destruct (existsb _ (Db.poll_votes d)); [discriminate |]);
    (destruct (negb _); [discriminate |]);
    intros [= <-]; reflexivity.
Qed.

Section PollTable.

Context `{External} (cfg : config) (e : env).

(** What an activation that passes the guards does to the poll table. *)
Lemma post_admin_poll_polls (w : world) (token : option string)
    (b : poll_body) (now stamp ts : Z) :
  requireAdmin cfg token now = None ->
  Validator.failed (poll_checks b) = [] ->
  fst (run e (post_admin_poll cfg token b now stamp ts) w) = reply 200 Ok
  /\ Db.polls (w_db (snd (run e (post_admin_poll cfg token b now stamp ts) w)))
     = Db.polls
         (Db.insert_poll (cleanText (Js.or_empty (pb_question b)) 140)
            (map (fun o => cleanText (Js.or_empty o) 60)
               (match pb_options b with Some l => l | None => [] end))
            stamp (Db.update_deactivate_polls (w_db w))).
Proof.
  intros Hadmin Hvalid. unfold post_admin_poll. rewrite Hadmin, Hvalid.
  rewrite !run_bind. cbn [run fst snd]. split; [reflexivity |].
  rewrite auto_push_polls. reflexivity.
Qed.

(** Every other handler leaves the poll table as it is. *)
Lemma post_ideas_polls (w : world) (deviceHash : string) (b : ideas_body)
    (now stamp : Z) :
  Db.polls (w_db (snd (run e (post_ideas cfg deviceHash b now stamp) w)))
  = Db.polls (w_db w).
Proof.
  unfold post_ideas.
  destruct (Validator.failed (ideas_checks b)); [| reflexivity].
  destruct (Js.nonempty _); [reflexivity |]. run_steps.
  destruct (Db.select_last_idea deviceHash (w_db w)); [| reflexivity].
  destruct (Js.lt _ _); reflexivity.
Qed.

Lemma get_poll_polls (w : world) :
  Db.polls (w_db (snd (run e get_poll w))) = Db.polls (w_db w).
Proof.
  unfold get_poll. run_steps.
  destruct (Db.select_active_poll (w_db w)); reflexivity.
Qed.

Lemma post_vote_polls (w : world) (deviceHash : string) (r : vote_request)
    (stamp : Z) :
  Db.polls (w_db (snd (run e (post_vote deviceHash r stamp) w)))
  = Db.polls (w_db w).
Proof.
  unfold post_vote.
  destruct (Validator.failed (vote_checks r)); [| reflexivity]. run_steps.
  destruct (Db.select_poll _ (w_db w)) as [p |]; [| reflexivity].
  destruct (Db.poll_active p =? 0); [reflexivity |].
  destruct (negb _ || _ || _); [reflexivity |]. run_steps.
  case_store_fails; [reflexivity |].
  destruct (Db.insert_vote _ _ _ _ _) as [err | d'] eqn:Hins;
    [reflexivity |].
  cbn [run snd w_db]. exact (insert_vote_polls _ _ _ _ _ _ Hins).
Qed.

Lemma post_subscribe_polls (w : world) (deviceHash : string)
    (b : option subscribe_body) (userAgent : string) (now : Z) :
  Db.polls (w_db (snd (run e (post_subscribe deviceHash b userAgent now) w)))
  = Db.polls (w_db w).
Proof.
  unfold post_subscribe.
  destruct (Validator.failed (subscribe_checks b)); [| reflexivity].
  destruct b as [[endpoint [[p256dh auth] |]] |]; try reflexivity.
  run_steps. unfold Db.upsert_subscription.
  destruct (existsb _ _); reflexivity.
Qed.

Lemma post_push_send_polls (w : world) (token : option string)
    (b : send_body) (now ts : Z) :
  Db.polls (w_db (snd (run e (post_push_send cfg token b now ts) w)))
  = Db.polls (w_db w).
Proof.
  unfold post_push_send.
  destruct (requireAdmin cfg token now); [reflexivity |].
  destruct (Validator.failed (send_checks b)); [| reflexivity].
  rewrite run_bind.
  match goal with
  | |- context [run e (sendPushToAll cfg ?q) w] =>
      rewrite <- (sendPushToAll_polls cfg e q w)
  end.
  destruct (pr_disabled _); reflexivity.
Qed.

Lemma post_admin_news_polls (w : world) (token : option string)
    (b : news_body) (now stamp ts : Z) :
  Db.polls (w_db (snd (run e (post_admin_news cfg token b now stamp ts) w)))
  = Db.polls (w_db w).
Proof.
  unfold post_admin_news.
  destruct (requireAdmin cfg token now); [reflexivity |].
  destruct (Validator.failed (news_checks b)); [| reflexivity].
  rewrite !run_bind. cbn [run snd]. rewrite auto_push_polls. reflexivity.
Qed.

Lemma post_login_polls (w : world) (b : login_body) (now : Z) :
  Db.polls (w_db (snd (run e (post_login cfg b now) w))) = Db.polls (w_db w).
Proof.
  unfold post_login.
  destruct (Validator.failed (login_checks b)); [| reflexivity].
  destruct (negb (Js.nonempty _)); [reflexivity |].
  destruct (negb (bcrypt_compare _ _)); reflexivity.
Qed.

Lemma activation_one_active (question : string) (options : list string)
    (t : Z) (d d' : Db.t) :
  Db.polls d'
  = Db.polls (Db.insert_poll question options t (Db.update_deactivate_polls d)) ->
  one_active_if_any d'.
Proof.
  intros Hpolls. unfold one_active_if_any, active_count. rewrite Hpolls.
  fold (active_count
          (Db.insert_poll question options t (Db.update_deactivate_polls d))).
  rewrite active_count_insert, active_count_deactivate.
  unfold Db.insert_poll. cbn [Db.set_polls Db.polls].
  destruct (Db.polls (Db.update_deactivate_polls d)); reflexivity.
Qed.

(** One request handled to its end keeps the count of active polls. *)
Lemma handle_one_active (w : world) (header : option string) (rq : request) :
  one_active_if_any (w_db w) ->
  one_active_if_any (w_db (snd (run e (handle cfg header rq) w))).
Proof.
  intros Hw. unfold handle, api, device_middleware. cbn [bind].
  destruct (resolveDeviceHash header) as [rejected | deviceHash];
    [exact Hw |].
  destruct rq as [b now stamp | | r stamp | b userAgent now | token b now ts
                 | b now | token b now stamp ts | token b now stamp ts].
  - exact (one_active_if_any_polls _ _ (post_ideas_polls _ _ _ _ _) Hw).
  - exact (one_active_if_any_polls _ _ (get_poll_polls _) Hw).
  - exact (one_active_if_any_polls _ _ (post_vote_polls _ _ _ _) Hw).
  - exact (one_active_if_any_polls _ _ (post_subscribe_polls _ _ _ _ _) Hw).
  - exact (one_active_if_any_polls _ _ (post_push_send_polls _ _ _ _ _) Hw).
  - exact (one_active_if_any_polls _ _ (post_login_polls _ _ _) Hw).
  - exact (one_active_if_any_polls _ _ (post_admin_news_polls _ _ _ _ _ _) Hw).
  - destruct (requireAdmin cfg token now) as [refused |] eqn:Hadmin.
    + unfold post_admin_poll. rewrite Hadmin. exact Hw.
    + destruct (Validator.failed (poll_checks b)) as [| path paths] eqn:Hvalid.
      * destruct (post_admin_poll_polls w token b now stamp ts Hadmin Hvalid)
          as [_ Hpolls].
        exact (activation_one_active _ _ _ _ _ Hpolls).
      * unfold post_admin_poll. rewrite Hadmin, Hvalid. exact Hw.
Qed.

Lemma serve_one_active (history : list (option string * request)) :
  forall w : world,
    one_active_if_any (w_db w) ->
    one_active_if_any (w_db (serve cfg e history w)).
Proof.
  induction history as [| [header rq] later IH]; intros w Hw; cbn [serve].
  - exact Hw.
  - apply IH, handle_one_active, Hw.
Qed.

End PollTable.

(** *** When statements fail *)

Section PollTableThrowing.

Context `{External} (cfg : config) (e : env).


(** The push that follows a publication throws when the dispatch does. *)
Lemma try_auto_push_answer (p : payload) (w : world) :
  fst (try_run e (auto_push cfg p) w)
  = if push_throws cfg e then None else Some tt.
Proof.
  unfold auto_push, push_throws.
  destruct (canUsePushConfig cfg) eqn:Hkeys; cbn [andb]; [| reflexivity].
  rewrite try_run_bind, try_sendPushToAll. unfold push_throws.
  rewrite Hkeys. cbn [andb].
  destruct (webpush_installed e && _); reflexivity.
Qed.













End PollTableThrowing.



(** An activation whose INSERT fails: the poll that was active is retired
    and none takes its place; the poll route then tells that no poll is
    active. *)
Example activation_insert_fails :
  let out :=
    try_run Sample.world_insert_poll_fails
      (post_admin_poll Sample.cfg Sample.admin_token Sample.other_poll_request
         3000 3000 3000)
      Sample.after_first_vote in
  active_count (w_db Sample.after_first_vote) = 1%nat
  /\ fst out = None
  /\ map Db.poll_active (Db.polls (w_db (snd out))) = [0]
  /\ fst (try_run Sample.world_insert_poll_fails get_poll (snd out))
     = Some (reply 200 NoActivePoll).
Proof. vm_compute. repeat split. Qed.


(** * Further properties *)

(** ** Requests that are refused *)

Lemma sendPushToAll_disabled_db `{External} (cfg : config) (e : env)
    (p : payload) (w : world) :
  pr_disabled (fst (run e (sendPushToAll cfg p) w)) = true ->
  snd (run e (sendPushToAll cfg p) w)
  = {| w_db := w_db w;
       w_log := (w_log w
                 ++ (if canUsePushConfig cfg then [Ev ImportWebPush] else []))%list |}.
Proof.
  unfold sendPushToAll, initWebPushIfConfigured.
  destruct (canUsePushConfig cfg); cbn [negb].
  - run_steps. destruct (webpush_installed e); cbn [negb].
    + run_steps. cbn [negb]. run_steps. rewrite run_bind.
      cbn [run fst pr_disabled]. discriminate.
    + reflexivity.
  - cbn [run snd]. intros _. rewrite app_nil_r. destruct w; reflexivity.
Qed.

Section Refusals.

Context `{External} (cfg : config) (e : env).

Lemma post_ideas_refused (w : world) (deviceHash : string) (b : ideas_body)
    (now stamp : Z) :
  status (fst (run e (post_ideas cfg deviceHash b now stamp) w)) <> 200 ->
  w_db (snd (run e (post_ideas cfg deviceHash b now stamp) w)) = w_db w.
Proof.
  unfold post_ideas, ideas_accept.
  destruct (Validator.failed (ideas_checks b)); [| reflexivity].
  destruct (Js.nonempty _); [reflexivity |]. run_steps.
  destruct (Db.select_last_idea deviceHash (w_db w)).
  - destruct (Js.lt _ _); [reflexivity |]. cbn. intros Hne. now elim Hne.
  - cbn. intros Hne. now elim Hne.
Qed.

Lemma post_vote_refused (w : world) (deviceHash : string) (r : vote_request)
    (stamp : Z) :
  status (fst (run e (post_vote deviceHash r stamp) w)) <> 200 ->
  w_db (snd (run e (post_vote deviceHash r stamp) w)) = w_db w.
Proof.
  unfold post_vote.
  destruct (Validator.failed (vote_checks r)); [| reflexivity]. run_steps.
  destruct (Db.select_poll _ (w_db w)) as [p |]; [| reflexivity].
  destruct (Db.poll_active p =? 0); [reflexivity |].
  destruct (negb _ || _ || _); [reflexivity |]. run_steps.
  case_store_fails; [reflexivity |].
  destruct (Db.insert_vote _ _ _ _ _) as [err | d']; [reflexivity |].
  cbn. intros Hne. now elim Hne.
Qed.

Lemma post_subscribe_refused (w : world) (deviceHash : string)
    (b : option subscribe_body) (userAgent : string) (now : Z) :
  status (fst (run e (post_subscribe deviceHash b userAgent now) w)) <> 200 ->
  w_db (snd (run e (post_subscribe deviceHash b userAgent now) w)) = w_db w.
Proof.
  unfold post_subscribe.
  destruct (Validator.failed (subscribe_checks b)); [| reflexivity].
  destruct b as [[endpoint [[p256dh auth] |]] |]; try reflexivity.
  cbn. intros Hne. now elim Hne.
Qed.

Lemma post_push_send_refused (w : world) (token : option string)
    (b : send_body) (now ts : Z) :
  status (fst (run e (post_push_send cfg token b now ts) w)) <> 200 ->
  w_db (snd (run e (post_push_send cfg token b now ts) w)) = w_db w.
Proof.
  unfold post_push_send.
  destruct (requireAdmin cfg token now); [reflexivity |].
  destruct (Validator.failed (send_checks b)); [| reflexivity].
  rewrite run_bind.
  match goal with
  | |- context [run e (sendPushToAll cfg ?q) w] =>
      pose proof (sendPushToAll_disabled_db cfg e q w) as Hoff;
      destruct (pr_disabled (fst (run e (sendPushToAll cfg q) w)))
  end.
  - cbn [run snd]. rewrite (Hoff eq_refl). reflexivity.
  - cbn. intros Hne. now elim Hne.
Qed.

Lemma post_login_db (w : world) (b : login_body) (now : Z) :
  snd (run e (post_login cfg b now) w) = w.
Proof.
  unfold post_login.
  destruct (Validator.failed (login_checks b)); [| reflexivity].
  destruct (negb (Js.nonempty _)); [reflexivity |].
  destruct (negb (bcrypt_compare _ _)); reflexivity.
Qed.

Lemma post_admin_news_refused (w : world) (token : option string)
    (b : news_body) (now stamp ts : Z) :
  status (fst (run e (post_admin_news cfg token b now stamp ts) w)) <> 200 ->
  w_db (snd (run e (post_admin_news cfg token b now stamp ts) w)) = w_db w.
Proof.
  unfold post_admin_news.
  destruct (requireAdmin cfg token now); [reflexivity |].
  destruct (Validator.failed (news_checks b)); [| reflexivity].
  rewrite !run_bind. cbn [run fst]. intros Hne. now elim Hne.
Qed.

Lemma post_admin_poll_refused (w : world) (token : option string)
    (b : poll_body) (now stamp ts : Z) :
  status (fst (run e (post_admin_poll cfg token b now stamp ts) w)) <> 200 ->
  w_db (snd (run e (post_admin_poll cfg token b now stamp ts) w)) = w_db w.
Proof.
  unfold post_admin_poll.
  destruct (requireAdmin cfg token now); [reflexivity |].
  destruct (Validator.failed (poll_checks b)); [| reflexivity].
  rewrite !run_bind. cbn [run fst]. intros Hne. now elim Hne.
Qed.

Lemma get_poll_db (w : world) : w_db (snd (run e get_poll w)) = w_db w.
Proof.
  unfold get_poll. run_steps.
  destruct (Db.select_active_poll (w_db w)); reflexivity.
Qed.

End Refusals.

(** X1: on each of the routes for ideas, the poll, votes, subscriptions,
    push sends, login, news and poll activation, a request that is
    answered with anything but 200 (a rejected header, a failed
    validation, a refused token, an inactive poll, a cooldown, a duplicate
    vote, a disabled push) leaves the ideas, the news, the polls, the
    votes and the subscriptions as they were. *)
Theorem refused_request_changes_nothing `{External} (cfg : config) :
  forall (e : env) (w : world) (header : option string) (rq : request),
    status (fst (run e (handle cfg header rq) w)) <> 200 ->
    w_db (snd (run e (handle cfg header rq) w)) = w_db w.
Proof.
  intros e w header rq. unfold handle, api, device_middleware. cbn [bind].
  destruct (resolveDeviceHash header) as [rejected | deviceHash];
    [reflexivity |].
  destruct rq as [b now stamp | | r stamp | b userAgent now | token b now ts
                 | b now | token b now stamp ts | token b now stamp ts].
  - apply post_ideas_refused.
  - intros _. apply get_poll_db.
  - apply post_vote_refused.
  - apply post_subscribe_refused.
  - apply post_push_send_refused.
  - intros _. rewrite post_login_db. reflexivity.
  - apply post_admin_news_refused.
  - apply post_admin_poll_refused.
Qed.

Lemma refused_request_changes_nothing_witness :
  w_db (snd (run Sample.world_ok
               (handle Sample.cfg Sample.device
                  (Post_vote (Sample.vote_for "1" 0) 4000))
               Sample.after_second_poll))
  = w_db Sample.after_second_poll.
Proof.
  apply (refused_request_changes_nothing Sample.cfg Sample.world_ok
           Sample.after_second_poll Sample.device
           (Post_vote (Sample.vote_for "1" 0) 4000)).
  vm_compute. discriminate.
Defined.

(** X2: on the admin routes (push send, news, poll), a request whose token
    [requireAdmin] refuses is answered with that refusal, 401 or 403,
    without any operation: nothing is read, written or sent. *)
Theorem admin_route_refused_does_nothing `{External} (cfg : config) :
  forall (e : env) (w : world) (header : option string) (rq : request)
         (deviceHash : string) (token : option string) (now : Z)
         (refused : response),
    resolveDeviceHash header = inr deviceHash ->
    admin_credentials rq = Some (token, now) ->
    requireAdmin cfg token now = Some refused ->
    run e (handle cfg header rq) w = (refused, w)
    /\ (status refused = 401 \/ status refused = 403).
Proof.
  intros e w header rq deviceHash token now refused Hdevice Hrq Hrefused.
  split; [| exact (requireAdmin_refusal cfg token now refused Hrefused)].
  unfold handle, api, device_middleware. cbn [bind]. rewrite Hdevice.
  destruct rq; cbn [admin_credentials] in Hrq; try discriminate;
    injection Hrq as -> ->.
  - unfold post_push_send. rewrite Hrefused. reflexivity.
  - unfold post_admin_news. rewrite Hrefused. reflexivity.
  - unfold post_admin_poll. rewrite Hrefused. reflexivity.
Qed.

Lemma admin_route_refused_does_nothing_witness :
  run Sample.world_ok
    (handle Sample.cfg Sample.device
       (Post_admin_poll (Some "forged") Sample.poll_request 0 0 0))
    Sample.after_first_vote
  = (reply 401 (Error "Session expiree"), Sample.after_first_vote)
  /\ (status (reply 401 (Error "Session expiree")) = 401
      \/ status (reply 401 (Error "Session expiree")) = 403).
Proof.
  exact (admin_route_refused_does_nothing Sample.cfg Sample.world_ok
           Sample.after_first_vote Sample.device
           (Post_admin_poll (Some "forged") Sample.poll_request 0 0 0)
           (sha256 "abc12345") (Some "forged") 0
           (reply 401 (Error "Session expiree")) eq_refl eq_refl eq_refl).
Defined.

(** ** Sessions *)

(** X3: when the password is 6 to 128 characters long and matches the
    configured hash, login answers 200 and sets one cookie: named as
    configured, HTTP-only, same-site lax, secure in production only, valid
    8 hours; and as long as the JWT library verifies the token it signed,
    [requireAdmin] lets the request that brings this cookie back
    through. *)
Theorem login_cookie_admits `{External} (cfg : config) :
  forall (e : env) (w : world) (password : string) (now later : Z),
    Validator.isLength 6 128 password = true ->
    bcrypt_compare password (ADMIN_PASSWORD_HASH cfg) = true ->
    Js.nonempty (ADMIN_PASSWORD_HASH cfg) = true ->
    Js.nonempty (jwt_sign_admin (JWT_SECRET cfg) now) = true ->
    jwt_verify (jwt_sign_admin (JWT_SECRET cfg) now) (JWT_SECRET cfg) later
    = Some {| claim_admin := true |} ->
    let out := run e (post_login cfg {| lb_password := Js.Str password |} now) w in
    fst out
    = {| status := 200; json := Ok;
         set_cookie :=
           Some {| cookie_name := COOKIE_NAME cfg;
                   cookie_value := jwt_sign_admin (JWT_SECRET cfg) now;
                   cookie_httpOnly := true; cookie_sameSite := "lax";
                   cookie_secure := (NODE_ENV cfg =? "production")%string;
                   cookie_maxAge := 28800000 |} |}
    /\ requireAdmin cfg (Some (jwt_sign_admin (JWT_SECRET cfg) now)) later
       = None.
Proof.
  intros e w password now later Hlength Hmatch Hhash Htoken Hverify out.
  subst out. split.
  - unfold post_login, login_checks, Validator.failed.
    cbn [filter map fst snd lb_password Validator.string_between Js.or_empty].
    rewrite Hlength. cbn [negb filter map]. rewrite Hhash, Hmatch.
    reflexivity.
  - unfold requireAdmin. rewrite Htoken. cbn [negb]. rewrite Hverify.
    reflexivity.
Qed.

Lemma login_cookie_admits_witness :
  let out :=
    run Sample.world_ok
      (post_login Sample.cfg_login {| lb_password := Js.Str "right-enough" |} 0)
      (Sample.start Db.empty) in
  fst out
  = {| status := 200; json := Ok;
       set_cookie :=
         Some {| cookie_name := "cvl_admin"; cookie_value := "admin.secret";
                 cookie_httpOnly := true; cookie_sameSite := "lax";
                 cookie_secure := false; cookie_maxAge := 28800000 |} |}
  /\ requireAdmin Sample.cfg_login (Some "admin.secret") 3600000 = None.
Proof.
  exact (login_cookie_admits Sample.cfg_login Sample.world_ok
           (Sample.start Db.empty) "right-enough" 0 3600000
           eq_refl eq_refl eq_refl eq_refl eq_refl).
Defined.

(** ** What the handlers write *)

Lemma option_check_range (count : nat) (idx : Js.number) :
  negb (Js.isInteger idx) || Js.lt idx (Js.of_Z 0)
  || Js.ge idx (Js.of_Z (Z.of_nat count)) = false ->
  0 <= integer_of idx < Z.of_nat count.
Proof.
  intros Hcheck.
  apply orb_false_iff in Hcheck. destruct Hcheck as [Hcheck Hge].
  apply orb_false_iff in Hcheck. destruct Hcheck as [Hint Hlt].
  apply negb_false_iff in Hint.
  destruct idx as [| negative | q]; cbn [Js.isInteger] in Hint;
    try discriminate.
  cbn [integer_of]. unfold Js.q_is_integer in Hint.
  apply Qeq_bool_iff in Hint.
  cbn [Js.lt Js.ge Js.of_Z] in Hlt, Hge. apply negb_false_iff in Hge.
  apply Qlt_bool_iff in Hge. rewrite <- Hint in Hge.
  rewrite <- Zlt_Qlt in Hge. split; [| exact Hge].
  destruct (Z.lt_ge_cases (Qfloor q) 0) as [Hneg | Hpos]; [| exact Hpos].
  assert (Hq : Js.Qlt_bool q (inject_Z 0) = true).
  { apply Qlt_bool_iff. rewrite <- Hint. rewrite <- Zlt_Qlt. exact Hneg. }
  congruence.
Qed.

Section Writes.

Context `{External} (cfg : config) (e : env).

Lemma writes_one (d d' : Db.t) : write d d' -> writes d d'.
Proof. intros Hw. exact (writes_more d d' d' Hw (writes_none d')). Qed.

Lemma writes_trans (d1 d2 d3 : Db.t) :
  writes d1 d2 -> writes d2 d3 -> writes d1 d3.
Proof.
  intros H12 H23. induction H12 as [d | d d1 d2 Hw _ IH]; [exact H23 |].
  exact (writes_more d d1 d3 Hw (IH H23)).
Qed.

Lemma prune_all_writes (p : payload) (subs : list Db.push_row) :
  forall d : Db.t, writes d (prune_all e p subs d).
Proof.
  induction subs as [| s rest IH]; intros d.
  - apply writes_none.
  - rewrite prune_all_cons. destruct (pruned e p s); [| apply IH].
    eapply writes_more; [apply write_unsubscribe | apply IH].
Qed.

(** What a dispatch leaves of the database. *)
Lemma sendPushToAll_db (p : payload) (w : world) :
  w_db (snd (run e (sendPushToAll cfg p) w))
  = if canUsePushConfig cfg && webpush_installed e
    then prune_all e p (Db.push_subscriptions (w_db w)) (w_db w)
    else w_db w.
Proof.
  unfold sendPushToAll, initWebPushIfConfigured.
  destruct (canUsePushConfig cfg); cbn [negb andb]; [| reflexivity].
  run_steps. destruct (webpush_installed e); cbn [negb]; [| reflexivity].
  run_steps. cbn [negb]. run_steps. rewrite run_bind. cbn [run snd].
  match goal with
  | |- context [run e (push_loop p ?l 0 0) ?w1] =>
      destruct (push_loop_run e p l 0 0 w1) as (_ & Hdb & _)
  end.
  exact Hdb.
Qed.

Lemma sendPushToAll_writes (p : payload) (w : world) :
  writes (w_db w) (w_db (snd (run e (sendPushToAll cfg p) w))).
Proof.
  rewrite sendPushToAll_db.
  destruct (canUsePushConfig cfg && webpush_installed e);
    [apply prune_all_writes | apply writes_none].
Qed.

Lemma auto_push_writes (p : payload) (w : world) :
  writes (w_db w) (w_db (snd (run e (auto_push cfg p) w))).
Proof.
  unfold auto_push. destruct (canUsePushConfig cfg); [| apply writes_none].
  rewrite run_bind. cbn [run snd]. apply sendPushToAll_writes.
Qed.

Lemma post_ideas_writes (w : world) (deviceHash : string) (b : ideas_body)
    (now stamp : Z) :
  writes (w_db w) (w_db (snd (run e (post_ideas cfg deviceHash b now stamp) w))).
Proof.
  unfold post_ideas, ideas_accept.
  destruct (Validator.failed (ideas_checks b)) eqn:Hvalid;
    [| apply writes_none].
  destruct (Js.nonempty _); [apply writes_none |]. run_steps.
  destruct (Db.select_last_idea deviceHash (w_db w)).
  - destruct (Js.lt _ _); [apply writes_none |].
    apply writes_one, write_idea, Hvalid.
  - apply writes_one, write_idea, Hvalid.
Qed.

Lemma post_vote_writes (w : world) (deviceHash : string) (r : vote_request)
    (stamp : Z) :
  writes (w_db w) (w_db (snd (run e (post_vote deviceHash r stamp) w))).
Proof.
  unfold post_vote.
  destruct (Validator.failed (vote_checks r)); [| apply writes_none].
  run_steps.
  destruct (Db.select_poll _ (w_db w)) as [p |] eqn:Hfound;
    [| apply writes_none].
  destruct (Z.eqb_spec (Db.poll_active p) 0) as [_ | Hactive];
    [apply writes_none |].
  destruct (negb _ || _ || _) eqn:Hcheck; [apply writes_none |]. run_steps.
  case_store_fails; [apply writes_none |].
  destruct (Db.insert_vote _ _ _ _ _) as [err | d'] eqn:Hins;
    [apply writes_none |].
  cbn [run snd w_db]. apply writes_one.
  exact (write_vote _ _ p _ _ _ d' Hfound Hactive
           (option_check_range _ _ Hcheck) Hins).
Qed.

Lemma post_subscribe_writes (w : world) (deviceHash : string)
    (b : option subscribe_body) (userAgent : string) (now : Z) :
  writes (w_db w)
    (w_db (snd (run e (post_subscribe deviceHash b userAgent now) w))).
Proof.
  unfold post_subscribe.
  destruct (Validator.failed (subscribe_checks b)); [| apply writes_none].
  destruct b as [[endpoint [[p256dh auth] |]] |]; try apply writes_none.
  run_steps. apply writes_one, write_subscribe.
Qed.

Lemma post_push_send_writes (w : world) (token : option string)
    (b : send_body) (now ts : Z) :
  writes (w_db w) (w_db (snd (run e (post_push_send cfg token b now ts) w))).
Proof.
  unfold post_push_send.
  destruct (requireAdmin cfg token now); [apply writes_none |].
  destruct (Validator.failed (send_checks b)); [| apply writes_none].
  rewrite run_bind.
  match goal with
  | |- context [run e (sendPushToAll cfg ?q) w] =>
      pose proof (sendPushToAll_writes q w) as Hsend
  end.
  destruct (pr_disabled _); exact Hsend.
Qed.

Lemma post_admin_news_writes (w : world) (token : option string)
    (b : news_body) (now stamp ts : Z) :
  writes (w_db w)
    (w_db (snd (run e (post_admin_news cfg token b now stamp ts) w))).
Proof.
  unfold post_admin_news.
  destruct (requireAdmin cfg token now); [apply writes_none |].
  destruct (Validator.failed (news_checks b)) eqn:Hvalid;
    [| apply writes_none].
  rewrite !run_bind. cbn [run snd].
  eapply writes_more; [| apply auto_push_writes].
  run_steps. apply write_news, Hvalid.
Qed.

Lemma post_admin_poll_writes (w : world) (token : option string)
    (b : poll_body) (now stamp ts : Z) :
  writes (w_db w)
    (w_db (snd (run e (post_admin_poll cfg token b now stamp ts) w))).
Proof.
  unfold post_admin_poll.
  destruct (requireAdmin cfg token now); [apply writes_none |].
  destruct (Validator.failed (poll_checks b)) eqn:Hvalid;
    [| apply writes_none].
  rewrite !run_bind. cbn [run snd].
  eapply writes_more; [apply write_deactivate |].
  eapply writes_more; [| apply auto_push_writes].
  unfold activate_poll. run_steps. apply write_poll, Hvalid.
Qed.

(** Every request, handled to its end, amounts to checked writes. *)
Lemma handle_writes (w : world) (header : option string) (rq : request) :
  writes (w_db w) (w_db (snd (run e (handle cfg header rq) w))).
Proof.
  unfold handle, api, device_middleware. cbn [bind].
  destruct (resolveDeviceHash header) as [rejected | deviceHash];
    [apply writes_none |].
  destruct rq as [b now stamp | | r stamp | b userAgent now | token b now ts
                 | b now | token b now stamp ts | token b now stamp ts].
  - apply post_ideas_writes.
  - rewrite get_poll_db. apply writes_none.
  - apply post_vote_writes.
  - apply post_subscribe_writes.
  - apply post_push_send_writes.
  - rewrite post_login_db. apply writes_none.
  - apply post_admin_news_writes.
  - apply post_admin_poll_writes.
Qed.

(** A property of the database that every checked write keeps holds after
    any history of requests handled one at a time. *)
Lemma serve_keeps (I : Db.t -> Prop) :
  (forall d d' : Db.t, write d d' -> I d -> I d') ->
  forall (history : list (option string * request)) (w : world),
    I (w_db w) -> I (w_db (serve cfg e history w)).
Proof.
  intros Hwrite.
  assert (Hwrites : forall d d', writes d d' -> I d -> I d').
  { intros d d' Hws. induction Hws as [d | d d1 d2 Hw _ IH]; intros Hd.
    - exact Hd.
    - apply IH. exact (Hwrite d d1 Hw Hd). }
  induction history as [| [header rq] later IH]; intros w Hw; cbn [serve].
  - exact Hw.
  - apply IH. exact (Hwrites _ _ (handle_writes w header rq) Hw).
Qed.

End Writes.

(** ** Rows as the handlers write them *)

Lemma substring_length_le (n : nat) :
  forall s : string, (String.length (substring 0 n s) <= n)%nat.
Proof.
  induction n as [| n IH]; intros [| c s]; cbn [substring String.length];
    try lia.
  specialize (IH s). lia.
Qed.

Lemma substring_prefix (n : nat) :
  forall s : string, prefix (substring 0 n s) s = true.
Proof.
  induction n as [| n IH]; intros [| c s]; cbn [substring prefix];
    try reflexivity.
  destruct (ascii_dec c c) as [_ | Hne]; [apply IH | now elim Hne].
Qed.

Lemma prefix_refl (s : string) : prefix s s = true.
Proof.
  induction s as [| c s IH]; cbn [prefix]; [reflexivity |].
  destruct (ascii_dec c c) as [_ | Hne]; [exact IH | now elim Hne].
Qed.

Lemma cleanText_bounded `{External} (str : string) (maxLen : Z) :
  0 < maxLen -> Js.length (cleanText str maxLen) <= maxLen.
Proof.
  intros Hpos. unfold cleanText.
  destruct (Z.eqb_spec maxLen 0) as [Hzero | _]; [lia |]. cbn [negb andb].
  destruct (Z.gtb_spec (Js.length (Js.trim (sanitizeHtml str))) maxLen)
    as [Hlong | Hshort]; [| exact Hshort].
  unfold Js.slice0, Js.length.
  pose proof (substring_length_le (Z.to_nat maxLen)
                (Js.trim (sanitizeHtml str))).
  lia.
Qed.

(** X4: [cleanText] returns at most [maxLen] characters (for a positive
    [maxLen]), and what it returns is a prefix of the sanitized, trimmed
    text: it cuts, and never rewrites. *)
Theorem cleanText_cuts `{External} :
  forall (str : string) (maxLen : Z),
    0 < maxLen ->
    Js.length (cleanText str maxLen) <= maxLen
    /\ prefix (cleanText str maxLen) (Js.trim (sanitizeHtml str)) = true.
Proof.
  intros str maxLen Hpos. split; [apply cleanText_bounded, Hpos |].
  unfold cleanText.
  destruct (negb (maxLen =? 0) && (Js.length (Js.trim (sanitizeHtml str)) >? maxLen)).
  - apply substring_prefix.
  - apply prefix_refl.
Qed.

Lemma cleanText_cuts_witness :
  Js.length (cleanText "  <b>Sortie</b> au musee  " 9) <= 9
  /\ prefix (cleanText "  <b>Sortie</b> au musee  " 9)
       (Js.trim (sanitizeHtml "  <b>Sortie</b> au musee  ")) = true.
Proof. apply (cleanText_cuts "  <b>Sortie</b> au musee  " 9). reflexivity. Defined.

(** What [isIn] lets through for a list of words is bound as one of the
    words, or as the text of an object when it is an array. *)
Lemma isIn_bound (labels : list string) (v : Js.value) :
  words labels = true ->
  Validator.isIn labels v = true ->
  In (Js.bound_text v) ("[object Object]" :: labels).
Proof.
  unfold words. rewrite negb_true_iff, !orb_false_iff.
  intros [[Hempty Htrue] Hfalse].
  destruct v as [| | b | n | s | items |];
    cbn [Validator.isIn Validator.standard Validator.stringify Js.text_of
         Js.bound_text];
    try (rewrite Hempty; discriminate);
    try (intros _; left; reflexivity).
  - destruct b; [rewrite Htrue | rewrite Hfalse]; discriminate.
  - destruct n; [rewrite Hempty | |]; discriminate.
  - intros Hex. apply existsb_exists in Hex. destruct Hex as (l & Hin & Heq).
    apply String.eqb_eq in Heq. subst l. right. exact Hin.
Qed.

(** A list of checks has no failure when every check holds. *)
Lemma failed_nil (checks : list (string * bool)) :
  Validator.failed checks = [] -> Forall (fun c => snd c = true) checks.
Proof.
  unfold Validator.failed.
  induction checks as [| [path ok] rest IH]; cbn [filter map snd negb];
    intros Hnone; [constructor |].
  destruct ok; cbn [negb] in Hnone; [| discriminate].
  constructor; [reflexivity | exact (IH Hnone)].
Qed.

Lemma insert_vote_inr (n : Js.number) (idx : Z) (voter : string) (t : Z)
    (d d' : Db.t) :
  Db.insert_vote n idx voter t d = inr d' ->
  exists poll : Z,
    Db.as_integer n = Some poll
    /\ existsb (Db.same_voter poll voter) (Db.poll_votes d) = false
    /\ d' = {| Db.ideas := Db.ideas d; Db.news := Db.news d;
               Db.polls := Db.polls d;
               Db.poll_votes := Db.poll_votes d ++
                 [{| Db.vote_id := Db.seq_poll_votes d + 1;
                     Db.vote_poll_id := poll; Db.vote_option_index := idx;
                     Db.vote_voter_hash := voter; Db.vote_created_at := t |}];
               Db.push_subscriptions := Db.push_subscriptions d;
               Db.seq_ideas := Db.seq_ideas d; Db.seq_news := Db.seq_news d;
               Db.seq_poll := Db.seq_poll d;
               Db.seq_poll_votes := Db.seq_poll_votes d + 1 |}.
Proof.
  intros Hins. destruct (Db.as_integer n) as [poll |] eqn:Hint.
  - rewrite (insert_vote_integer n poll idx voter t d Hint) in Hins.
    destruct (existsb (Db.same_voter poll voter) (Db.poll_votes d)) eqn:Hex;
      [discriminate |].
    destruct (negb _); [discriminate |].
    injection Hins as <-. exists poll.
    split; [reflexivity | split; [assumption || reflexivity | reflexivity]].
  - unfold Db.insert_vote in Hins. rewrite Hint in Hins.
    destruct n; discriminate Hins.
Qed.

Section Rows.

Context `{External}.

Lemma write_ideas (d d' : Db.t) :
  write d d' ->
  Db.ideas d' = Db.ideas d
  \/ exists i : Db.idea,
       idea_wellformed i /\ Db.ideas d' = (Db.ideas d ++ [i])%list.
Proof.
  intros [deviceHash b stamp Hvalid
         | poll p option_index voter stamp d1 _ _ _ Hins
         | endpoint sub deviceHash userAgent now | endpoint
         | b stamp _ | | b stamp _]; try (left; reflexivity).
  - right. eexists. split; [| reflexivity].
    apply failed_nil in Hvalid. unfold ideas_checks in Hvalid.
    inversion Hvalid as [| c1 r1 _ Hrest1]; subst.
    inversion Hrest1 as [| c2 r2 Hcategory Hrest2]; subst.
    inversion Hrest2 as [| c3 r3 Hurgency _]; subst.
    cbn [snd] in Hcategory, Hurgency.
    unfold idea_wellformed.
    cbn [Db.idea_text Db.idea_category Db.idea_urgency Db.idea_status].
    repeat split.
    + apply cleanText_bounded. lia.
    + apply isIn_bound; [reflexivity | exact Hcategory].
    + apply isIn_bound; [reflexivity | exact Hurgency].
  - left. destruct (insert_vote_inr _ _ _ _ _ _ Hins) as (z & _ & _ & ->).
    reflexivity.
  - left. unfold Db.upsert_subscription. destruct (existsb _ _); reflexivity.
Qed.

Lemma write_news_rows (d d' : Db.t) :
  write d d' ->
  Db.news d' = Db.news d
  \/ exists n : Db.news_item,
       news_wellformed n /\ Db.news d' = (Db.news d ++ [n])%list.
Proof.
  intros [deviceHash b stamp _
         | poll p option_index voter stamp d1 _ _ _ Hins
         | endpoint sub deviceHash userAgent now | endpoint
         | b stamp _ | | b stamp _]; try (left; reflexivity).
  - left. destruct (insert_vote_inr _ _ _ _ _ _ Hins) as (z & _ & _ & ->).
    reflexivity.
  - left. unfold Db.upsert_subscription. destruct (existsb _ _); reflexivity.
  - right. eexists. split; [| reflexivity].
    split; cbn [Db.news_title Db.news_description];
      apply cleanText_bounded; lia.
Qed.

End Rows.

Section Tables.

Context `{External}.

Lemma write_polls (d d' : Db.t) :
  write d d' ->
  (Db.polls d' = Db.polls d /\ Db.seq_poll d' = Db.seq_poll d)
  \/ (Db.polls d'
      = map (fun p => if Db.poll_active p =? 1 then Db.deactivate p else p)
          (Db.polls d)
      /\ Db.seq_poll d' = Db.seq_poll d)
  \/ exists p : Db.poll,
       poll_wellformed p
       /\ Db.poll_id p = Db.seq_poll d + 1
       /\ Db.polls d' = (Db.polls d ++ [p])%list
       /\ Db.seq_poll d' = Db.seq_poll d + 1.
Proof.
  intros [deviceHash b stamp _
         | poll p option_index voter stamp d1 _ _ _ Hins
         | endpoint sub deviceHash userAgent now | endpoint
         | b stamp _ | | b stamp Hvalid]; try (left; split; reflexivity).
  - left. destruct (insert_vote_inr _ _ _ _ _ _ Hins) as (z & _ & _ & ->).
    split; reflexivity.
  - left. unfold Db.upsert_subscription.
    destruct (existsb _ _); split; reflexivity.
  - right. left. split; reflexivity.
  - right. right.
    exists {| Db.poll_id := Db.seq_poll d + 1;
              Db.poll_question := cleanText (Js.or_empty (pb_question b)) 140;
              Db.poll_options_json :=
                map (fun o => cleanText (Js.or_empty o) 60)
                  (match pb_options b with Some l => l | None => [] end);
              Db.poll_active := 1; Db.poll_created_at := stamp |}.
    split; [| split; [| split]]; [| reflexivity | reflexivity | reflexivity].
    apply failed_nil in Hvalid. unfold poll_checks in Hvalid.
    inversion Hvalid as [| c1 r1 _ Hrest1]; subst.
    inversion Hrest1 as [| c2 r2 Hcount Hrest2]; subst.
    inversion Hrest2 as [| c3 r3 Heach _]; subst.
    cbn [snd] in Hcount, Heach.
    destruct (pb_options b) as [l |]; [| discriminate Hcount].
    apply andb_true_iff in Hcount. destruct Hcount as [Hlow Hhigh].
    apply Z.leb_le in Hlow, Hhigh.
    unfold poll_wellformed.
    cbn [Db.poll_question Db.poll_options_json Db.poll_active].
    rewrite length_map.
    split; [apply cleanText_bounded; lia |].
    split; [lia |].
    split; [| right; reflexivity].
    apply Forall_map, Forall_forall. intros o _.
    apply cleanText_bounded. lia.
Qed.

Lemma write_votes (d d' : Db.t) :
  write d d' ->
  Db.poll_votes d' = Db.poll_votes d
  \/ exists (p : Db.poll) (v : Db.vote),
       In p (Db.polls d)
       /\ Db.poll_active p <> 0
       /\ Db.poll_id p = Db.vote_poll_id v
       /\ 0 <= Db.vote_option_index v
          < Z.of_nat (List.length (Db.poll_options_json p))
       /\ existsb (Db.same_voter (Db.vote_poll_id v) (Db.vote_voter_hash v))
            (Db.poll_votes d) = false
       /\ Db.polls d' = Db.polls d
       /\ Db.poll_votes d' = (Db.poll_votes d ++ [v])%list.
Proof.
  intros [deviceHash b stamp _
         | poll p option_index voter stamp d1 Hfound Hactive Hrange Hins
         | endpoint sub deviceHash userAgent now | endpoint
         | b stamp _ | | b stamp _]; try (left; reflexivity).
  - right. destruct (insert_vote_inr _ _ _ _ _ _ Hins) as (z & Hint & Hex & ->).
    destruct (select_poll_id _ _ _ Hfound) as [Hid _].
    assert (z = Db.poll_id p) by congruence. subst z.
    unfold Db.select_poll in Hfound. rewrite Hint in Hfound.
    apply find_some in Hfound. destruct Hfound as [Hin _].
    exists p. eexists.
    split; [exact Hin |]. split; [exact Hactive |].
    split; [| split; [| split; [| split; reflexivity]]];
      cbn [Db.vote_poll_id Db.vote_option_index Db.vote_voter_hash];
      [reflexivity | exact Hrange | exact Hex].
  - left. unfold Db.upsert_subscription. destruct (existsb _ _); reflexivity.
Qed.

Lemma write_keeps_ideas_wellformed (d d' : Db.t) :
  write d d' ->
  Forall idea_wellformed (Db.ideas d) -> Forall idea_wellformed (Db.ideas d').
Proof.
  intros Hw Hd. destruct (write_ideas d d' Hw) as [-> | (i & Hi & ->)];
    [exact Hd |].
  apply Forall_app. split; [exact Hd | constructor; [exact Hi | constructor]].
Qed.

Lemma write_keeps_news_wellformed (d d' : Db.t) :
  write d d' ->
  Forall news_wellformed (Db.news d) -> Forall news_wellformed (Db.news d').
Proof.
  intros Hw Hd. destruct (write_news_rows d d' Hw) as [-> | (n & Hn & ->)];
    [exact Hd |].
  apply Forall_app. split; [exact Hd | constructor; [exact Hn | constructor]].
Qed.

Lemma deactivate_keeps_wellformed (p : Db.poll) :
  poll_wellformed p ->
  poll_wellformed (if Db.poll_active p =? 1 then Db.deactivate p else p).
Proof.
  intros Hp. destruct (Db.poll_active p =? 1); [| exact Hp].
  destruct Hp as (Hq & Hn & Ho & _).
  repeat split; try assumption; try apply Hn. left. reflexivity.
Qed.

Lemma deactivate_id (p : Db.poll) :
  Db.poll_id (if Db.poll_active p =? 1 then Db.deactivate p else p)
  = Db.poll_id p.
Proof. destruct (Db.poll_active p =? 1); reflexivity. Qed.

Lemma deactivate_options (p : Db.poll) :
  Db.poll_options_json (if Db.poll_active p =? 1 then Db.deactivate p else p)
  = Db.poll_options_json p.
Proof. destruct (Db.poll_active p =? 1); reflexivity. Qed.

Lemma write_keeps_polls_wellformed (d d' : Db.t) :
  write d d' ->
  Forall poll_wellformed (Db.polls d) /\ poll_ids_fresh d ->
  Forall poll_wellformed (Db.polls d') /\ poll_ids_fresh d'.
Proof.
  intros Hw (Hrows & Hnodup & Hbound). unfold poll_ids_fresh.
  destruct (write_polls d d' Hw)
    as [[-> ->] | [[-> ->] | (p & Hp & Hid & -> & ->)]].
  - repeat split; assumption.
  - rewrite map_map. split; [| split].
    + apply Forall_map. revert Hrows. apply Forall_impl.
      intros p. apply deactivate_keeps_wellformed.
    + erewrite map_ext; [exact Hnodup | exact deactivate_id].
    + apply Forall_map. revert Hbound. apply Forall_impl.
      intros p. rewrite deactivate_id. exact (fun Hp => Hp).
  - split; [| split].
    + apply Forall_app. split; [exact Hrows | constructor; [exact Hp | constructor]].
    + rewrite map_app. cbn [map]. apply NoDup_snoc; [exact Hnodup |].
      intros Hin. apply in_map_iff in Hin. destruct Hin as (q & Hq & Hin).
      rewrite Forall_forall in Hbound. specialize (Hbound q Hin). lia.
    + apply Forall_app. split.
      * revert Hbound. apply Forall_impl. intros q Hq. lia.
      * constructor; [lia | constructor].
Qed.

Lemma write_keeps_votes_in_range (d d' : Db.t) :
  write d d' ->
  Forall (vote_in_range d) (Db.poll_votes d) ->
  Forall (vote_in_range d') (Db.poll_votes d').
Proof.
  intros Hw Hd.
  assert (Hpolls : forall v, vote_in_range d v -> vote_in_range d' v).
  { intros v (p & Hin & Hid & Hrange). unfold vote_in_range.
    destruct (write_polls d d' Hw)
      as [[Heq _] | [[Heq _] | (q & _ & _ & Heq & _)]]; rewrite Heq.
    - exists p. split; [exact Hin | split; assumption].
    - exists (if Db.poll_active p =? 1 then Db.deactivate p else p).
      rewrite deactivate_id, deactivate_options.
      split; [| split; assumption].
      apply in_map_iff. exists p. split; [reflexivity | exact Hin].
    - exists p. split; [apply in_or_app; left; exact Hin |].
      split; assumption. }
  destruct (write_votes d d' Hw)
    as [-> | (p & v & Hin & _ & Hid & Hrange & _ & Hsame & ->)].
  - revert Hd. apply Forall_impl. exact Hpolls.
  - apply Forall_app. split.
    + revert Hd. apply Forall_impl. exact Hpolls.
    + constructor; [| constructor].
      unfold vote_in_range. exists p. rewrite Hsame.
      split; [exact Hin |]. split; assumption.
Qed.

End Tables.

(** X5: in every database reached by handling requests one at a time from
    the empty one, every idea row has a text of at most 500 characters,
    the status [nouveau], and as its category one of the six labels the
    route accepts or the text [[object Object]], which is what is stored
    for a category sent as an array of labels; likewise its urgency is one
    of the three labels or that text; and every news row has a title of at
    most 80 characters and a description of at most 800. *)
Theorem stored_ideas_and_news_wellformed `{External} (cfg : config) :
  forall (e : env) (history : list (option string * request)),
    let d := w_db (serve cfg e history {| w_db := Db.empty; w_log := [] |}) in
    Forall idea_wellformed (Db.ideas d)
    /\ Forall news_wellformed (Db.news d).
Proof.
  intros e history d. subst d. split.
  - apply (serve_keeps cfg e (fun d => Forall idea_wellformed (Db.ideas d)));
      [exact write_keeps_ideas_wellformed | constructor].
  - apply (serve_keeps cfg e (fun d => Forall news_wellformed (Db.news d)));
      [exact write_keeps_news_wellformed | constructor].
Qed.

Lemma stored_ideas_and_news_wellformed_witness :
  let d :=
    w_db (serve Sample.cfg Sample.world_ok
            [(Sample.device, Post_ideas Sample.idea_body 1000 1000);
             (Some "def67890", Post_ideas idea_in_arrays 2000 2000)]
            {| w_db := Db.empty; w_log := [] |}) in
  Forall idea_wellformed (Db.ideas d)
  /\ Forall news_wellformed (Db.news d).
Proof.
  exact (stored_ideas_and_news_wellformed Sample.cfg Sample.world_ok
           [(Sample.device, Post_ideas Sample.idea_body 1000 1000);
            (Some "def67890", Post_ideas idea_in_arrays 2000 2000)]).
Defined.

(** A category and an urgency sent as arrays of labels pass the
    validation, and the row holds neither label. *)
Example idea_category_as_array :
  let out :=
    run Sample.world_ok
      (handle Sample.cfg (Some "def67890")
         (Post_ideas idea_in_arrays 2000 2000))
      (Sample.start Db.empty) in
  fst out = reply 200 Ok
  /\ map (fun i => (Db.idea_category i, Db.idea_urgency i))
       (Db.ideas (w_db (snd out)))
     = [("[object Object]", "[object Object]")].
Proof. vm_compute. split; reflexivity. Qed.

(** X6: in every database reached by handling requests one at a time from
    the empty one, every poll row has a question of at most
    140 characters, between 2 and 8 options of at most 60 characters each,
    and [active] 0 or 1; poll ids are distinct and at or below the
    counter. *)
Theorem stored_polls_wellformed `{External} (cfg : config) :
  forall (e : env) (history : list (option string * request)),
    let d := w_db (serve cfg e history {| w_db := Db.empty; w_log := [] |}) in
    Forall poll_wellformed (Db.polls d) /\ poll_ids_fresh d.
Proof.
  intros e history d. subst d.
  apply (serve_keeps cfg e
           (fun d => Forall poll_wellformed (Db.polls d) /\ poll_ids_fresh d));
    [exact write_keeps_polls_wellformed |].
  repeat constructor.
Qed.

(** X7: in every database reached by handling requests one at a time from
    the empty one, every vote row is on a poll of the table
    and for one of that poll's options: the option index is at least 0 and
    below the number of options. *)
Theorem stored_votes_in_range `{External} (cfg : config) :
  forall (e : env) (history : list (option string * request)),
    let d := w_db (serve cfg e history {| w_db := Db.empty; w_log := [] |}) in
    Forall (vote_in_range d) (Db.poll_votes d).
Proof.
  intros e history d. subst d.
  apply (serve_keeps cfg e (fun d => Forall (vote_in_range d) (Db.poll_votes d)));
    [exact write_keeps_votes_in_range | constructor].
Qed.

(** ** Votes and the active poll *)

Lemma last_by_id_none {A : Type} (id : A -> Z) (keep : A -> bool)
    (rows : list A) :
  filter keep rows = [] -> Db.last_by_id id keep rows = None.
Proof.
  induction rows as [| r rows IH]; cbn [filter Db.last_by_id];
    [reflexivity |].
  destruct (keep r); [discriminate |].
  intros Hnone. rewrite (IH Hnone). reflexivity.
Qed.

Lemma last_by_id_single {A : Type} (id : A -> Z) (keep : A -> bool)
    (rows : list A) (x : A) :
  filter keep rows = [x] -> Db.last_by_id id keep rows = Some x.
Proof.
  induction rows as [| r rows IH]; cbn [filter Db.last_by_id];
    [discriminate |].
  destruct (keep r) eqn:Hr.
  - intros [= -> Hnone]. rewrite (last_by_id_none id keep rows Hnone).
    reflexivity.
  - intros Hone. rewrite (IH Hone). reflexivity.
Qed.

(** Where one poll at most is active, an active poll of the table is the
    one the poll route shows. *)
Lemma active_poll_found (d : Db.t) (q : Db.poll) :
  Forall poll_wellformed (Db.polls d) ->
  one_active_if_any d ->
  In q (Db.polls d) ->
  Db.poll_active q <> 0 ->
  Db.select_active_poll d = Some q.
Proof.
  intros Hrows Hone Hin Hactive.
  assert (Hq : (Db.poll_active q =? 1) = true).
  { rewrite Forall_forall in Hrows.
    destruct (Hrows q Hin) as (_ & _ & _ & [Hzero | Hset]);
      [contradiction | rewrite Hset; reflexivity]. }
  assert (Hkept : In q (filter (fun p => Db.poll_active p =? 1) (Db.polls d))).
  { apply filter_In. split; assumption. }
  unfold Db.select_active_poll. apply last_by_id_single.
  unfold one_active_if_any, active_count in Hone.
  destruct (filter (fun p => Db.poll_active p =? 1) (Db.polls d))
    as [| x [| y rest]].
  - destruct Hkept.
  - destruct Hkept as [<- | []]. reflexivity.
  - destruct (Db.polls d); discriminate Hone.
Qed.

(** A vote that is answered 200 has found its poll active and written its
    row. *)
Lemma post_vote_taken `{External} (e : env) (w : world) (voter : string)
    (r : vote_request) (stamp : Z) :
  status (fst (run e (post_vote voter r stamp) w)) = 200 ->
  exists q : Db.poll,
    Db.select_poll (StringToNumber (vr_id r)) (w_db w) = Some q
    /\ Db.poll_active q <> 0
    /\ Db.poll_votes (w_db (snd (run e (post_vote voter r stamp) w)))
       = (Db.poll_votes (w_db w)
          ++ [{| Db.vote_id := Db.seq_poll_votes (w_db w) + 1;
                 Db.vote_poll_id := Db.poll_id q;
                 Db.vote_option_index :=
                   integer_of (ToNumber (vr_optionIndex r));
                 Db.vote_voter_hash := voter;
                 Db.vote_created_at := stamp |}])%list.
Proof.
  unfold post_vote.
  destruct (Validator.failed (vote_checks r)); [| discriminate]. run_steps.
  destruct (Db.select_poll _ (w_db w)) as [q |] eqn:Hfound; [| discriminate].
  destruct (Z.eqb_spec (Db.poll_active q) 0) as [| Hactive]; [discriminate |].
  destruct (negb _ || _ || _); [discriminate |]. run_steps.
  case_store_fails; [discriminate |].
  destruct (Db.insert_vote _ _ _ _ _) as [err | d'] eqn:Hins; [discriminate |].
  intros _. exists q. split; [reflexivity |]. split; [exact Hactive |].
  cbn [run fst snd w_db].
  destruct (insert_vote_inr _ _ _ _ _ _ Hins) as (z & Hint & _ & ->).
  destruct (select_poll_id _ _ _ Hfound) as [Hq _].
  assert (Hz : z = Db.poll_id q) by congruence. subst z. reflexivity.
Qed.

(** C9, as amended: a vote on a poll that exists with [active = 0] gets
    the very response a vote on an absent poll gets, which is 404 once the
    body passes validation (and the validator's 400 otherwise); in both
    cases the database is left as it was.  When requests are handled one
    at a time from the empty database, a vote that is answered 200 is on
    the poll that is active then, the one the poll route shows, and its
    row is the one row written. *)
Theorem vote_inactive_poll_as_absent `{External} (cfg : config) :
  forall (e : env) (w w0 : world) (deviceHash : string) (r : vote_request)
         (stamp : Z) (p : Db.poll),
    Db.select_poll (StringToNumber (vr_id r)) (w_db w) = Some p ->
    Db.poll_active p = 0 ->
    Db.select_poll (StringToNumber (vr_id r)) (w_db w0) = None ->
    fst (run e (post_vote deviceHash r stamp) w)
    = fst (run e (post_vote deviceHash r stamp) w0)
    /\ fst (run e (post_vote deviceHash r stamp) w)
       = (if Validator.isInt 0 50 (vr_optionIndex r)
          then reply 404 (Error "Sondage introuvable")
          else reply 400 (ValidationError ["optionIndex"]))
    /\ w_db (snd (run e (post_vote deviceHash r stamp) w)) = w_db w
    /\ w_db (snd (run e (post_vote deviceHash r stamp) w0)) = w_db w0
    /\ forall (history : list (option string * request)) (voter : string)
              (r1 : vote_request) (stamp1 : Z),
         let w1 := serve cfg e history {| w_db := Db.empty; w_log := [] |} in
         let out := run e (post_vote voter r1 stamp1) w1 in
         status (fst out) = 200 ->
         exists q : Db.poll,
           Db.select_active_poll (w_db w1) = Some q
           /\ Db.select_poll (StringToNumber (vr_id r1)) (w_db w1) = Some q
           /\ Db.poll_votes (w_db (snd out))
              = (Db.poll_votes (w_db w1)
                 ++ [{| Db.vote_id := Db.seq_poll_votes (w_db w1) + 1;
                        Db.vote_poll_id := Db.poll_id q;
                        Db.vote_option_index :=
                          integer_of (ToNumber (vr_optionIndex r1));
                        Db.vote_voter_hash := voter;
                        Db.vote_created_at := stamp1 |}])%list.
Proof.
  intros e w w0 deviceHash r stamp p Hfound Hinactive Habsent.
  assert (Hrefused :
    fst (run e (post_vote deviceHash r stamp) w)
    = fst (run e (post_vote deviceHash r stamp) w0)
    /\ fst (run e (post_vote deviceHash r stamp) w)
       = (if Validator.isInt 0 50 (vr_optionIndex r)
          then reply 404 (Error "Sondage introuvable")
          else reply 400 (ValidationError ["optionIndex"]))
    /\ w_db (snd (run e (post_vote deviceHash r stamp) w)) = w_db w
    /\ w_db (snd (run e (post_vote deviceHash r stamp) w0)) = w_db w0).
  { unfold post_vote, vote_checks, Validator.failed.
    cbn [filter map fst snd].
    destruct (Validator.isInt 0 50 (vr_optionIndex r));
      cbn [negb filter map fst snd]; run_steps.
    - rewrite Hfound, Habsent, Hinactive. cbn. repeat split.
    - repeat split. }
  destruct Hrefused as (Hsame & Hanswer & Hdb & Hdb0).
  repeat (split; [assumption |]).
  intros history voter r1 stamp1 w1 out Hok. subst out.
  destruct (post_vote_taken e w1 voter r1 stamp1 Hok)
    as (q & Hq & Hactive & Hrows).
  exists q. split; [| split; assumption].
  assert (Hin : In q (Db.polls (w_db w1))).
  { unfold Db.select_poll in Hq.
    destruct (Db.as_integer _); [| discriminate].
    exact (proj1 (find_some _ _ Hq)). }
  apply active_poll_found; [| | exact Hin | exact Hactive].
  - apply (serve_keeps cfg e
             (fun d => Forall poll_wellformed (Db.polls d)
                       /\ poll_ids_fresh d));
      [exact write_keeps_polls_wellformed | repeat constructor].
  - apply serve_one_active. reflexivity.
Qed.

Lemma vote_inactive_poll_as_absent_witness :
  let inactive :=
    run Sample.world_ok (post_vote "new" vote_with_leading_zero 4000)
      Sample.after_second_poll in
  let absent :=
    run Sample.world_ok (post_vote "new" vote_with_leading_zero 4000)
      (Sample.start Db.empty) in
  fst inactive = fst absent
  /\ fst inactive = reply 404 (Error "Sondage introuvable")
  /\ w_db (snd inactive) = w_db Sample.after_second_poll
  /\ w_db (snd absent) = Db.empty
  /\ forall (history : list (option string * request)) (voter : string)
            (r1 : vote_request) (stamp1 : Z),
       let w1 :=
         serve Sample.cfg Sample.world_ok history
           {| w_db := Db.empty; w_log := [] |} in
       let out := run Sample.world_ok (post_vote voter r1 stamp1) w1 in
       status (fst out) = 200 ->
       exists q : Db.poll,
         Db.select_active_poll (w_db w1) = Some q
         /\ Db.select_poll (StringToNumber (vr_id r1)) (w_db w1) = Some q
         /\ Db.poll_votes (w_db (snd out))
            = (Db.poll_votes (w_db w1)
               ++ [{| Db.vote_id := Db.seq_poll_votes (w_db w1) + 1;
                      Db.vote_poll_id := Db.poll_id q;
                      Db.vote_option_index :=
                        integer_of (ToNumber (vr_optionIndex r1));
                      Db.vote_voter_hash := voter;
                      Db.vote_created_at := stamp1 |}])%list.
Proof.
  exact (vote_inactive_poll_as_absent Sample.cfg Sample.world_ok
           Sample.after_second_poll (Sample.start Db.empty) "new"
           vote_with_leading_zero 4000 (Db.deactivate Sample.first_poll)
           eq_refl eq_refl eq_refl).
Defined.

(** C9, the claim as stated fails: the handler reads [active] with a
    SELECT and inserts later, without looking again.  A vote on poll 1 is
    resumed up to its insert; an activation then retires poll 1 and
    publishes poll 2; the vote is resumed, answered 200, and its row is
    written on poll 1, which is not active any more. *)
Lemma vote_accepted_on_retired_poll :
  let out :=
    run_schedule Sample.world_ok [0; 1; 1; 0]%nat
      [post_vote "new" (Sample.vote_for "1" 1) 2500;
       post_admin_poll Sample.cfg_no_push Sample.admin_token
         Sample.other_poll_request 2400 2400 2400]
      Sample.after_first_vote in
  fst out = [Ret (reply 200 Ok); Ret (reply 200 Ok)]
  /\ map (fun q => (Db.poll_id q, Db.poll_active q)) (Db.polls (w_db (snd out)))
     = [(1, 0); (2, 1)]
  /\ map (fun v => (Db.vote_poll_id v, Db.vote_voter_hash v))
       (Db.poll_votes (w_db (snd out)))
     = [(1, "dev"); (1, "new")]
  /\ map (fun ev =>
            match ev with
            | Ev (GetPoll _) => "select poll"
            | Ev RunDeactivatePolls => "update polls"
            | Ev (RunInsertPoll _ _ _) => "insert poll"
            | Ev (RunInsertVote _ _ _ _) => "insert vote"
            | _ => ""
            end)
       (skipn (List.length (w_log Sample.after_first_vote))
          (w_log (snd out)))
     = ["select poll"; "update polls"; "insert poll"; "insert vote"].
Proof. vm_compute. repeat split. Qed.

(** ** Votes that are taken *)

(** X8: a well-formed vote on the active poll from a device that has no
    row on it, when the store does not fail, is answered 200 and adds
    exactly one row, for that poll, option and device; the device then
    has one row on the poll. *)
Theorem first_vote_recorded `{External} :
  forall (e : env) (w : world) (deviceHash : string) (r : vote_request)
         (stamp : Z) (p : Db.poll) (z : Z),
    Validator.failed (vote_checks r) = [] ->
    Db.select_poll (StringToNumber (vr_id r)) (w_db w) = Some p ->
    Db.poll_active p <> 0 ->
    ToNumber (vr_optionIndex r) = Js.of_Z z ->
    0 <= z < Z.of_nat (List.length (Db.poll_options_json p)) ->
    votes_of (Db.poll_id p) deviceHash (w_db w) = 0%nat ->
    store_fails e _
      (RunInsertVote (StringToNumber (vr_id r)) z deviceHash stamp) = false ->
    let out := run e (post_vote deviceHash r stamp) w in
    fst out = reply 200 Ok
    /\ Db.poll_votes (w_db (snd out))
       = (Db.poll_votes (w_db w)
          ++ [{| Db.vote_id := Db.seq_poll_votes (w_db w) + 1;
                 Db.vote_poll_id := Db.poll_id p;
                 Db.vote_option_index := z;
                 Db.vote_voter_hash := deviceHash;
                 Db.vote_created_at := stamp |}])%list
    /\ votes_of (Db.poll_id p) deviceHash (w_db (snd out)) = 1%nat.
Proof.
  intros e w deviceHash r stamp p z Hvalid Hfound Hactive Hidx Hrange Hnone
    Hstore out.
  destruct (select_poll_id _ _ _ Hfound) as [Hint Hexists].
  assert (Hfresh : existsb (Db.same_voter (Db.poll_id p) deviceHash)
                     (Db.poll_votes (w_db w)) = false).
  { destruct (existsb (Db.same_voter (Db.poll_id p) deviceHash)
                (Db.poll_votes (w_db w))) eqn:Hex; [| reflexivity].
    apply existsb_exists in Hex. destruct Hex as (v & Hin & Hv).
    unfold votes_of in Hnone.
    assert (Hfiltered : In v (filter (Db.same_voter (Db.poll_id p) deviceHash)
                                (Db.poll_votes (w_db w)))).
    { apply filter_In. split; assumption. }
    destruct (filter _ _); [destruct Hfiltered | discriminate Hnone]. }
  assert (Hrun :
    fst out = reply 200 Ok
    /\ Db.poll_votes (w_db (snd out))
       = (Db.poll_votes (w_db w)
          ++ [{| Db.vote_id := Db.seq_poll_votes (w_db w) + 1;
                 Db.vote_poll_id := Db.poll_id p;
                 Db.vote_option_index := z;
                 Db.vote_voter_hash := deviceHash;
                 Db.vote_created_at := stamp |}])%list).
  { subst out. unfold post_vote. rewrite Hvalid. run_steps. rewrite Hfound.
    destruct (Z.eqb_spec (Db.poll_active p) 0) as [Hzero | _];
      [contradiction |].
    rewrite Hidx, (option_index_accepted _ _ Hrange), integer_of_Z.
    run_steps. rewrite Hstore.
    rewrite (insert_vote_integer _ _ _ _ _ _ Hint), Hfresh, Hexists.
    cbn. split; reflexivity. }
  destruct Hrun as [Hresponse Hrows]. repeat split; try assumption.
  unfold votes_of. rewrite Hrows, filter_app, length_app.
  rewrite (existsb_false_filter _ _ Hfresh).
  cbn [filter List.length]. unfold Db.same_voter.
  cbn [Db.vote_poll_id Db.vote_voter_hash].
  rewrite Z.eqb_refl, String.eqb_refl. reflexivity.
Qed.

Lemma first_vote_recorded_witness :
  let out :=
    run Sample.world_ok (post_vote "new" (Sample.vote_for "1" 1) 2500)
      Sample.after_first_vote in
  fst out = reply 200 Ok
  /\ Db.poll_votes (w_db (snd out))
     = (Db.poll_votes (w_db Sample.after_first_vote)
        ++ [{| Db.vote_id := 2; Db.vote_poll_id := 1;
               Db.vote_option_index := 1; Db.vote_voter_hash := "new";
               Db.vote_created_at := 2500 |}])%list
  /\ votes_of 1 "new" (w_db (snd out)) = 1%nat.
Proof.
  refine (first_vote_recorded Sample.world_ok Sample.after_first_vote "new"
            (Sample.vote_for "1" 1) 2500 Sample.first_poll 1
            eq_refl eq_refl _ eq_refl _ eq_refl eq_refl).
  - vm_compute. discriminate.
  - vm_compute. split; [discriminate | reflexivity].
Defined.

(** ** The tally of the active poll *)

Lemma find_none_of_existsb {A : Type} (f : A -> bool) (l : list A) :
  existsb f l = false -> find f l = None.
Proof.
  induction l as [| x l IH]; cbn [existsb find]; [reflexivity |].
  intros Hex. apply orb_false_iff in Hex. destruct Hex as [-> Hl].
  exact (IH Hl).
Qed.

Lemma counted_update (a i : Z) (g : list (Z * Z)) :
  counted i (map (fun r => if fst r =? a then (a, snd r + 1) else r) g)
  = if (a =? i) && existsb (fun r => fst r =? a) g
    then counted i g + 1
    else counted i g.
Proof.
  unfold counted. induction g as [| [k n] g IH]; cbn [map find existsb fst snd].
  - rewrite andb_false_r. reflexivity.
  - destruct (Z.eqb_spec k a) as [-> | Hka]; cbn [fst snd orb].
    + destruct (Z.eqb_spec a i) as [-> | Hai]; cbn [andb]; [reflexivity |].
      rewrite IH. destruct (Z.eqb_spec a i); [contradiction | reflexivity].
    + destruct (Z.eqb_spec k i) as [-> | Hki].
      * destruct (Z.eqb_spec a i) as [-> | _]; [contradiction | reflexivity].
      * rewrite IH. reflexivity.
Qed.

(** Grouping counts every index as often as it occurs. *)
Lemma group_counts_counted (i : Z) (idxs : list Z) :
  counted i (Db.group_counts idxs) = Z.of_nat (count_occ Z.eq_dec idxs i).
Proof.
  induction idxs as [| a rest IH]; cbn [Db.group_counts count_occ];
    [reflexivity |].
  destruct (existsb (fun r => fst r =? a) (Db.group_counts rest)) eqn:Hex.
  - rewrite counted_update, Hex, andb_true_r, IH.
    destruct (Z.eqb_spec a i) as [-> | Hne]; destruct (Z.eq_dec _ _);
      try contradiction; lia.
  - unfold counted in *. cbn [find fst snd].
    destruct (Z.eqb_spec a i) as [-> | Hne]; destruct (Z.eq_dec _ _);
      try contradiction; try exact IH.
    rewrite (find_none_of_existsb _ _ Hex) in IH. cbn [snd]. lia.
Qed.

Lemma group_counts_keys (idxs : list Z) :
  NoDup (map fst (Db.group_counts idxs)).
Proof.
  induction idxs as [| a rest IH]; cbn [Db.group_counts]; [constructor |].
  destruct (existsb (fun r => fst r =? a) (Db.group_counts rest)) eqn:Hex.
  - rewrite map_map. erewrite map_ext; [exact IH |].
    intros [k n]. cbn [fst]. destruct (Z.eqb_spec k a); [subst |]; reflexivity.
  - cbn [map fst]. constructor; [| exact IH].
    intros Hin. apply in_map_iff in Hin. destruct Hin as ([k n] & Hk & Hin).
    cbn [fst] in Hk. subst k.
    assert (Htrue : existsb (fun r => fst r =? a) (Db.group_counts rest) = true).
    { apply existsb_exists. exists (a, n). split; [exact Hin |].
      apply Z.eqb_refl. }
    congruence.
Qed.

Lemma total_update (a : Z) (g : list (Z * Z)) :
  NoDup (map fst g) ->
  total_of (map snd (map (fun r => if fst r =? a then (a, snd r + 1) else r) g))
  = total_of (map snd g)
    + (if existsb (fun r => fst r =? a) g then 1 else 0).
Proof.
  induction g as [| [k n] g IH]; cbn [map fst snd total_of fold_right existsb];
    intros Hnd; [reflexivity |].
  inversion Hnd as [| x xs Hnotin Hrest]; subst.
  fold (total_of (map snd g)).
  fold (total_of
          (map snd (map (fun r => if fst r =? a then (a, snd r + 1) else r) g))).
  rewrite (IH Hrest).
  destruct (Z.eqb_spec k a) as [-> | Hne]; cbn [snd orb]; [| lia].
  destruct (existsb (fun r => fst r =? a) g) eqn:Hex; [| lia].
  exfalso. apply Hnotin. apply existsb_exists in Hex.
  destruct Hex as ([k n'] & Hin & Hk). apply Z.eqb_eq in Hk. cbn [fst] in Hk.
  subst k. apply in_map_iff. exists (a, n'). split; [reflexivity | exact Hin].
Qed.

(** The counts of the groups add up to the number of rows grouped. *)
Lemma group_counts_total (idxs : list Z) :
  total_of (map snd (Db.group_counts idxs)) = Z.of_nat (List.length idxs).
Proof.
  induction idxs as [| a rest IH]; cbn [Db.group_counts List.length];
    [reflexivity |].
  destruct (existsb (fun r => fst r =? a) (Db.group_counts rest)) eqn:Hex.
  - rewrite total_update, Hex, IH by apply group_counts_keys. lia.
  - cbn [map snd total_of fold_right].
    fold (total_of (map snd (Db.group_counts rest))). rewrite IH. lia.
Qed.

Lemma fold_left_total (counts : list (Z * Z)) :
  forall acc : Z,
    fold_left (fun acc r => acc + snd r) counts acc
    = acc + total_of (map snd counts).
Proof.
  induction counts as [| r counts IH]; intros acc;
    cbn [fold_left map total_of fold_right]; [lia |].
  rewrite IH. fold (total_of (map snd counts)). lia.
Qed.

Lemma count_occ_le_length (l : list Z) (i : Z) :
  (count_occ Z.eq_dec l i <= List.length l)%nat.
Proof.
  induction l as [| a l IH]; cbn [count_occ List.length]; [lia |].
  destruct (Z.eq_dec a i); lia.
Qed.

(** A share of a whole, as a percentage, is a whole number between 0 and
    100. *)
Lemma share_percent (votes total : Z) :
  0 <= votes <= total -> percentage (share votes total).
Proof.
  intros [Hlow Hhigh]. unfold share.
  destruct (Z.eqb_spec total 0) as [_ | Hne].
  { exists 0. split; [lia | reflexivity]. }
  assert (Htotal : (0 < inject_Z total)%Q).
  { change 0%Q with (inject_Z 0). rewrite <- Zlt_Qlt. lia. }
  assert (Hshare_low : (0 <= inject_Z votes / inject_Z total)%Q).
  { apply Qle_shift_div_l; [exact Htotal |]. rewrite Qmult_0_l.
    change 0%Q with (inject_Z 0). rewrite <- Zle_Qle. exact Hlow. }
  assert (Hshare_high : (inject_Z votes / inject_Z total <= inject_Z 1)%Q).
  { apply Qle_shift_div_r; [exact Htotal |]. rewrite Qmult_1_l.
    rewrite <- Zle_Qle. exact Hhigh. }
  destruct (double_le_integer _ 1 Hshare_low Hshare_high eq_refl)
    as (r & -> & Hr_low & Hr_high).
  cbn [Js.mul Js.of_Z].
  assert (Hproduct_low : (0 <= r * inject_Z 100)%Q).
  { apply Qmult_le_0_compat; [exact Hr_low | discriminate]. }
  assert (Hproduct_high : (r * inject_Z 100 <= inject_Z 100)%Q).
  { apply Qle_trans with (1 * inject_Z 100)%Q.
    - apply Qmult_le_compat_r; [exact Hr_high | discriminate].
    - rewrite Qmult_1_l. apply Qle_refl. }
  destruct (double_le_integer _ 100 Hproduct_low Hproduct_high eq_refl)
    as (r' & -> & Hlow' & Hhigh').
  cbn [Js.Math_round]. exists (Qfloor (r' + (1 # 2))).
  split; [| reflexivity]. split.
  - change 0 with (Qfloor (inject_Z 0)) at 1. apply Qfloor_resp_le.
    change (inject_Z 0) with (0 + 0)%Q. apply Qplus_le_compat.
    + exact Hlow'.
    + discriminate.
  - apply Z.le_trans with (Qfloor (inject_Z 100 + (1 # 2))); [| reflexivity].
    apply Qfloor_resp_le. apply Qplus_le_compat; [exact Hhigh' | apply Qle_refl].
Qed.

(** The quotient of the route is the rounded quotient. *)
Lemma percent_of_share (votes total : Z) :
  (if total =? 0 then Js.of_Z 0 else percent_of votes total)
  = share votes total.
Proof.
  unfold share, percent_of. destruct (Z.eqb_spec total 0) as [_ | Hne];
    [reflexivity |].
  cbn [Js.div Js.of_Z].
  destruct (Qcompare_spec (inject_Z total) 0) as [Heq | _ | _];
    try reflexivity.
  exfalso. apply Hne. unfold Qeq in Heq. cbn in Heq. lia.
Qed.

Lemma poll_results_labels (options : list string) (counts : list (Z * Z))
    (total : Z) :
  forall idx : Z, labels_of (poll_results options idx counts total) = options.
Proof.
  unfold labels_of.
  induction options as [| label rest IH]; intros idx;
    cbn [poll_results map fst]; [reflexivity |].
  rewrite IH. reflexivity.
Qed.

Lemma poll_results_nth (options : list string) (counts : list (Z * Z))
    (total : Z) :
  forall (idx : Z) (i : nat) (label : string) (votes : Z)
         (percent : Js.number),
    nth_error (poll_results options idx counts total) i
    = Some (label, votes, percent) ->
    votes = counted (idx + Z.of_nat i) counts /\ percent = share votes total.
Proof.
  induction options as [| o rest IH]; intros idx i label votes percent;
    cbn [poll_results].
  - destruct i; discriminate.
  - destruct i as [| i]; cbn [nth_error].
    + intros Heq. injection Heq as _ Hvotes Hpercent.
      rewrite Z.add_0_r. rewrite percent_of_share in Hpercent.
      unfold counted. subst votes percent.
      split; reflexivity.
    + intros Hnth. destruct (IH (idx + 1) i label votes percent Hnth)
        as [Hvotes Hpercent].
      split; [| exact Hpercent].
      rewrite Hvotes. f_equal. lia.
Qed.

Lemma poll_results_votes (options : list string) (counts : list (Z * Z))
    (total : Z) :
  forall idx : Z,
    map (fun r => snd (fst r)) (poll_results options idx counts total)
    = map (fun k => counted (idx + Z.of_nat k) counts)
        (seq 0 (List.length options)).
Proof.
  induction options as [| o rest IH]; intros idx;
    cbn [poll_results map List.length seq fst snd]; [reflexivity |].
  rewrite Z.add_0_r. f_equal.
  rewrite IH, <- seq_shift, map_map. apply map_ext. intros k.
  f_equal. lia.
Qed.

(** The answer of the poll route when a poll is active. *)
Lemma get_poll_active (e : env) (w : world) (p : Db.poll) :
  Db.select_active_poll (w_db w) = Some p ->
  fst (run e get_poll w)
  = reply 200
      (ActivePoll (Db.poll_id p) (Db.poll_question p) (Db.poll_options_json p)
         (Db.poll_created_at p)
         (poll_results (Db.poll_options_json p) 0
            (Db.select_vote_counts (Db.poll_id p) (w_db w))
            (votes_on (Db.poll_id p) (w_db w)))).
Proof.
  intros Hactive. unfold get_poll. run_steps. rewrite Hactive. run_steps.
  cbn [run fst]. rewrite fold_left_total. unfold Db.select_vote_counts.
  rewrite group_counts_total, length_map. reflexivity.
Qed.

(** X9: when a poll is active, the poll route answers 200 with one result
    per option, in the order of the options; the votes of the result at
    position [i] are the number of vote rows of that poll whose option
    index is [i]; its percentage is 0 when the poll has no vote row, and
    otherwise the share of its votes among all the vote rows of the poll,
    the quotient then its product by 100 each rounded to a binary64 number
    and the product rounded to the nearest integer; it is a whole number
    between 0 and 100. *)
Theorem poll_tally :
  forall (e : env) (w : world) (p : Db.poll),
    Db.select_active_poll (w_db w) = Some p ->
    exists results : list (string * Z * Js.number),
      fst (run e get_poll w)
      = reply 200
          (ActivePoll (Db.poll_id p) (Db.poll_question p)
             (Db.poll_options_json p) (Db.poll_created_at p) results)
      /\ labels_of results = Db.poll_options_json p
      /\ forall (i : nat) (label : string) (votes : Z) (percent : Js.number),
           nth_error results i = Some (label, votes, percent) ->
           votes = votes_for (Db.poll_id p) (Z.of_nat i) (w_db w)
           /\ percent = share votes (votes_on (Db.poll_id p) (w_db w))
           /\ percentage percent.
Proof.
  intros e w p Hactive. eexists. split; [exact (get_poll_active e w p Hactive) |].
  split; [apply poll_results_labels |].
  intros i label votes percent Hnth.
  destruct (poll_results_nth _ _ _ _ _ _ _ _ Hnth) as [Hvotes Hpercent].
  assert (Hcount : votes = votes_for (Db.poll_id p) (Z.of_nat i) (w_db w)).
  { rewrite Hvotes. unfold Db.select_vote_counts, votes_for.
    rewrite group_counts_counted. reflexivity. }
  split; [exact Hcount |]. split; [exact Hpercent |].
  rewrite Hpercent. apply share_percent. rewrite Hcount.
  unfold votes_for, votes_on.
  pose proof (count_occ_le_length
                (map Db.vote_option_index
                   (filter (fun v => Db.vote_poll_id v =? Db.poll_id p)
                      (Db.poll_votes (w_db w))))
                (Z.of_nat i)) as Hle.
  rewrite length_map in Hle. lia.
Qed.

Lemma poll_tally_witness :
  exists results : list (string * Z * Js.number),
    fst (run Sample.world_ok get_poll Sample.after_first_vote)
    = reply 200
        (ActivePoll 1 "Quel club ouvrir ?" ["Echecs"; "Robotique"] 1000 results)
    /\ labels_of results = ["Echecs"; "Robotique"]
    /\ forall (i : nat) (label : string) (votes : Z) (percent : Js.number),
         nth_error results i = Some (label, votes, percent) ->
         votes = votes_for 1 (Z.of_nat i) (w_db Sample.after_first_vote)
         /\ percent = share votes (votes_on 1 (w_db Sample.after_first_vote))
         /\ percentage percent.
Proof.
  exact (poll_tally Sample.world_ok Sample.after_first_vote Sample.first_poll
           eq_refl).
Defined.

(** The two roundings show: 23 votes out of 40 are 57.5 %, which rounds to
    58; the quotient 0.575 is stored a little below, its product by 100 is
    57.49999999999999, and the route shows 57. *)
Example share_of_23_in_40 :
  share 23 40 = Js.of_Z 57 /\ exact_share 23 40 = 58
  /\ share 1 3 = Js.of_Z 33 /\ share 2 3 = Js.of_Z 67
  /\ share 1 8 = Js.of_Z 13 /\ share 40 40 = Js.of_Z 100.
Proof. vm_compute. repeat split. Qed.

(** ** No vote is left out of the tally *)

Lemma last_by_id_In {A : Type} (id : A -> Z) (keep : A -> bool)
    (rows : list A) (r : A) :
  Db.last_by_id id keep rows = Some r -> In r rows.
Proof.
  revert r. induction rows as [| x rows IH]; intros r; cbn [Db.last_by_id].
  - discriminate.
  - destruct (Db.last_by_id id keep rows) as [r' |].
    + destruct (keep x && (id r' <? id x)); intros Heq;
        injection Heq as <-; [left; reflexivity | right; apply IH; reflexivity].
    + destruct (keep x); [| discriminate].
      intros Heq. injection Heq as <-. left. reflexivity.
Qed.

Lemma total_of_app (l1 l2 : list Z) :
  total_of (l1 ++ l2) = total_of l1 + total_of l2.
Proof.
  unfold total_of. induction l1 as [| a l1 IH]; cbn [app fold_right]; lia.
Qed.

Lemma total_of_sum (f g : nat -> Z) (l : list nat) :
  total_of (map (fun k => f k + g k) l)
  = total_of (map f l) + total_of (map g l).
Proof.
  unfold total_of. induction l as [| k l IH]; cbn [map fold_right]; lia.
Qed.

Lemma total_of_zero (l : list nat) : total_of (map (fun _ => 0) l) = 0.
Proof.
  unfold total_of. induction l as [| k l IH]; cbn [map fold_right]; lia.
Qed.

(** Among the first [n] naturals, exactly one is a given index below
    [n]. *)
Lemma total_of_indicator (a : Z) (n : nat) :
  total_of
    (map (fun k => if Z.eq_dec a (Z.of_nat k) then 1 else 0) (seq 0 n))
  = if (0 <=? a) && (a <? Z.of_nat n) then 1 else 0.
Proof.
  induction n as [| n IH].
  - cbn [seq map total_of fold_right].
    destruct (Z.leb_spec 0 a); [| reflexivity].
    destruct (Z.ltb_spec a (Z.of_nat 0)); [lia | reflexivity].
  - rewrite seq_S, map_app, total_of_app, IH. cbn [plus map].
    unfold total_of at 1. cbn [fold_right].
    destruct (Z.eq_dec a (Z.of_nat n)) as [-> | Hne].
    + destruct (Z.leb_spec 0 (Z.of_nat n)); [| lia].
      destruct (Z.ltb_spec (Z.of_nat n) (Z.of_nat n)); [lia |].
      destruct (Z.ltb_spec (Z.of_nat n) (Z.of_nat (S n))); [| lia].
      reflexivity.
    + destruct (Z.leb_spec 0 a); cbn [andb]; [| reflexivity].
      destruct (Z.ltb_spec a (Z.of_nat n));
        destruct (Z.ltb_spec a (Z.of_nat (S n))); lia.
Qed.

(** When every index of a list is below [n], counting the occurrences of
    each index below [n] counts the whole list. *)
Lemma count_all (n : nat) (l : list Z) :
  Forall (fun a => 0 <= a < Z.of_nat n) l ->
  total_of
    (map (fun k => Z.of_nat (count_occ Z.eq_dec l (Z.of_nat k))) (seq 0 n))
  = Z.of_nat (List.length l).
Proof.
  induction l as [| a l IH]; intros Hall; cbn [count_occ List.length].
  - apply total_of_zero.
  - inversion Hall as [| x xs Ha Hrest]; subst.
    erewrite map_ext with
      (g := fun k => (if Z.eq_dec a (Z.of_nat k) then 1 else 0)
                     + Z.of_nat (count_occ Z.eq_dec l (Z.of_nat k))).
    2: { intros k. destruct (Z.eq_dec a (Z.of_nat k)); lia. }
    rewrite total_of_sum, total_of_indicator, (IH Hrest).
    destruct (Z.leb_spec 0 a); [| lia].
    destruct (Z.ltb_spec a (Z.of_nat n)); [cbn [andb]; lia | lia].
Qed.

(** The votes on a poll of a table with distinct ids are for its
    options. *)
Lemma votes_of_poll_in_range (d : Db.t) (p : Db.poll) :
  NoDup (map Db.poll_id (Db.polls d)) ->
  Forall (vote_in_range d) (Db.poll_votes d) ->
  In p (Db.polls d) ->
  Forall (fun a => 0 <= a < Z.of_nat (List.length (Db.poll_options_json p)))
    (map Db.vote_option_index
       (filter (fun v => Db.vote_poll_id v =? Db.poll_id p) (Db.poll_votes d))).
Proof.
  intros Hnodup Hvotes Hp. apply Forall_forall. intros a Ha.
  apply in_map_iff in Ha. destruct Ha as (v & <- & Hv).
  apply filter_In in Hv. destruct Hv as [Hv Hid]. apply Z.eqb_eq in Hid.
  rewrite Forall_forall in Hvotes.
  destruct (Hvotes v Hv) as (q & Hq & Hqid & Hrange).
  assert (Hsame : q = p).
  { apply (NoDup_map_injective Db.poll_id (Db.polls d)); try assumption.
    congruence. }
  subst q. exact Hrange.
Qed.

(** X10: in every database reached by handling requests one at a time from
    the empty one, the answer of the poll route leaves no vote out: the
    votes of its results add up to the number of vote rows of the active
    poll. *)
Theorem poll_tally_complete `{External} (cfg : config) :
  forall (e : env) (history : list (option string * request)) (p : Db.poll),
    let w := serve cfg e history {| w_db := Db.empty; w_log := [] |} in
    Db.select_active_poll (w_db w) = Some p ->
    exists results : list (string * Z * Js.number),
      fst (run e get_poll w)
      = reply 200
          (ActivePoll (Db.poll_id p) (Db.poll_question p)
             (Db.poll_options_json p) (Db.poll_created_at p) results)
      /\ votes_listed results = votes_on (Db.poll_id p) (w_db w).
Proof.
  intros e history p w Hactive.
  eexists. split; [exact (get_poll_active e w p Hactive) |].
  assert (Hpolls : Forall poll_wellformed (Db.polls (w_db w))
                   /\ poll_ids_fresh (w_db w)).
  { apply (serve_keeps cfg e
             (fun d => Forall poll_wellformed (Db.polls d) /\ poll_ids_fresh d));
      [exact write_keeps_polls_wellformed | repeat constructor]. }
  assert (Hvotes : Forall (vote_in_range (w_db w)) (Db.poll_votes (w_db w))).
  { apply (serve_keeps cfg e
             (fun d => Forall (vote_in_range d) (Db.poll_votes d)));
      [exact write_keeps_votes_in_range | constructor]. }
  destruct Hpolls as (_ & Hnodup & _).
  unfold votes_listed. rewrite poll_results_votes.
  erewrite map_ext.
  2: { intros k. unfold Db.select_vote_counts.
       rewrite group_counts_counted, Z.add_0_l. reflexivity. }
  rewrite count_all.
  - unfold votes_on. rewrite length_map. reflexivity.
  - apply votes_of_poll_in_range; [exact Hnodup | exact Hvotes |].
    exact (last_by_id_In _ _ _ _ Hactive).
Qed.

Lemma poll_tally_complete_witness :
  exists results : list (string * Z * Js.number),
    fst (run Sample.world_ok get_poll
           (serve Sample.cfg_no_push Sample.world_ok poll_with_two_votes
              {| w_db := Db.empty; w_log := [] |}))
    = reply 200
        (ActivePoll 1 "Quel club ouvrir ?" ["Echecs"; "Robotique"] 1000 results)
    /\ votes_listed results
       = votes_on 1
           (w_db (serve Sample.cfg_no_push Sample.world_ok poll_with_two_votes
                    {| w_db := Db.empty; w_log := [] |})).
Proof.
  refine (poll_tally_complete Sample.cfg_no_push Sample.world_ok
            poll_with_two_votes Sample.first_poll _).
  vm_compute. reflexivity.
Defined.

(** ** Ideas: what a submission leaves behind *)

Lemma last_by_id_newest {A : Type} (id : A -> Z) (keep : A -> bool)
    (rows : list A) (x : A) :
  Forall (fun r => id r < id x) rows -> keep x = true ->
  Db.last_by_id id keep (rows ++ [x]) = Some x.
Proof.
  intros Hrows Hx. induction Hrows as [| r rows Hr _ IH];
    cbn [app Db.last_by_id].
  - rewrite Hx. reflexivity.
  - rewrite IH. destruct (Z.ltb_spec (id x) (id r)); [lia |].
    rewrite andb_false_r. reflexivity.
Qed.

Lemma last_by_id_skips {A : Type} (id : A -> Z) (keep : A -> bool)
    (rows : list A) (x : A) :
  keep x = false ->
  Db.last_by_id id keep (rows ++ [x]) = Db.last_by_id id keep rows.
Proof.
  intros Hx. induction rows as [| r rows IH]; cbn [app Db.last_by_id].
  - rewrite Hx. reflexivity.
  - rewrite IH. reflexivity.
Qed.

Section Ideas.

Context `{External} (cfg : config) (e : env).

Lemma write_keeps_ideas_ids_bounded (d d' : Db.t) :
  write d d' -> ideas_ids_bounded d -> ideas_ids_bounded d'.
Proof.
  unfold ideas_ids_bounded.
  intros [deviceHash b stamp Hvalid
         | poll p option_index voter stamp d1 _ _ _ Hins
         | endpoint sub deviceHash userAgent now | endpoint
         | b stamp _ | | b stamp _] Hd; try exact Hd.
  - cbn [Db.insert_idea Db.ideas Db.seq_ideas]. apply Forall_app. split.
    + revert Hd. apply Forall_impl. intros i Hi. lia.
    + constructor; [cbn [Db.idea_id]; lia | constructor].
  - destruct (insert_vote_inr _ _ _ _ _ _ Hins) as (z & _ & _ & ->).
    exact Hd.
  - unfold Db.upsert_subscription. destruct (existsb _ _); exact Hd.
Qed.

(** The counter of [ideas] stays at or above every id in use. *)
Lemma ideas_ids_bounded_reachable
    (history : list (option string * request)) :
  ideas_ids_bounded
    (w_db (serve cfg e history {| w_db := Db.empty; w_log := [] |})).
Proof.
  apply (serve_keeps cfg e ideas_ids_bounded);
    [exact write_keeps_ideas_ids_bounded | constructor].
Qed.

(** An answer 200 of the submission route comes with the insert. *)
Lemma post_ideas_accepted (w : world) (deviceHash : string) (b : ideas_body)
    (now stamp : Z) :
  status (fst (run e (post_ideas cfg deviceHash b now stamp) w)) = 200 ->
  w_db (snd (run e (post_ideas cfg deviceHash b now stamp) w))
  = Db.insert_idea (cleanText (Js.or_empty (ib_text b)) 500)
      (Js.bound_text (ib_category b)) (Js.bound_text (ib_urgency b))
      deviceHash stamp (w_db w).
Proof.
  unfold post_ideas, ideas_accept.
  destruct (Validator.failed (ideas_checks b)); [| discriminate].
  destruct (Js.nonempty _); [discriminate |]. run_steps.
  destruct (Db.select_last_idea deviceHash (w_db w)).
  - destruct (Js.lt _ _); [discriminate | reflexivity].
  - reflexivity.
Qed.

(** The most recent idea of a device after an idea is inserted. *)
Lemma select_last_idea_insert (d : Db.t) (text category urgency h : string)
    (stamp : Z) (device : string) :
  ideas_ids_bounded d ->
  Db.select_last_idea device
    (Db.insert_idea text category urgency h stamp d)
  = if (h =? device)%string then Some stamp
    else Db.select_last_idea device d.
Proof.
  intros Hd. unfold Db.select_last_idea. cbn [Db.insert_idea Db.ideas].
  destruct (h =? device)%string eqn:Hh.
  - rewrite last_by_id_newest; [reflexivity | | exact Hh].
    revert Hd. apply Forall_impl. intros i Hi. cbn [Db.idea_id]. lia.
  - rewrite last_by_id_skips; [reflexivity | exact Hh].
Qed.

(** The answer of the submission route depends on the database only
    through the most recent idea of the device. *)
Lemma post_ideas_answer (w w' : world) (deviceHash : string) (b : ideas_body)
    (now stamp : Z) :
  Db.select_last_idea deviceHash (w_db w')
  = Db.select_last_idea deviceHash (w_db w) ->
  fst (run e (post_ideas cfg deviceHash b now stamp) w')
  = fst (run e (post_ideas cfg deviceHash b now stamp) w).
Proof.
  intros Hsame. unfold post_ideas, ideas_accept.
  destruct (Validator.failed (ideas_checks b)); [| reflexivity].
  destruct (Js.nonempty _); [reflexivity |]. run_steps. rewrite Hsame.
  destruct (Db.select_last_idea deviceHash (w_db w)).
  - destruct (Js.lt _ _); reflexivity.
  - reflexivity.
Qed.

(** Inside the window the submission route answers 429 and writes
    nothing. *)
Lemma post_ideas_inside_window (w : world) (deviceHash : string)
    (b : ideas_body) (now stamp created_at : Z) :
  Validator.failed (ideas_checks b) = [] ->
  Js.trim (Js.or_empty (ib_hp b)) = "" ->
  Db.select_last_idea deviceHash (w_db w) = Some created_at ->
  Js.lt (elapsed now created_at) (cooldown_sec cfg) = true ->
  run e (post_ideas cfg deviceHash b now stamp) w
  = (reply 429
       (TooManyRequests
          (Js.Math_ceil (Js.sub (cooldown_sec cfg) (elapsed now created_at)))),
     {| w_db := w_db w; w_log := w_log w ++ [Ev (GetLastIdea deviceHash)] |})
  /\ whole_seconds
       (Js.Math_ceil (Js.sub (cooldown_sec cfg) (elapsed now created_at))).
Proof.
  intros Hvalid Hhp Hlast Hlt.
  assert (Hwhole : whole_seconds
                     (Js.Math_ceil
                        (Js.sub (cooldown_sec cfg) (elapsed now created_at)))).
  { apply ceil_positive, sub_positive;
      [apply double_is_double | apply div_is_double | exact Hlt]. }
  split; [| exact Hwhole].
  unfold post_ideas. rewrite Hvalid, Hhp.
  cbn [Js.nonempty String.eqb negb]. run_steps. rewrite Hlast.
  fold (elapsed now created_at).
  rewrite (lt_zero_positive _ (whole_seconds_positive _ Hwhole)).
  reflexivity.
Qed.

End Ideas.

(** X11: in a database reached by handling requests one at a time from the
    empty one, an accepted submission is the most recent idea of its
    device from then on, with the time it was written at, and the most
    recent idea of every other device is what it was. *)
Theorem accepted_idea_is_the_last `{External} (cfg : config) :
  forall (e : env) (history : list (option string * request))
         (deviceHash : string) (b : ideas_body) (now stamp : Z),
    let w := serve cfg e history {| w_db := Db.empty; w_log := [] |} in
    let out := run e (post_ideas cfg deviceHash b now stamp) w in
    status (fst out) = 200 ->
    Db.select_last_idea deviceHash (w_db (snd out)) = Some stamp
    /\ forall other : string,
         other <> deviceHash ->
         Db.select_last_idea other (w_db (snd out))
         = Db.select_last_idea other (w_db w).
Proof.
  intros e history deviceHash b now stamp w out Hok. subst out.
  rewrite (post_ideas_accepted cfg e w deviceHash b now stamp Hok).
  pose proof (ideas_ids_bounded_reachable cfg e history) as Hbound.
  fold w in Hbound. split.
  - rewrite select_last_idea_insert by exact Hbound.
    rewrite String.eqb_refl. reflexivity.
  - intros other Hother. rewrite select_last_idea_insert by exact Hbound.
    destruct (String.eqb_spec deviceHash other) as [-> | _];
      [contradiction | reflexivity].
Qed.

Lemma accepted_idea_is_the_last_witness :
  let w := serve Sample.cfg Sample.world_ok one_idea
             {| w_db := Db.empty; w_log := [] |} in
  let out := run Sample.world_ok
               (post_ideas Sample.cfg "dev" Sample.idea_body 2000 2000) w in
  Db.select_last_idea "dev" (w_db (snd out)) = Some 2000
  /\ forall other : string,
       other <> "dev" ->
       Db.select_last_idea other (w_db (snd out))
       = Db.select_last_idea other (w_db w).
Proof.
  refine (accepted_idea_is_the_last Sample.cfg Sample.world_ok one_idea "dev"
            Sample.idea_body 2000 2000 _).
  vm_compute. reflexivity.
Defined.

(** X12: after an accepted submission, a well-formed submission of the
    same device that comes less than the cooldown after the time the
    first was written at, the age and the cooldown being the numbers the
    server holds for them, is answered 429 with the ceiling of their
    difference as the server computes it, a whole number of seconds, and
    writes nothing; a submission of another device is answered as it would
    have been before. *)
Theorem resubmission_inside_window `{External} (cfg : config) :
  forall (e : env) (history : list (option string * request))
         (deviceHash : string) (b again : ideas_body)
         (now stamp later later_stamp : Z),
    let w := serve cfg e history {| w_db := Db.empty; w_log := [] |} in
    let out := run e (post_ideas cfg deviceHash b now stamp) w in
    status (fst out) = 200 ->
    Validator.failed (ideas_checks again) = [] ->
    Js.trim (Js.or_empty (ib_hp again)) = "" ->
    Js.lt (elapsed later stamp) (cooldown_sec cfg) = true ->
    let next :=
      run e (post_ideas cfg deviceHash again later later_stamp) (snd out) in
    let remaining :=
      Js.Math_ceil (Js.sub (cooldown_sec cfg) (elapsed later stamp)) in
    fst next = reply 429 (TooManyRequests remaining)
    /\ whole_seconds remaining
    /\ w_db (snd next) = w_db (snd out)
    /\ forall (other : string) (b' : ideas_body) (now' stamp' : Z),
         other <> deviceHash ->
         fst (run e (post_ideas cfg other b' now' stamp') (snd out))
         = fst (run e (post_ideas cfg other b' now' stamp') w).
Proof.
  intros e history deviceHash b again now stamp later later_stamp w out Hok
    Hvalid Hhp Hlt next remaining.
  pose proof (ideas_ids_bounded_reachable cfg e history) as Hbound.
  fold w in Hbound.
  assert (Hdb : w_db (snd out)
                = Db.insert_idea (cleanText (Js.or_empty (ib_text b)) 500)
                    (Js.bound_text (ib_category b))
                    (Js.bound_text (ib_urgency b))
                    deviceHash stamp (w_db w)).
  { exact (post_ideas_accepted cfg e w deviceHash b now stamp Hok). }
  assert (Hlast : Db.select_last_idea deviceHash (w_db (snd out)) = Some stamp).
  { rewrite Hdb, select_last_idea_insert by exact Hbound.
    rewrite String.eqb_refl. reflexivity. }
  subst next remaining.
  destruct (post_ideas_inside_window cfg e (snd out) deviceHash again later
              later_stamp stamp Hvalid Hhp Hlast Hlt) as [-> Hwhole].
  split; [reflexivity |]. split; [exact Hwhole |]. split; [reflexivity |].
  intros other b' now' stamp' Hother. apply post_ideas_answer.
  rewrite Hdb, select_last_idea_insert by exact Hbound.
  destruct (String.eqb_spec deviceHash other) as [-> | _];
    [contradiction | reflexivity].
Qed.

Lemma resubmission_inside_window_witness :
  let w := serve Sample.cfg Sample.world_ok one_idea
             {| w_db := Db.empty; w_log := [] |} in
  let out := run Sample.world_ok
               (post_ideas Sample.cfg "dev" Sample.idea_body 2000 2000) w in
  let next := run Sample.world_ok
                (post_ideas Sample.cfg "dev" Sample.idea_body 32500 32500)
                (snd out) in
  let remaining :=
    Js.Math_ceil (Js.sub (cooldown_sec Sample.cfg) (elapsed 32500 2000)) in
  fst next = reply 429 (TooManyRequests remaining)
  /\ whole_seconds remaining
  /\ w_db (snd next) = w_db (snd out)
  /\ forall (other : string) (b' : ideas_body) (now' stamp' : Z),
       other <> "dev" ->
       fst (run Sample.world_ok (post_ideas Sample.cfg other b' now' stamp')
              (snd out))
       = fst (run Sample.world_ok (post_ideas Sample.cfg other b' now' stamp')
                w).
Proof.
  refine (resubmission_inside_window Sample.cfg Sample.world_ok one_idea "dev"
            Sample.idea_body Sample.idea_body 2000 2000 32500 32500
            _ eq_refl eq_refl _).
  - vm_compute. reflexivity.
  - vm_compute. reflexivity.
Defined.

(** The second submission of the history above comes 30.5 seconds after
    the first: 30 seconds are asked for. *)
Example resubmission_seconds :
  Js.Math_ceil (Js.sub (cooldown_sec Sample.cfg) (elapsed 32500 2000))
  = Js.of_Z 30.
Proof. vm_compute. reflexivity. Qed.

(** ** Subscriptions: one row per endpoint *)

Lemma filter_unique {A : Type} (f : A -> string) (k : string) (l : list A)
    (r0 : A) :
  NoDup (map f l) ->
  find (fun r => (f r =? k)%string) l = Some r0 ->
  filter (fun r => (f r =? k)%string) l = [r0].
Proof.
  induction l as [| x l IH]; cbn [map find filter]; intros Hnd Hfind;
    [discriminate |].
  inversion Hnd as [| y ys Hnotin Hrest]; subst.
  destruct (String.eqb_spec (f x) k) as [Hk | Hk].
  - injection Hfind as <-. f_equal. apply existsb_false_filter.
    destruct (existsb (fun r => (f r =? k)%string) l) eqn:Hex; [| reflexivity].
    exfalso. apply Hnotin. apply existsb_exists in Hex.
    destruct Hex as (r & Hin & Hr). apply String.eqb_eq in Hr.
    rewrite Hk, <- Hr. apply in_map, Hin.
  - exact (IH Hrest Hfind).
Qed.

Lemma filter_map_same {A : Type} (keep : A -> bool) (g : A -> A)
    (l : list A) :
  (forall r, keep (g r) = keep r) ->
  filter keep (map g l) = map g (filter keep l).
Proof.
  intros Hsame. induction l as [| x l IH]; cbn [map filter]; [reflexivity |].
  rewrite Hsame. destruct (keep x); cbn [map]; rewrite IH; reflexivity.
Qed.

Lemma find_some_existsb {A : Type} (f : A -> bool) (l : list A) :
  existsb f l = true -> exists r : A, find f l = Some r.
Proof.
  induction l as [| x l IH]; cbn [existsb find]; [discriminate |].
  destruct (f x); [intros _; exists x; reflexivity | exact IH].
Qed.

Section Subscriptions.

Context `{External} (cfg : config) (e : env).

Lemma endpoints_unique_served (history : list (option string * request)) :
  forall w : world,
    endpoints_unique (w_db w) ->
    endpoints_unique (w_db (serve cfg e history w)).
Proof.
  induction history as [| [header rq] later IH]; intros w Hw; cbn [serve].
  - exact Hw.
  - apply IH. apply run_keeps; [apply exec_keeps_endpoints_unique | exact Hw].
Qed.

(** An answer 200 of the subscription route comes with the upsert. *)
Lemma post_subscribe_accepted (w : world) (deviceHash : string)
    (endpoint p256dh auth : Js.value) (userAgent : string) (now : Z) :
  status
    (fst (run e
            (post_subscribe deviceHash
               (Some {| sb_endpoint := endpoint;
                        sb_keys := Some (p256dh, auth) |})
               userAgent now) w)) = 200 ->
  w_db
    (snd (run e
            (post_subscribe deviceHash
               (Some {| sb_endpoint := endpoint;
                        sb_keys := Some (p256dh, auth) |})
               userAgent now) w))
  = Db.upsert_subscription (Js.or_empty endpoint)
      {| Db.sub_endpoint := Js.or_empty endpoint;
         Db.sub_p256dh := Js.or_empty p256dh;
         Db.sub_auth := Js.or_empty auth |}
      deviceHash (cleanText userAgent 220) now (w_db w).
Proof.
  unfold post_subscribe.
  destruct (Validator.failed (subscribe_checks _)); [| discriminate].
  reflexivity.
Qed.

(** The rows of an endpoint after an upsert on it. *)
Lemma upsert_rows_of (endpoint : string) (sub : Db.subscription)
    (deviceHash userAgent : string) (now : Z) (d : Db.t) :
  endpoints_unique d ->
  rows_of endpoint
    (Db.upsert_subscription endpoint sub deviceHash userAgent now d)
  = [{| Db.push_endpoint := endpoint; Db.push_subscription_json := sub;
        Db.push_device_hash := deviceHash; Db.push_user_agent := userAgent;
        Db.push_created_at := first_stored endpoint now d;
        Db.push_updated_at := now |}].
Proof.
  intros Hkey. unfold rows_of, first_stored, Db.upsert_subscription.
  destruct (existsb (fun r => (Db.push_endpoint r =? endpoint)%string)
              (Db.push_subscriptions d)) eqn:Hex;
    cbn [Db.set_push Db.push_subscriptions].
  - destruct (find_some_existsb _ _ Hex) as (r0 & Hfind). rewrite Hfind.
    rewrite filter_map_same.
    + rewrite (filter_unique Db.push_endpoint endpoint _ r0 Hkey Hfind).
      cbn [map]. apply find_some in Hfind. destruct Hfind as [_ Hr0].
      rewrite Hr0. reflexivity.
    + intros r. destruct (String.eqb_spec (Db.push_endpoint r) endpoint)
        as [Heq | Hne]; cbn [Db.push_endpoint].
      * apply String.eqb_refl.
      * apply String.eqb_neq, Hne.
  - rewrite (find_none_of_existsb _ _ Hex), filter_app.
    rewrite (existsb_false_filter _ _ Hex). cbn [filter Db.push_endpoint app].
    rewrite String.eqb_refl. reflexivity.
Qed.

(** An upsert leaves the rows of the other endpoints as they are. *)
Lemma upsert_rows_besides (endpoint : string) (sub : Db.subscription)
    (deviceHash userAgent : string) (now : Z) (d : Db.t) :
  rows_besides endpoint
    (Db.upsert_subscription endpoint sub deviceHash userAgent now d)
  = rows_besides endpoint d.
Proof.
  unfold rows_besides, Db.upsert_subscription.
  destruct (existsb _ (Db.push_subscriptions d));
    cbn [Db.set_push Db.push_subscriptions].
  - induction (Db.push_subscriptions d) as [| r rows IH]; cbn [map filter];
      [reflexivity |].
    destruct (String.eqb_spec (Db.push_endpoint r) endpoint) as [Heq | Hne];
      cbn [Db.push_endpoint negb].
    + rewrite String.eqb_refl. cbn [negb]. exact IH.
    + destruct (String.eqb_spec (Db.push_endpoint r) endpoint);
        [contradiction |].
      cbn [negb]. rewrite IH. reflexivity.
  - rewrite filter_app. cbn [filter Db.push_endpoint].
    rewrite String.eqb_refl. cbn [negb]. apply app_nil_r.
Qed.

End Subscriptions.

(** X13: in a database reached by handling requests one at a time from the
    empty one, an accepted subscription leaves exactly one row for its
    endpoint, with the keys, the device and the cleaned user agent of this
    request and [updated_at] the time of this request; [created_at] is the
    one the endpoint already had when it was stored before, whatever device
    had stored it, and the time of this request otherwise. The rows of the
    other endpoints are as they were. *)
Theorem subscription_upsert `{External} (cfg : config) :
  forall (e : env) (history : list (option string * request))
         (deviceHash : string) (endpoint p256dh auth : Js.value)
         (userAgent : string) (now : Z),
    let w := serve cfg e history {| w_db := Db.empty; w_log := [] |} in
    let out :=
      run e
        (post_subscribe deviceHash
           (Some {| sb_endpoint := endpoint; sb_keys := Some (p256dh, auth) |})
           userAgent now) w in
    status (fst out) = 200 ->
    rows_of (Js.or_empty endpoint) (w_db (snd out))
    = [{| Db.push_endpoint := Js.or_empty endpoint;
          Db.push_subscription_json :=
            {| Db.sub_endpoint := Js.or_empty endpoint;
               Db.sub_p256dh := Js.or_empty p256dh;
               Db.sub_auth := Js.or_empty auth |};
          Db.push_device_hash := deviceHash;
          Db.push_user_agent := cleanText userAgent 220;
          Db.push_created_at :=
            first_stored (Js.or_empty endpoint) now (w_db w);
          Db.push_updated_at := now |}]
    /\ rows_besides (Js.or_empty endpoint) (w_db (snd out))
       = rows_besides (Js.or_empty endpoint) (w_db w).
Proof.
  intros e history deviceHash endpoint p256dh auth userAgent now w out Hok.
  subst out.
  rewrite (post_subscribe_accepted e w deviceHash endpoint p256dh auth
             userAgent now Hok).
  split.
  - apply upsert_rows_of. apply endpoints_unique_served. constructor.
  - apply upsert_rows_besides.
Qed.

Lemma subscription_upsert_witness :
  let w := serve Sample.cfg Sample.world_ok one_subscription
             {| w_db := Db.empty; w_log := [] |} in
  let out :=
    run Sample.world_ok
      (post_subscribe "other-device" (subscription_of "https://push.example/a")
         "Chrome" 900) w in
  rows_of "https://push.example/a" (w_db (snd out))
  = [{| Db.push_endpoint := "https://push.example/a";
        Db.push_subscription_json :=
          {| Db.sub_endpoint := "https://push.example/a";
             Db.sub_p256dh := "p256dh-key"; Db.sub_auth := "auth-secret" |};
        Db.push_device_hash := "other-device";
        Db.push_user_agent := cleanText "Chrome" 220;
        Db.push_created_at :=
          first_stored "https://push.example/a" 900 (w_db w);
        Db.push_updated_at := 900 |}]
  /\ rows_besides "https://push.example/a" (w_db (snd out))
     = rows_besides "https://push.example/a" (w_db w).
Proof.
  refine (subscription_upsert Sample.cfg Sample.world_ok one_subscription
            "other-device" (Js.Str "https://push.example/a")
            (Js.Str "p256dh-key") (Js.Str "auth-secret") "Chrome" 900 _).
  vm_compute. reflexivity.
Defined.

(** ** Publications and the push that follows them *)

(** What the push that follows a publication leaves of the database. *)
Lemma try_auto_push_db `{External} (cfg : config) (e : env) (p : payload)
    (w : world) :
  w_db (snd (try_run e (auto_push cfg p) w))
  = if canUsePushConfig cfg && webpush_installed e
       && negb (push_throws cfg e)
    then prune_all e p (Db.push_subscriptions (w_db w)) (w_db w)
    else w_db w.
Proof.
  unfold auto_push.
  destruct (canUsePushConfig cfg) eqn:Hkeys; cbn [andb]; [| reflexivity].
  rewrite try_run_bind, try_sendPushToAll.
  destruct (push_throws cfg e) eqn:Hthrows; cbn [fst snd negb].
  - rewrite andb_false_r.
    destruct (vapidDetailsAccepted _ _ _); reflexivity.
  - rewrite andb_true_r. cbn [try_run snd].
    rewrite sendPushToAll_db, Hkeys. reflexivity.
Qed.

(** X14: a well-formed publication by an admitted administrator writes
    nothing and is left unanswered when its INSERT fails.  Otherwise it
    adds one news row, with the cleaned title and description, whether or
    not the push keys are configured, the push module is installed, the
    deliveries succeed and the deletes that follow them fail; ideas, polls
    and votes are as they were, and the only stored subscriptions that go
    are those the dispatch deleted; it is answered 200, unless the
    dispatch throws ([setVapidDetails] refuses the keys, or the SELECT of
    the subscriptions fails): the row is then written, no subscription
    goes, and the request is left unanswered. *)
Theorem news_published_whatever_push `{External} (cfg : config) :
  forall (e : env) (w : world) (token : option string) (b : news_body)
         (now stamp ts : Z),
    requireAdmin cfg token now = None ->
    Validator.failed (news_checks b) = [] ->
    let out := try_run e (post_admin_news cfg token b now stamp ts) w in
    let title := cleanText (Js.or_empty (nb_title b)) 80 in
    let description := cleanText (Js.or_empty (nb_description b)) 800 in
    let notice := {| pl_title := "Nouvelle actualite"; pl_body := title;
                     pl_url := "/#actualites"; pl_tag := "news";
                     pl_ts := ts |} in
    let subs := Db.push_subscriptions (w_db w) in
    if store_fails e _ (RunInsertNews title description stamp)
    then fst out = None /\ w_db (snd out) = w_db w
    else
      fst out = (if push_throws cfg e then None else Some (reply 200 Ok))
      /\ Db.news (w_db (snd out))
         = (Db.news (w_db w)
            ++ [{| Db.news_id := Db.seq_news (w_db w) + 1;
                   Db.news_title := title;
                   Db.news_description := description;
                   Db.news_created_at := stamp |}])%list
      /\ Db.ideas (w_db (snd out)) = Db.ideas (w_db w)
      /\ Db.polls (w_db (snd out)) = Db.polls (w_db w)
      /\ Db.poll_votes (w_db (snd out)) = Db.poll_votes (w_db w)
      /\ Db.push_subscriptions (w_db (snd out))
         = if canUsePushConfig cfg && webpush_installed e
              && negb (push_throws cfg e)
           then filter (fun r => negb (pruned_by e notice subs r)) subs
           else subs.
Proof.
  intros e w token b now stamp ts Hadmin Hvalid out title description notice
    subs.
  subst out. unfold post_admin_news. rewrite Hadmin, Hvalid.
  fold title description. try_steps.
  destruct (store_fails e _ (RunInsertNews title description stamp));
    [split; reflexivity |].
  rewrite try_run_bind. fold notice.
  match goal with
  | |- context [try_run e (auto_push cfg notice) ?w1] => set (w' := w1)
  end.
  pose proof (try_auto_push_answer cfg e notice w') as Hanswer.
  pose proof (try_auto_push_db cfg e notice w') as Hdb.
  assert (Hout :
    fst (match fst (try_run e (auto_push cfg notice) w') with
         | Some _ =>
             try_run e (Ret (reply 200 Ok))
               (snd (try_run e (auto_push cfg notice) w'))
         | None => (None, snd (try_run e (auto_push cfg notice) w'))
         end)
    = (if push_throws cfg e then None else Some (reply 200 Ok))
    /\ w_db (snd (match fst (try_run e (auto_push cfg notice) w') with
                  | Some _ =>
                      try_run e (Ret (reply 200 Ok))
                        (snd (try_run e (auto_push cfg notice) w'))
                  | None => (None, snd (try_run e (auto_push cfg notice) w'))
                  end))
       = w_db (snd (try_run e (auto_push cfg notice) w'))).
  { rewrite Hanswer. destruct (push_throws cfg e); split; reflexivity. }
  destruct Hout as [-> ->]. rewrite Hdb.
  split; [reflexivity |].
  destruct (canUsePushConfig cfg && webpush_installed e
            && negb (push_throws cfg e));
    [rewrite prune_all_table |]; subst w'; cbn; repeat split; reflexivity.
Qed.

Lemma news_published_whatever_push_witness :
  let b := {| nb_title := Js.Str "Bal de fin d'annee";
              nb_description := Js.Str "Le bal aura lieu le 20 juin." |} in
  let out :=
    try_run Sample.world_ok
      (post_admin_news Sample.cfg_bad_keys Sample.admin_token b 1000 1000 1000)
      Sample.three_subscribers in
  fst out = None
  /\ Db.news (w_db (snd out))
     = [{| Db.news_id := 1; Db.news_title := "Bal de fin d'annee";
           Db.news_description := "Le bal aura lieu le 20 juin.";
           Db.news_created_at := 1000 |}]
  /\ Db.ideas (w_db (snd out)) = Db.ideas (w_db Sample.three_subscribers)
  /\ Db.polls (w_db (snd out)) = Db.polls (w_db Sample.three_subscribers)
  /\ Db.poll_votes (w_db (snd out))
     = Db.poll_votes (w_db Sample.three_subscribers)
  /\ Db.push_subscriptions (w_db (snd out))
     = Db.push_subscriptions (w_db Sample.three_subscribers).
Proof.
  exact (news_published_whatever_push Sample.cfg_bad_keys Sample.world_ok
           Sample.three_subscribers Sample.admin_token
           {| nb_title := Js.Str "Bal de fin d'annee";
              nb_description := Js.Str "Le bal aura lieu le 20 juin." |}
           1000 1000 1000 eq_refl eq_refl).
Defined.

(** The same publication with keys that [setVapidDetails] accepts: it is
    answered 200, and the subscription whose endpoint is gone is
    deleted. *)
Example news_published_and_pushed :
  let b := {| nb_title := Js.Str "Bal de fin d'annee";
              nb_description := Js.Str "Le bal aura lieu le 20 juin." |} in
  let out :=
    try_run Sample.world_ok
      (post_admin_news Sample.cfg Sample.admin_token b 1000 1000 1000)
      Sample.three_subscribers in
  fst out = Some (reply 200 Ok)
  /\ map Db.news_title (Db.news (w_db (snd out))) = ["Bal de fin d'annee"]
  /\ map Db.push_endpoint (Db.push_subscriptions (w_db (snd out)))
     = ["https://push.example/a"; "https://push.example/c"].
Proof. vm_compute. repeat split. Qed.

(** ** The information blocks *)

Lemma info_has_keys (k : string) (rows : list Info.block) :
  Info.has k rows = existsb (fun s => (s =? k)%string) (map Info.key rows).
Proof.
  unfold Info.has. induction rows as [| r rows IH]; cbn [existsb map];
    [reflexivity |].
  rewrite IH. reflexivity.
Qed.

Lemma info_upsert_keys (b : Info.block) (rows : list Info.block) :
  Info.has (Info.key b) rows = true ->
  map Info.key (Info.upsert b rows) = map Info.key rows.
Proof.
  intros Hhas. unfold Info.upsert. rewrite Hhas. rewrite map_map.
  apply map_ext. intros r.
  destruct (Info.key r =? Info.key b)%string; reflexivity.
Qed.

(** A table with the five keys is left as it is by the seeding. *)
Lemma info_seed_ignored (rows : list Info.block) :
  (forall k : string, In k Info.keys -> Info.has k rows = true) ->
  Info.seed rows = rows.
Proof.
  intros Hkeys. unfold Info.seed.
  assert (Hall : forall b, In b Info.defaults ->
                           Info.has (Info.key b) rows = true).
  { intros b Hb. apply Hkeys.
    repeat (destruct Hb as [<- | Hb]; [cbn; tauto |]). destruct Hb. }
  induction Info.defaults as [| b bs IH]; cbn [fold_left]; [reflexivity |].
  unfold Info.insert_or_ignore at 2. rewrite (Hall b (or_introl eq_refl)).
  apply IH. intros b' Hb'. apply Hall. right. exact Hb'.
Qed.

Lemma info_has_In (k : string) (rows : list Info.block) :
  Info.has k rows = true <-> In k (map Info.key rows).
Proof.
  rewrite info_has_keys. split.
  - intros Hex. apply existsb_exists in Hex. destruct Hex as (s & Hin & Heq).
    apply String.eqb_eq in Heq. subst s. exact Hin.
  - intros Hin. apply existsb_exists. exists k.
    split; [exact Hin | apply String.eqb_refl].
Qed.

Section InfoBlocks.

Context `{External} (cfg : config).

(** An answer 200 of the route comes with the upsert, on a validated
    body. *)
Lemma post_admin_info_accepted (token : option string) (b : info_body)
    (now : Z) (rows : list Info.block) :
  status (fst (post_admin_info cfg token b now rows)) = 200 ->
  Validator.failed (info_checks b) = []
  /\ snd (post_admin_info cfg token b now rows)
     = Info.upsert
         {| Info.key := Js.bound_text (nf_key b);
            Info.text := cleanText (Js.or_empty (nf_text b)) 1200;
            Info.url := info_url (nf_url b) |}
         rows.
Proof.
  unfold post_admin_info.
  destruct (requireAdmin cfg token now) as [refused |] eqn:Hadmin.
  - cbn [fst]. intros Hstatus.
    destruct (requireAdmin_refusal cfg token now refused Hadmin); lia.
  - destruct (Validator.failed (info_checks b)); [| discriminate].
    intros _. split; reflexivity.
Qed.

Lemma post_admin_info_refused (token : option string) (b : info_body)
    (now : Z) (rows : list Info.block) :
  status (fst (post_admin_info cfg token b now rows)) <> 200 ->
  snd (post_admin_info cfg token b now rows) = rows.
Proof.
  unfold post_admin_info.
  destruct (requireAdmin cfg token now); [reflexivity |].
  destruct (Validator.failed (info_checks b)); [| reflexivity].
  cbn [fst status reply]. intros Hne. now elim Hne.
Qed.

(** The keys of the table: the five of the seeding, and after them the
    text of an object once a key has been posted as an array. *)
Lemma info_step_keys (rows : list Info.block) (ev : info_event) :
  info_keys_of rows ->
  info_keys_of (info_step cfg rows ev).
Proof.
  unfold info_keys_of.
  intros Hkeys. destruct ev as [| token b now]; cbn [info_step].
  - rewrite info_seed_ignored; [exact Hkeys |].
    intros k Hk. apply info_has_In.
    destruct Hkeys as [-> | ->]; [| apply in_or_app; left]; exact Hk.
  - destruct (Z.eq_dec
                (status (fst (post_admin_info cfg token b now rows))) 200)
      as [Hok | Hrefused].
    + destruct (post_admin_info_accepted token b now rows Hok)
        as [Hvalid ->].
      apply failed_nil in Hvalid. unfold info_checks in Hvalid.
      inversion Hvalid as [| c1 r1 Hkey _]; subst. cbn [snd] in Hkey.
      apply (isIn_bound Info.keys (nf_key b) eq_refl) in Hkey.
      destruct (Info.has (Js.bound_text (nf_key b)) rows) eqn:Hhas.
      * rewrite info_upsert_keys by exact Hhas. exact Hkeys.
      * unfold Info.upsert. cbn [Info.key]. rewrite Hhas, map_app.
        cbn [map Info.key].
        assert (Hnot : ~ In (Js.bound_text (nf_key b)) (map Info.key rows)).
        { intros Hin. apply info_has_In in Hin. congruence. }
        destruct Hkeys as [Hfive | Hsix].
        -- rewrite Hfive in *. destruct Hkey as [<- | Hkey];
             [right; reflexivity | contradiction].
        -- rewrite Hsix in *. exfalso. apply Hnot.
           destruct Hkey as [<- | Hkey];
             [apply in_or_app; right; left; reflexivity
             | apply in_or_app; left; exact Hkey].
    + rewrite (post_admin_info_refused token b now rows Hrefused).
      exact Hkeys.
Qed.

(** The table holds the five keys, in the order of the seeding, after
    every history, and at most the text of an object after them. *)
Lemma info_after_keys (history : list info_event) :
  info_keys_of (info_after cfg history).
Proof.
  unfold info_after.
  assert (Hfrom : forall rows,
             info_keys_of rows ->
             info_keys_of (fold_left (info_step cfg) history rows)).
  { induction history as [| ev later IH]; intros rows Hrows; cbn [fold_left].
    - exact Hrows.
    - apply IH, info_step_keys, Hrows. }
  apply Hfrom. left. reflexivity.
Qed.

End InfoBlocks.

Lemma block_of_from (k : string) (rows : list Info.block) :
  forall found : option (string * option string),
    fold_left
      (fun found r =>
         if (Info.key r =? k)%string then Some (Info.text r, Info.url r)
         else found)
      rows found
    = match Info.block_of k rows with
      | Some b => Some b
      | None => found
      end.
Proof.
  unfold Info.block_of.
  induction rows as [| r rows IH]; intros found; cbn [fold_left];
    [reflexivity |].
  rewrite IH. rewrite (IH (if (Info.key r =? k)%string then _ else None)).
  destruct (fold_left _ rows None); [reflexivity |].
  destruct (Info.key r =? k)%string; reflexivity.
Qed.

Lemma block_of_cons (k : string) (r : Info.block) (rows : list Info.block) :
  Info.block_of k (r :: rows)
  = match Info.block_of k rows with
    | Some b => Some b
    | None =>
        if (Info.key r =? k)%string then Some (Info.text r, Info.url r)
        else None
    end.
Proof.
  unfold Info.block_of at 1. cbn [fold_left]. apply block_of_from.
Qed.

Lemma block_of_has (k : string) (rows : list Info.block) :
  Info.has k rows = true -> Info.block_of k rows <> None.
Proof.
  unfold Info.has. induction rows as [| r rows IH]; cbn [existsb];
    [discriminate |].
  rewrite block_of_cons. intros Hhas.
  destruct (Info.block_of k rows); [discriminate |].
  destruct (Info.key r =? k)%string; [discriminate |].
  cbn [orb] in Hhas. now elim (IH Hhas).
Qed.

Lemma block_of_none (k : string) (rows : list Info.block) :
  Info.has k rows = false -> Info.block_of k rows = None.
Proof.
  intros Hhas. destruct (Info.block_of k rows) eqn:Hfound; [| reflexivity].
  destruct (Info.has k rows) eqn:Hk; [discriminate |].
  exfalso. revert Hfound. unfold Info.has in Hk.
  induction rows as [| r rows IH]; [discriminate |].
  cbn [existsb] in Hk. apply orb_false_iff in Hk. destruct Hk as [Hr Hrows].
  rewrite block_of_cons, Hr.
  destruct (Info.block_of k rows); [exact (IH Hrows) | discriminate].
Qed.

Lemma block_of_update (k : string) (b : Info.block) (rows : list Info.block) :
  Info.block_of k
    (map (fun r =>
            if (Info.key r =? Info.key b)%string
            then {| Info.key := Info.key r; Info.text := Info.text b;
                    Info.url := Info.url b |}
            else r)
       rows)
  = if (Info.key b =? k)%string && Info.has (Info.key b) rows
    then Some (Info.text b, Info.url b)
    else Info.block_of k rows.
Proof.
  induction rows as [| r rows IH]; cbn [map].
  - rewrite andb_false_r. reflexivity.
  - rewrite !block_of_cons, IH. unfold Info.has. cbn [existsb].
    fold (Info.has (Info.key b) rows).
    destruct (String.eqb_spec (Info.key r) (Info.key b)) as [Hr | Hr];
      cbn [orb Info.key Info.text Info.url].
    + rewrite andb_true_r.
      destruct (String.eqb_spec (Info.key b) k) as [Hk | Hk]; cbn [andb].
      * destruct (Info.has (Info.key b) rows) eqn:Hhas; [reflexivity |].
        rewrite <- Hk, (block_of_none _ _ Hhas), Hr, String.eqb_refl.
        reflexivity.
      * destruct (Info.block_of k rows); [reflexivity |].
        rewrite Hr. destruct (String.eqb_spec (Info.key b) k);
          [contradiction | reflexivity].
    + destruct ((Info.key b =? k)%string && Info.has (Info.key b) rows);
        reflexivity.
Qed.

(** What the public route shows of a key after an upsert. *)
Lemma block_of_upsert (k : string) (b : Info.block) (rows : list Info.block) :
  Info.block_of k (Info.upsert b rows)
  = if (Info.key b =? k)%string then Some (Info.text b, Info.url b)
    else Info.block_of k rows.
Proof.
  unfold Info.upsert.
  destruct (Info.has (Info.key b) rows) eqn:Hhas.
  - rewrite block_of_update, Hhas, andb_true_r. reflexivity.
  - unfold Info.block_of. rewrite fold_left_app. cbn [fold_left].
    destruct (Info.key b =? k)%string; reflexivity.
Qed.

(** X15: after a first start on an empty database and any sequence of
    restarts and posts to the administration route, the table holds one
    row for each of the five keys, in the order of the seeding, and at
    most one more after them, under the text of an object, which a post
    whose key is an array of known keys adds; a restart leaves the table
    as it is, so the seeding never replaces what an administrator has
    written; and the public route shows a block, never [null], for each
    of the five keys. *)
Theorem info_blocks_survive_restarts `{External} (cfg : config) :
  forall history : list info_event,
    let rows := info_after cfg history in
    (map Info.key rows = Info.keys
     \/ map Info.key rows = (Info.keys ++ ["[object Object]"])%list)
    /\ Info.seed rows = rows
    /\ map fst (get_info rows) = Info.keys
    /\ Forall (fun shown => snd shown <> None) (get_info rows).
Proof.
  intros history rows.
  pose proof (info_after_keys cfg history) as Hkeys. fold rows in Hkeys.
  assert (Hhas : forall k : string, In k Info.keys -> Info.has k rows = true).
  { intros k Hk. apply info_has_In.
    destruct Hkeys as [-> | ->]; [| apply in_or_app; left]; exact Hk. }
  split; [exact Hkeys |]. split; [exact (info_seed_ignored rows Hhas) |].
  split; [reflexivity |].
  unfold get_info. apply Forall_forall. intros shown Hshown.
  apply in_map_iff in Hshown. destruct Hshown as (k & <- & Hk). cbn [snd].
  apply block_of_has, Hhas, Hk.
Qed.

(** A key posted as an array passes the validation and adds a sixth row:
    the block of the key is not rewritten. *)
Example info_key_as_array :
  let posted :=
    {| nf_key := Js.Arr [Js.Str "jpo"];
       nf_text := Js.Str "Portes ouvertes le samedi 14 mars de 9h a 13h.";
       nf_url := Js.Null |} in
  let out :=
    post_admin_info Sample.cfg Sample.admin_token posted 1000 (Info.seed []) in
  status (fst out) = 200
  /\ map Info.key (snd out) = (Info.keys ++ ["[object Object]"])%list
  /\ get_info (snd out) = get_info (Info.seed []).
Proof. vm_compute. repeat split. Qed.

(** X16: a post to the administration route that is answered 200 makes
    the public route show, for the key posted as a string, the cleaned
    text and the trimmed link, or no link when the link posted is absent,
    null or empty, and what it shows for every other key is unchanged; a
    post whose key is an array is stored under the text of an object, and
    the public route shows what it showed. *)
Theorem info_block_round_trip `{External} (cfg : config) :
  forall (token : option string) (b : info_body) (now : Z)
         (rows : list Info.block) (k : string),
    let out := post_admin_info cfg token b now rows in
    status (fst out) = 200 ->
    Info.block_of k (snd out)
    = (if (Js.bound_text (nf_key b) =? k)%string
       then Some (cleanText (Js.or_empty (nf_text b)) 1200,
                  info_url (nf_url b))
       else Info.block_of k rows)
    /\ (forall s : string,
          nf_key b = Js.Str s -> Js.bound_text (nf_key b) = s /\ In s Info.keys)
    /\ (forall items : list Js.value,
          nf_key b = Js.Arr items ->
          Js.bound_text (nf_key b) = "[object Object]"
          /\ get_info (snd out) = get_info rows).
Proof.
  intros token b now rows k out Hok. subst out.
  destruct (post_admin_info_accepted cfg token b now rows Hok) as [Hvalid ->].
  apply failed_nil in Hvalid. unfold info_checks in Hvalid.
  inversion Hvalid as [| c1 r1 Hkey _]; subst. cbn [snd] in Hkey.
  split; [apply block_of_upsert |]. split.
  - intros s Hs. rewrite Hs in *. split; [reflexivity |].
    destruct (isIn_bound Info.keys (Js.Str s) eq_refl Hkey) as [Habs | Hin];
      [| exact Hin].
    cbn [Js.bound_text] in Habs. subst s. vm_compute in Hkey. discriminate.
  - intros items Hitems. rewrite Hitems. split; [reflexivity |].
    unfold get_info. apply map_ext_in. intros k' Hk'. f_equal.
    rewrite block_of_upsert. cbn [Info.key Js.bound_text].
    destruct (String.eqb_spec "[object Object]" k') as [<- | _];
      [| reflexivity].
    exfalso. cbn in Hk'. intuition discriminate.
Qed.

Lemma info_block_round_trip_witness :
  let out :=
    post_admin_info Sample.cfg Sample.admin_token open_days 1000
      (Info.seed []) in
  Info.block_of "jpo" (snd out)
  = Some ("Portes ouvertes le samedi 14 mars de 9h a 13h.", None)
  /\ (forall s : string,
        nf_key open_days = Js.Str s ->
        Js.bound_text (nf_key open_days) = s /\ In s Info.keys)
  /\ (forall items : list Js.value,
        nf_key open_days = Js.Arr items ->
        Js.bound_text (nf_key open_days) = "[object Object]"
        /\ get_info (snd out) = get_info (Info.seed [])).
Proof.
  exact (info_block_round_trip Sample.cfg Sample.admin_token open_days 1000
           (Info.seed []) "jpo" eq_refl).
Defined.

(** ** The daily connections *)

Lemma key_eqb_eq (k1 k2 : string * string) : key_eqb k1 k2 = true <-> k1 = k2.
Proof.
  destruct k1 as [d1 h1], k2 as [d2 h2]. unfold key_eqb. cbn [fst snd].
  rewrite andb_true_iff, !String.eqb_eq. split.
  - intros [-> ->]. reflexivity.
  - intros [= -> ->]. split; reflexivity.
Qed.

(** The keys of the table after an upsert: the key is added when it is
    not there. *)
Lemma connections_upsert_keys (d h : string) (seen : Z)
    (rows : list Connections.row) :
  map connection_key (Connections.upsert d h seen rows)
  = if existsb (fun k => key_eqb k (d, h)) (map connection_key rows)
    then map connection_key rows
    else (map connection_key rows ++ [(d, h)])%list.
Proof.
  assert (Hsame : existsb (fun k => key_eqb k (d, h)) (map connection_key rows)
                  = existsb (Connections.same d h) rows).
  { induction rows as [| r rows IH]; cbn [map existsb]; [reflexivity |].
    rewrite IH. reflexivity. }
  rewrite Hsame. unfold Connections.upsert.
  destruct (existsb (Connections.same d h) rows).
  - rewrite map_map. apply map_ext. intros r.
    destruct (Connections.same d h r); reflexivity.
  - rewrite map_app. reflexivity.
Qed.

Lemma track_keys (rows : list Connections.row) (v : visit) :
  map connection_key (track rows v)
  = if recorded v
       && negb (existsb (fun k => key_eqb k (v_day v, v_device_hash v))
                  (map connection_key rows))
    then (map connection_key rows ++ [(v_day v, v_device_hash v)])%list
    else map connection_key rows.
Proof.
  unfold track, recorded.
  destruct (v_method v =? "GET")%string; cbn [negb andb]; [| reflexivity].
  destruct (v_fails v); cbn [negb andb]; [reflexivity |].
  rewrite connections_upsert_keys.
  destruct (existsb _ (map connection_key rows)); reflexivity.
Qed.

(** The keys stay distinct, and they are those of the rows before and of
    the recorded visits. *)
Lemma connections_keys (visits : list visit) :
  forall rows : list Connections.row,
    NoDup (map connection_key rows) ->
    NoDup (map connection_key (fold_left track visits rows))
    /\ forall k : string * string,
         In k (map connection_key (fold_left track visits rows))
         <-> In k (map connection_key rows)
             \/ In k (map (fun v => (v_day v, v_device_hash v))
                        (filter recorded visits)).
Proof.
  induction visits as [| v later IH]; intros rows Hrows; cbn [fold_left].
  - split; [exact Hrows |]. intros k. cbn [filter map In]. tauto.
  - assert (Hstep : NoDup (map connection_key (track rows v))).
    { rewrite track_keys.
      destruct (recorded v); cbn [andb]; [| exact Hrows].
      destruct (existsb _ (map connection_key rows)) eqn:Hex; cbn [negb];
        [exact Hrows |].
      apply NoDup_snoc; [exact Hrows |]. intros Hin.
      assert (Htrue : existsb
                        (fun k => key_eqb k (v_day v, v_device_hash v))
                        (map connection_key rows) = true).
      { apply existsb_exists. eexists. split; [exact Hin |].
        apply key_eqb_eq. reflexivity. }
      congruence. }
    destruct (IH (track rows v) Hstep) as [Hnd Hin].
    split; [exact Hnd |]. intros k. rewrite Hin, track_keys.
    cbn [filter]. destruct (recorded v); cbn [andb map In].
    + destruct (existsb (fun k0 => key_eqb k0 (v_day v, v_device_hash v))
                  (map connection_key rows)) eqn:Hex; cbn [negb].
      * apply existsb_exists in Hex. destruct Hex as (k0 & Hk0 & Heq).
        apply key_eqb_eq in Heq. subst k0. split.
        -- tauto.
        -- intros [Hk | [<- | Hk]]; tauto.
      * rewrite in_app_iff. cbn [In]. tauto.
    + tauto.
Qed.

Example two_devices_counted :
  Connections.count "2025-03-14" (connections_after two_devices_one_day) = 2
  /\ map Connections.last_seen (connections_after two_devices_one_day)
     = [400; 500; 600].
Proof. vm_compute. split; reflexivity. Qed.

(** X17: the count of a day in the connection table is the number of
    distinct devices with a recorded visit on that day, however many
    visits each has made: the devices counted are pairwise distinct, and
    they are exactly the devices of the [GET] requests of that day whose
    statement did not fail. *)
Theorem daily_count_is_distinct_devices :
  forall (visits : list visit) (d : string),
    exists devices : list string,
      NoDup devices
      /\ (forall h : string, In h devices <-> In h (devices_on d visits))
      /\ Connections.count d (connections_after visits)
         = Z.of_nat (List.length devices).
Proof.
  intros visits d.
  destruct (connections_keys visits [] (NoDup_nil _)) as [Hnd Hin].
  fold (connections_after visits) in Hnd, Hin.
  set (rows := connections_after visits) in *.
  exists (map Connections.device_hash
            (filter (fun r => (Connections.day r =? d)%string) rows)).
  split; [| split].
  - clear Hin. induction rows as [| r rows IH]; cbn [filter map];
      [constructor |].
    cbn [map] in Hnd. inversion Hnd as [| k ks Hnotin Hrest]; subst.
    destruct (String.eqb_spec (Connections.day r) d) as [Hd | Hd];
      [| exact (IH Hrest)].
    cbn [map]. constructor; [| exact (IH Hrest)].
    intros Hdup. apply Hnotin. apply in_map_iff in Hdup.
    destruct Hdup as (r' & Hh & Hr'). apply filter_In in Hr'.
    destruct Hr' as [Hr' Hd']. apply String.eqb_eq in Hd'.
    apply in_map_iff. exists r'. split; [| exact Hr'].
    unfold connection_key. congruence.
  - intros h. unfold devices_on. rewrite !in_map_iff. split.
    + intros (r & <- & Hr). apply filter_In in Hr. destruct Hr as [Hr Hd].
      apply String.eqb_eq in Hd.
      assert (Hkey : In (connection_key r) (map connection_key rows)).
      { apply in_map, Hr. }
      apply Hin in Hkey. destruct Hkey as [[] | Hkey].
      apply in_map_iff in Hkey. destruct Hkey as (v & Hv & Hrec).
      apply filter_In in Hrec. destruct Hrec as [Hvin Hrec].
      unfold connection_key in Hv. injection Hv as Hday Hdev.
      exists v. split; [exact Hdev |]. apply filter_In.
      split; [exact Hvin |]. rewrite Hrec, Hday, Hd, String.eqb_refl.
      reflexivity.
    + intros (v & <- & Hv). apply filter_In in Hv. destruct Hv as [Hvin Hv].
      apply andb_true_iff in Hv. destruct Hv as [Hrec Hd].
      apply String.eqb_eq in Hd.
      assert (Hkey : In (v_day v, v_device_hash v) (map connection_key rows)).
      { apply Hin. right. apply in_map_iff. exists v.
        split; [reflexivity |]. apply filter_In. split; assumption. }
      apply in_map_iff in Hkey. destruct Hkey as (r & Hr & Hrin).
      unfold connection_key in Hr. injection Hr as Hday Hdev.
      exists r. split; [exact Hdev |]. apply filter_In.
      split; [exact Hrin |]. rewrite Hday, Hd. apply String.eqb_refl.
  - unfold Connections.count. rewrite length_map. reflexivity.
Qed.

(** ** The public news list *)

Lemma insert_desc_last {A : Type} (id : A -> Z) (x : A) (l : list A) :
  Forall (fun y => id x < id y) l -> insert_desc id x l = (l ++ [x])%list.
Proof.
  induction 1 as [| y rest Hy _ IH]; cbn [insert_desc app]; [reflexivity |].
  destruct (Z.ltb_spec (id y) (id x)); [lia |]. rewrite IH. reflexivity.
Qed.

(** Rows whose ids ascend are listed in reverse. *)
Lemma order_of_ascending {A : Type} (id : A -> Z) (rows : list A) :
  ascending (map id rows) -> order_by_id_desc id rows = rev rows.
Proof.
  induction rows as [| x rows IH]; cbn [map ascending]; [reflexivity |].
  intros [Hx Hrows]. cbn [order_by_id_desc fold_right rev].
  fold (order_by_id_desc id rows). rewrite (IH Hrows).
  apply insert_desc_last. apply Forall_rev.
  rewrite Forall_map in Hx. exact Hx.
Qed.

Lemma ascending_snoc (l : list Z) (z : Z) :
  ascending l -> Forall (fun y => y < z) l -> ascending (l ++ [z]).
Proof.
  induction l as [| x l IH]; cbn [app ascending]; intros Hl Hz.
  - split; [constructor | exact I].
  - destruct Hl as [Hx Hl]. inversion Hz as [| y ys Hxz Hrest]; subst.
    split; [| exact (IH Hl Hrest)].
    apply Forall_app. split; [exact Hx | constructor; [exact Hxz | constructor]].
Qed.

Section News.

Context `{External} (cfg : config) (e : env).

Lemma write_keeps_news_ids_ascending (d d' : Db.t) :
  write d d' -> news_ids_ascending d -> news_ids_ascending d'.
Proof.
  unfold news_ids_ascending.
  intros [deviceHash b stamp Hvalid
         | poll p option_index voter stamp d1 _ _ _ Hins
         | endpoint sub deviceHash userAgent now | endpoint
         | b stamp _ | | b stamp _] Hd; try exact Hd.
  - destruct (insert_vote_inr _ _ _ _ _ _ Hins) as (z & _ & _ & ->).
    exact Hd.
  - unfold Db.upsert_subscription. destruct (existsb _ _); exact Hd.
  - destruct Hd as [Hasc Hbound].
    cbn [Db.insert_news Db.news Db.seq_news]. split.
    + rewrite map_app. cbn [map Db.news_id]. apply ascending_snoc;
        [exact Hasc |].
      rewrite Forall_map. revert Hbound. apply Forall_impl. intros n Hn. lia.
    + apply Forall_app. split.
      * revert Hbound. apply Forall_impl. intros n Hn. lia.
      * constructor; [cbn [Db.news_id]; lia | constructor].
Qed.

Lemma news_ids_ascending_reachable
    (history : list (option string * request)) :
  news_ids_ascending
    (w_db (serve cfg e history {| w_db := Db.empty; w_log := [] |})).
Proof.
  apply (serve_keeps cfg e news_ids_ascending);
    [exact write_keeps_news_ids_ascending |].
  split; [exact I | constructor].
Qed.

(** The push that follows a publication leaves the news as they are. *)
Lemma auto_push_news (p : payload) (w : world) :
  Db.news (w_db (snd (run e (auto_push cfg p) w))) = Db.news (w_db w).
Proof.
  unfold auto_push. destruct (canUsePushConfig cfg) eqn:Hkeys;
    [| reflexivity].
  rewrite run_bind. cbn [run snd]. rewrite sendPushToAll_db.
  destruct (canUsePushConfig cfg && webpush_installed e); [| reflexivity].
  rewrite prune_all_table. reflexivity.
Qed.

(** The news table after an accepted publication. *)
Lemma post_admin_news_table (w : world) (token : option string)
    (b : news_body) (now stamp ts : Z) :
  requireAdmin cfg token now = None ->
  Validator.failed (news_checks b) = [] ->
  Db.news (w_db (snd (run e (post_admin_news cfg token b now stamp ts) w)))
  = (Db.news (w_db w)
     ++ [{| Db.news_id := Db.seq_news (w_db w) + 1;
            Db.news_title := cleanText (Js.or_empty (nb_title b)) 80;
            Db.news_description :=
              cleanText (Js.or_empty (nb_description b)) 800;
            Db.news_created_at := stamp |}])%list.
Proof.
  intros Hadmin Hvalid. unfold post_admin_news. rewrite Hadmin, Hvalid.
  run_steps. rewrite !run_bind. cbn [run snd]. rewrite auto_push_news.
  reflexivity.
Qed.

End News.

(** X18: in every database reached by handling requests one at a time
    from the empty one, the public news list is the thirty most recently
    published items, the most recent first; and right after a well-formed
    publication by an admitted administrator its item is the first of the
    list, followed by the 29 most recent of the items before. *)
Theorem public_news_newest_first `{External} (cfg : config) :
  forall (e : env) (history : list (option string * request))
         (token : option string) (b : news_body) (now stamp ts : Z),
    let w := serve cfg e history {| w_db := Db.empty; w_log := [] |} in
    let out := run e (post_admin_news cfg token b now stamp ts) w in
    requireAdmin cfg token now = None ->
    Validator.failed (news_checks b) = [] ->
    get_news (w_db w) = firstn 30 (rev (Db.news (w_db w)))
    /\ get_news (w_db (snd out))
       = {| Db.news_id := Db.seq_news (w_db w) + 1;
            Db.news_title := cleanText (Js.or_empty (nb_title b)) 80;
            Db.news_description :=
              cleanText (Js.or_empty (nb_description b)) 800;
            Db.news_created_at := stamp |}
         :: firstn 29 (rev (Db.news (w_db w))).
Proof.
  intros e history token b now stamp ts w out Hadmin Hvalid.
  destruct (news_ids_ascending_reachable cfg e history) as [Hasc Hbound].
  fold w in Hasc, Hbound. unfold get_news. split.
  - rewrite (order_of_ascending _ _ Hasc). reflexivity.
  - subst out.
    rewrite (post_admin_news_table cfg e w token b now stamp ts Hadmin Hvalid).
    rewrite order_of_ascending.
    + rewrite rev_app_distr. reflexivity.
    + rewrite map_app. cbn [map Db.news_id]. apply ascending_snoc;
        [exact Hasc |].
      rewrite Forall_map. revert Hbound. apply Forall_impl. intros n Hn. lia.
Qed.

Lemma public_news_newest_first_witness :
  let w := serve Sample.cfg Sample.world_ok one_news
             {| w_db := Db.empty; w_log := [] |} in
  let out := run Sample.world_ok
               (post_admin_news Sample.cfg Sample.admin_token ball
                  2000 2000 2000) w in
  get_news (w_db w) = firstn 30 (rev (Db.news (w_db w)))
  /\ get_news (w_db (snd out))
     = {| Db.news_id := Db.seq_news (w_db w) + 1;
          Db.news_title := cleanText (Js.or_empty (nb_title ball)) 80;
          Db.news_description :=
            cleanText (Js.or_empty (nb_description ball)) 800;
          Db.news_created_at := 2000 |}
       :: firstn 29 (rev (Db.news (w_db w))).
Proof.
  exact (public_news_newest_first Sample.cfg Sample.world_ok one_news
           Sample.admin_token ball 2000 2000 2000 eq_refl eq_refl).
Defined.

(** ** The service worker *)

Lemma sw_lookup_put (u u' : string) (r : Sw.response) (c : Sw.cache) :
  Sw.lookup u (Sw.put u' r c)
  = if (u' =? u)%string then Some r else Sw.lookup u c.
Proof.
  unfold Sw.lookup, Sw.put. cbn [find fst].
  destruct (String.eqb_spec u' u) as [-> | Hne]; cbn [option_map snd];
    [reflexivity |].
  f_equal. induction c as [| [k v] c IH]; cbn [filter find fst];
    [reflexivity |].
  destruct (String.eqb_spec k u') as [-> | Hk]; cbn [negb find fst].
  - destruct (String.eqb_spec u' u); [contradiction | exact IH].
  - rewrite IH. reflexivity.
Qed.

Lemma sw_match_any_put (u u' : string) (r : Sw.response) (c : Sw.caches) :
  u' <> u ->
  Sw.match_any u (Sw.put_runtime u' r c) = Sw.match_any u c.
Proof.
  intros Hne. unfold Sw.match_any, Sw.put_runtime.
  cbn [Sw.static Sw.runtime]. rewrite sw_lookup_put.
  destruct (String.eqb_spec u' u); [contradiction | reflexivity].
Qed.

(** No request changes the static cache. *)
Lemma sw_on_fetch_static (req : Sw.request) (network : option Sw.response)
    (c : Sw.caches) :
  Sw.static (snd (Sw.on_fetch req network c)) = Sw.static c.
Proof.
  unfold Sw.on_fetch.
  destruct (negb _); [reflexivity |].
  destruct (Sw.same_origin req && Sw.isHTML req).
  { destruct network; [reflexivity |].
    destruct (Sw.match_any (Sw.url req) c); [reflexivity |].
    destruct (Sw.match_any "/index.html" c); reflexivity. }
  destruct (Sw.isPublicApiGet req).
  { destruct network; [reflexivity |].
    destruct (Sw.lookup _ _); reflexivity. }
  destruct (Sw.same_origin req); [| reflexivity].
  destruct (Sw.match_any (Sw.url req) c); [reflexivity |].
  destruct network; reflexivity.
Qed.

Lemma sw_after_static (events : list (Sw.request * option Sw.response)) :
  forall c : Sw.caches, Sw.static (Sw.after events c) = Sw.static c.
Proof.
  unfold Sw.after.
  induction events as [| ev later IH]; intros c; cbn [fold_left];
    [reflexivity |].
  rewrite IH. apply sw_on_fetch_static.
Qed.

(** What a request leaves in the runtime cache for a URL. *)
Lemma sw_on_fetch_runtime (u : string) (req : Sw.request)
    (network : option Sw.response) (c : Sw.caches) :
  Sw.lookup u (Sw.runtime (snd (Sw.on_fetch req network c)))
  = Sw.lookup u (Sw.runtime c)
  \/ (Sw.method req = "GET" /\ Sw.same_origin req = true
      /\ Sw.url req = u
      /\ exists fresh : Sw.response,
           network = Some fresh
           /\ Sw.lookup u (Sw.runtime (snd (Sw.on_fetch req network c)))
              = Some fresh).
Proof.
  assert (Hput : forall fresh,
             Sw.method req = "GET" -> Sw.same_origin req = true ->
             Sw.lookup u (Sw.runtime (Sw.put_runtime (Sw.url req) fresh c))
             = Sw.lookup u (Sw.runtime c)
             \/ (Sw.method req = "GET" /\ Sw.same_origin req = true
                 /\ Sw.url req = u
                 /\ exists fresh' : Sw.response,
                      Some fresh = Some fresh'
                      /\ Sw.lookup u
                           (Sw.runtime (Sw.put_runtime (Sw.url req) fresh c))
                         = Some fresh')).
  { intros fresh Hget Horigin. cbn [Sw.put_runtime Sw.runtime].
    rewrite sw_lookup_put.
    destruct (String.eqb_spec (Sw.url req) u) as [Hu | Hu];
      [| left; reflexivity].
    right. repeat split; try assumption. exists fresh.
    split; reflexivity. }
  unfold Sw.on_fetch.
  destruct (String.eqb_spec (Sw.method req) "GET") as [Hget | Hget];
    cbn [negb]; [| left; reflexivity].
  destruct (Sw.same_origin req) eqn:Horigin; cbn [andb].
  - destruct (Sw.isHTML req).
    { destruct network as [fresh |].
      - cbn [snd]. apply Hput; [exact Hget | reflexivity].
      - destruct (Sw.match_any (Sw.url req) c); [left; reflexivity |].
        destruct (Sw.match_any "/index.html" c); left; reflexivity. }
    unfold Sw.isPublicApiGet. rewrite Horigin. cbn [andb].
    destruct (String.prefix _ _).
    { destruct network as [fresh |].
      - cbn [snd]. apply Hput; [exact Hget | reflexivity].
      - destruct (Sw.lookup (Sw.url req) (Sw.runtime c)); left; reflexivity. }
    destruct (Sw.match_any (Sw.url req) c); [left; reflexivity |].
    destruct network as [fresh |]; [| left; reflexivity].
    cbn [snd]. apply Hput; [exact Hget | reflexivity].
  - unfold Sw.isPublicApiGet. rewrite Horigin. cbn [andb]. left. reflexivity.
Qed.

(** A request with a cached answer that is neither a page nor under the
    public routes is answered with it. *)
Lemma sw_cache_first_hit (req : Sw.request) (network : option Sw.response)
    (cached : Sw.response) (c : Sw.caches) :
  Sw.method req = "GET" -> Sw.same_origin req = true ->
  Sw.isHTML req = false -> Sw.isPublicApiGet req = false ->
  Sw.match_any (Sw.url req) c = Some cached ->
  Sw.on_fetch req network c = (Sw.Responds cached, c).
Proof.
  intros Hget Horigin Hhtml Hpublic Hhit. unfold Sw.on_fetch.
  rewrite Hget, Horigin, Hhtml, Hpublic, Hhit. reflexivity.
Qed.

(** The answer cached for such a request stays as long as no page is
    requested at its URL. *)
Lemma sw_after_keeps_hit (req : Sw.request) (cached : Sw.response)
    (events : list (Sw.request * option Sw.response)) :
  Sw.same_origin req = true -> Sw.isPublicApiGet req = false ->
  Forall (fun ev => Sw.url (fst ev) = Sw.url req -> Sw.isHTML (fst ev) = false)
    events ->
  forall c : Sw.caches,
    Sw.match_any (Sw.url req) c = Some cached ->
    Sw.match_any (Sw.url req) (Sw.after events c) = Some cached.
Proof.
  intros Horigin Hpublic Hevents. unfold Sw.after.
  induction Hevents as [| [rq network] later Hev _ IH]; intros c Hhit;
    cbn [fold_left]; [exact Hhit |].
  apply IH. cbn [fst snd] in *. clear IH.
  destruct (String.eqb_spec (Sw.url rq) (Sw.url req)) as [Hsame | Hother].
  - unfold Sw.on_fetch. destruct (negb _); [exact Hhit |].
    rewrite (Hev Hsame), andb_false_r.
    assert (Hrq : Sw.isPublicApiGet rq = false).
    { unfold Sw.isPublicApiGet in *. rewrite Hsame.
      rewrite Horigin in Hpublic. cbn [andb] in Hpublic. rewrite Hpublic.
      apply andb_false_r. }
    rewrite Hrq. destruct (Sw.same_origin rq); [| exact Hhit].
    rewrite Hsame, Hhit. exact Hhit.
  - assert (Hput : forall fresh,
               Sw.match_any (Sw.url req) (Sw.put_runtime (Sw.url rq) fresh c)
               = Some cached).
    { intros fresh. rewrite sw_match_any_put; assumption. }
    unfold Sw.on_fetch. destruct (negb _); [exact Hhit |].
    destruct (Sw.same_origin rq && Sw.isHTML rq).
    { destruct network; [apply Hput |].
      destruct (Sw.match_any (Sw.url rq) c); [exact Hhit |].
      destruct (Sw.match_any "/index.html" c); exact Hhit. }
    destruct (Sw.isPublicApiGet rq).
    { destruct network; [apply Hput |].
      destruct (Sw.lookup _ _); exact Hhit. }
    destruct (Sw.same_origin rq); [| exact Hhit].
    destruct (Sw.match_any (Sw.url rq) c); [exact Hhit |].
    destruct network; [apply Hput | exact Hhit].
Qed.

(** X19: a [GET] on the worker's origin that is neither a page nor under
    [/api/public/] (a script, an image, a route of the administration)
    and that has an answer in a cache is answered with it, whatever the
    network would answer, and is never fetched again: this stays so after
    any requests among which no page is requested at the same URL. *)
Theorem sw_cached_get_never_refreshed :
  forall (req : Sw.request) (cached : Sw.response) (c : Sw.caches)
         (events : list (Sw.request * option Sw.response))
         (network : option Sw.response),
    Sw.method req = "GET" ->
    Sw.same_origin req = true ->
    Sw.isHTML req = false ->
    Sw.isPublicApiGet req = false ->
    Sw.match_any (Sw.url req) c = Some cached ->
    Forall
      (fun ev => Sw.url (fst ev) = Sw.url req -> Sw.isHTML (fst ev) = false)
      events ->
    Sw.on_fetch req network (Sw.after events c)
    = (Sw.Responds cached, Sw.after events c).
Proof.
  intros req cached c events network Hget Horigin Hhtml Hpublic Hhit Hevents.
  apply sw_cache_first_hit; try assumption.
  apply sw_after_keeps_hit; assumption.
Qed.

Lemma sw_cached_get_never_refreshed_witness :
  let first := snd (Sw.on_fetch (Sw.get "/api/stats")
                      (Some (Sw.page "ideas: 1"))
                      {| Sw.static := []; Sw.runtime := [] |}) in
  let events := [(Sw.get "/api/public/news", Some (Sw.page "news"));
                 (Sw.visit "/", None);
                 (Sw.get "/api/stats", Some (Sw.page "ideas: 2"))] in
  Sw.on_fetch (Sw.get "/api/stats") (Some (Sw.page "ideas: 3"))
    (Sw.after events first)
  = (Sw.Responds (Sw.page "ideas: 1"), Sw.after events first).
Proof.
  refine (sw_cached_get_never_refreshed (Sw.get "/api/stats")
            (Sw.page "ideas: 1")
            (snd (Sw.on_fetch (Sw.get "/api/stats")
                    (Some (Sw.page "ideas: 1"))
                    {| Sw.static := []; Sw.runtime := [] |}))
            [(Sw.get "/api/public/news", Some (Sw.page "news"));
             (Sw.visit "/", None);
             (Sw.get "/api/stats", Some (Sw.page "ideas: 2"))]
            (Some (Sw.page "ideas: 3"))
            eq_refl eq_refl eq_refl eq_refl eq_refl _).
  repeat constructor; discriminate.
Defined.

(** The runtime cache holds, for a URL under the public routes, the most
    recent answer of the network to a [GET] of it. *)
Lemma sw_runtime_last_seen (u : string) :
  String.prefix "/api/public/" (Sw.pathname u) = true ->
  forall (events : list (Sw.request * option Sw.response)) (c : Sw.caches),
    Sw.lookup u (Sw.runtime (Sw.after events c))
    = match Sw.last_seen u events with
      | Some r => Some r
      | None => Sw.lookup u (Sw.runtime c)
      end.
Proof.
  intros Hpublic. unfold Sw.after.
  induction events as [| [rq network] later IH]; intros c;
    cbn [fold_left Sw.last_seen fst snd]; [reflexivity |].
  rewrite IH. destruct (Sw.last_seen u later); [reflexivity |].
  unfold Sw.on_fetch.
  destruct (String.eqb_spec (Sw.method rq) "GET") as [Hget | Hget];
    cbn [negb andb]; [| reflexivity].
  destruct (Sw.same_origin rq) eqn:Horigin; cbn [andb].
  - assert (Hput : forall fresh,
               Sw.lookup u
                 (Sw.runtime (Sw.put_runtime (Sw.url rq) fresh c))
               = if (Sw.url rq =? u)%string then Some fresh
                 else Sw.lookup u (Sw.runtime c)).
    { intros fresh. cbn [Sw.put_runtime Sw.runtime]. apply sw_lookup_put. }
    destruct (String.eqb_spec (Sw.url rq) u) as [Hu | Hu].
    + assert (Hrq : Sw.isPublicApiGet rq = true).
      { unfold Sw.isPublicApiGet. rewrite Horigin, Hu, Hpublic. reflexivity. }
      rewrite Hrq.
      destruct (Sw.isHTML rq).
      * destruct network as [fresh |]; [cbn [snd]; apply Hput |].
        destruct (Sw.match_any (Sw.url rq) c);
          try destruct (Sw.match_any "/index.html" c); reflexivity.
      * destruct network as [fresh |]; [cbn [snd]; apply Hput |].
        destruct (Sw.lookup (Sw.url rq) (Sw.runtime c)); reflexivity.
    + destruct (Sw.isHTML rq).
      { destruct network as [fresh |]; [cbn [snd]; apply Hput |].
        destruct (Sw.match_any (Sw.url rq) c);
          try destruct (Sw.match_any "/index.html" c); reflexivity. }
      destruct (Sw.isPublicApiGet rq).
      { destruct network as [fresh |]; [cbn [snd]; apply Hput |].
        destruct (Sw.lookup (Sw.url rq) (Sw.runtime c)); reflexivity. }
      destruct (Sw.match_any (Sw.url rq) c); [reflexivity |].
      destruct network as [fresh |]; [cbn [snd]; apply Hput | reflexivity].
  - unfold Sw.isPublicApiGet. rewrite Horigin. reflexivity.
Qed.

(** X20: a [GET] under [/api/public/] that is not a page is answered with
    what the network answers when it answers; when it does not, with the
    most recent answer the network has given to a [GET] of the same URL
    since the runtime cache had none, and with 503 and the error
    [offline] when there is none. *)
Theorem sw_public_api_network_first :
  forall (req : Sw.request) (c : Sw.caches)
         (events : list (Sw.request * option Sw.response)),
    Sw.method req = "GET" ->
    Sw.isHTML req = false ->
    Sw.isPublicApiGet req = true ->
    Sw.lookup (Sw.url req) (Sw.runtime c) = None ->
    (forall fresh : Sw.response,
       fst (Sw.on_fetch req (Some fresh) (Sw.after events c))
       = Sw.Responds fresh)
    /\ fst (Sw.on_fetch req None (Sw.after events c))
       = Sw.Responds
           (match Sw.last_seen (Sw.url req) events with
            | Some r => r
            | None => Sw.offline
            end).
Proof.
  intros req c events Hget Hhtml Hpublic Hempty.
  unfold Sw.on_fetch. rewrite Hget, Hhtml, andb_false_r, Hpublic.
  cbn [negb String.eqb]. split; [reflexivity |].
  unfold Sw.isPublicApiGet in Hpublic. apply andb_true_iff in Hpublic.
  destruct Hpublic as [_ Hprefix].
  rewrite (sw_runtime_last_seen (Sw.url req) Hprefix events c), Hempty.
  destruct (Sw.last_seen (Sw.url req) events); reflexivity.
Qed.

Lemma sw_public_api_network_first_witness :
  let req := Sw.get "/api/public/poll" in
  let c := {| Sw.static := []; Sw.runtime := [] |} in
  let events := [(Sw.get "/api/public/poll", Some (Sw.page "poll 1"));
                 (Sw.get "/api/public/news", Some (Sw.page "news"));
                 (Sw.get "/api/public/poll", None)] in
  (forall fresh : Sw.response,
     fst (Sw.on_fetch req (Some fresh) (Sw.after events c))
     = Sw.Responds fresh)
  /\ fst (Sw.on_fetch req None (Sw.after events c))
     = Sw.Responds
         (match Sw.last_seen (Sw.url req) events with
          | Some r => r
          | None => Sw.offline
          end).
Proof.
  exact (sw_public_api_network_first (Sw.get "/api/public/poll")
           {| Sw.static := []; Sw.runtime := [] |}
           [(Sw.get "/api/public/poll", Some (Sw.page "poll 1"));
            (Sw.get "/api/public/news", Some (Sw.page "news"));
            (Sw.get "/api/public/poll", None)]
           eq_refl eq_refl eq_refl eq_refl).
Defined.

(** What an installation leaves in the static cache. *)
Lemma sw_install_static (network : string -> option Sw.response) (u : string) :
  forall (urls : list string) (entries : list (string * Sw.response))
         (c : Sw.cache),
    Sw.fetch_all network urls = Some entries ->
    In u urls ->
    Sw.lookup u
      (fold_left (fun c entry => Sw.put (fst entry) (snd entry) c) entries c)
    = network u.
Proof.
  assert (Hkeep : forall (urls : list string)
                         (entries : list (string * Sw.response))
                         (c : Sw.cache),
             Sw.fetch_all network urls = Some entries ->
             ~ In u urls ->
             Sw.lookup u
               (fold_left (fun c entry => Sw.put (fst entry) (snd entry) c)
                  entries c)
             = Sw.lookup u c).
  { induction urls as [| u' rest IH]; intros entries c Hall Hnotin;
      cbn [Sw.fetch_all] in Hall.
    - injection Hall as <-. reflexivity.
    - destruct (network u') as [r |]; [| discriminate].
      destruct (Sw.ok r); [| discriminate].
      destruct (Sw.fetch_all network rest) as [later |] eqn:Hrest;
        [| discriminate].
      injection Hall as <-. cbn [fold_left fst snd].
      rewrite (IH later _ eq_refl).
      + rewrite sw_lookup_put.
        destruct (String.eqb_spec u' u) as [Hu | _]; [| reflexivity].
        exfalso. apply Hnotin. left. exact Hu.
      + intros Hin. apply Hnotin. right. exact Hin. }
  induction urls as [| u' rest IH]; intros entries c Hall Hin;
    cbn [Sw.fetch_all] in Hall; [destruct Hin |].
  destruct (network u') as [r |] eqn:Hnet; [| discriminate].
  destruct (Sw.ok r); [| discriminate].
  destruct (Sw.fetch_all network rest) as [later |] eqn:Hrest;
    [| discriminate].
  injection Hall as <-. cbn [fold_left fst snd].
  destruct (in_dec string_dec u rest) as [Hrest_in | Hrest_out].
  - exact (IH later _ eq_refl Hrest_in).
  - rewrite (Hkeep rest later _ Hrest Hrest_out), sw_lookup_put.
    destruct Hin as [-> | Hin]; [| contradiction].
    rewrite String.eqb_refl. symmetry. exact Hnet.
Qed.

Lemma sw_fetch_all_answered (network : string -> option Sw.response)
    (u : string) :
  forall (urls : list string) (entries : list (string * Sw.response)),
    Sw.fetch_all network urls = Some entries ->
    In u urls ->
    exists r : Sw.response, network u = Some r.
Proof.
  induction urls as [| u' rest IH]; intros entries Hall Hin;
    cbn [Sw.fetch_all] in Hall; [destruct Hin |].
  destruct (network u') as [r |] eqn:Hnet; [| discriminate].
  destruct (Sw.ok r); [| discriminate].
  destruct (Sw.fetch_all network rest) as [later |] eqn:Hrest;
    [| discriminate].
  destruct Hin as [<- | Hin]; [exists r; exact Hnet |].
  exact (IH later eq_refl Hin).
Qed.

(** X21: once the worker is installed, a navigation on its origin that
    the network does not answer is still answered, whatever requests came
    in between: with the cached answer of its URL when there is one, and
    otherwise with the page [/index.html] as it was fetched at
    installation. *)
Theorem sw_navigation_answered_offline :
  forall (network : string -> option Sw.response) (c0 : Sw.caches)
         (events : list (Sw.request * option Sw.response))
         (req : Sw.request),
    fst (Sw.on_install network c0) = true ->
    Sw.method req = "GET" ->
    Sw.same_origin req = true ->
    Sw.isHTML req = true ->
    let c := Sw.after events (snd (Sw.on_install network c0)) in
    exists index : Sw.response,
      network "/index.html" = Some index
      /\ Sw.on_fetch req None c
         = (Sw.Responds
              (match Sw.match_any (Sw.url req) c with
               | Some cached => cached
               | None => index
               end),
            c).
Proof.
  intros network c0 events req Hinstalled Hget Horigin Hhtml c.
  unfold Sw.on_install in *.
  destruct (Sw.fetch_all network Sw.ASSETS) as [entries |] eqn:Hall;
    [| discriminate].
  assert (Hasset : In "/index.html" Sw.ASSETS).
  { right. left. reflexivity. }
  destruct (sw_fetch_all_answered network "/index.html" _ _ Hall Hasset)
    as (index & Hindex).
  exists index. split; [exact Hindex |].
  assert (Hshell : Sw.match_any "/index.html" c = Some index).
  { unfold Sw.match_any. subst c. rewrite sw_after_static.
    cbn [snd Sw.static].
    rewrite (sw_install_static network "/index.html" _ _ _ Hall Hasset).
    rewrite Hindex. reflexivity. }
  unfold Sw.on_fetch. rewrite Hget, Horigin, Hhtml. cbn [negb String.eqb andb].
  destruct (Sw.match_any (Sw.url req) c); [reflexivity |].
  rewrite Hshell. reflexivity.
Qed.

Lemma sw_navigation_answered_offline_witness :
  let network := fun u : string => Some (Sw.page u) in
  let c := Sw.after [(Sw.get "/api/public/news", Some (Sw.page "news"))]
             (snd (Sw.on_install network
                     {| Sw.static := []; Sw.runtime := [] |})) in
  exists index : Sw.response,
    network "/index.html" = Some index
    /\ Sw.on_fetch (Sw.visit "/idees") None c
       = (Sw.Responds
            (match Sw.match_any (Sw.url (Sw.visit "/idees")) c with
             | Some cached => cached
             | None => index
             end),
          c).
Proof.
  exact (sw_navigation_answered_offline (fun u : string => Some (Sw.page u))
           {| Sw.static := []; Sw.runtime := [] |}
           [(Sw.get "/api/public/news", Some (Sw.page "news"))]
           (Sw.visit "/idees") eq_refl eq_refl eq_refl eq_refl).
Defined.

(** ** A public key without its private key *)

Lemma subscribe_checks_passed (b : option subscribe_body) :
  Validator.failed (subscribe_checks b) = [] ->
  exists (endpoint p256dh auth : Js.value),
    b = Some {| sb_endpoint := endpoint; sb_keys := Some (p256dh, auth) |}.
Proof.
  destruct b as [[endpoint [[p256dh auth] |]] |]; intros Hvalid.
  - exists endpoint, p256dh, auth. reflexivity.
  - unfold Validator.failed, subscribe_checks in Hvalid.
    cbn [filter map snd negb sb_keys sb_endpoint] in Hvalid.
    destruct (Validator.string_between 10 2000 endpoint); discriminate.
  - discriminate.
Qed.

(** X22: the route that hands out the public key of the push service looks
    at the public key alone.  On a server configured with the public key
    and no private key, a browser is given the key and its subscription is
    accepted, and yet a well-formed send by an admitted administrator is
    answered 501 and no delivery is attempted. *)
Theorem public_key_served_without_private_key `{External} (cfg : config) :
  forall (e : env) (w : world) (deviceHash : string)
         (subscription : option subscribe_body) (userAgent : string)
         (now : Z) (token : option string) (b : send_body) (later ts : Z),
    Js.nonempty (VAPID_PUBLIC_KEY cfg) = true ->
    VAPID_PRIVATE_KEY cfg = "" ->
    Validator.failed (subscribe_checks subscription) = [] ->
    requireAdmin cfg token later = None ->
    Validator.failed (send_checks b) = [] ->
    let subscribed :=
      run e (post_subscribe deviceHash subscription userAgent now) w in
    let sent := run e (post_push_send cfg token b later ts) (snd subscribed) in
    get_public_key cfg = inr (VAPID_PUBLIC_KEY cfg)
    /\ fst subscribed = reply 200 Ok
    /\ fst sent = reply 501 (Error "Push non configure (VAPID_*)")
    /\ attempts (w_log (snd sent)) = attempts (w_log w).
Proof.
  intros e w deviceHash subscription userAgent now token b later ts
    Hpublic Hprivate Hsub Hadmin Hsend subscribed sent.
  assert (Hoff : canUsePushConfig cfg = false).
  { unfold canUsePushConfig. rewrite Hprivate. apply andb_false_r. }
  destruct (subscribe_checks_passed subscription Hsub)
    as (endpoint & p256dh & auth & ->).
  subst sent subscribed.
  unfold get_public_key, post_subscribe, post_push_send, sendPushToAll.
  rewrite Hpublic, Hsub, Hadmin, Hsend, Hoff. cbn [negb]. run_steps.
  cbn [run fst snd pr_disabled w_log]. rewrite attempts_app.
  cbn [attempts]. rewrite app_nil_r. repeat split.
Qed.

Lemma public_key_served_without_private_key_witness :
  let subscribed :=
    run Sample.world_ok
      (post_subscribe "dev" (subscription_of "https://push.example/a")
         "Firefox" 500)
      (Sample.start Db.empty) in
  let sent :=
    run Sample.world_ok
      (post_push_send cfg_public_key_only Sample.admin_token announcement
         1000 1000)
      (snd subscribed) in
  get_public_key cfg_public_key_only
  = inr (VAPID_PUBLIC_KEY cfg_public_key_only)
  /\ fst subscribed = reply 200 Ok
  /\ fst sent = reply 501 (Error "Push non configure (VAPID_*)")
  /\ attempts (w_log (snd sent)) = attempts (w_log (Sample.start Db.empty)).
Proof.
  exact (public_key_served_without_private_key cfg_public_key_only
           Sample.world_ok (Sample.start Db.empty) "dev"
           (subscription_of "https://push.example/a") "Firefox" 500
           Sample.admin_token announcement 1000 1000
           eq_refl eq_refl eq_refl eq_refl eq_refl).
Defined.

(** ** The key handed to the push manager *)

Lemma string_length_append (s t : string) :
  String.length (s ++ t) = (String.length s + String.length t)%nat.
Proof.
  induction s as [| c s IH]; cbn [append String.length]; [reflexivity |].
  rewrite IH. reflexivity.
Qed.

Lemma replace_all_length (c d : ascii) (s : string) :
  String.length (replace_all c d s) = String.length s.
Proof.
  induction s as [| x s IH]; cbn [replace_all String.length]; [reflexivity |].
  rewrite IH. reflexivity.
Qed.

Lemma replace_all_append (c d : ascii) (s t : string) :
  replace_all c d (s ++ t)
  = (replace_all c d s ++ replace_all c d t)%string.
Proof.
  induction s as [| x s IH]; cbn [append replace_all]; [reflexivity |].
  rewrite IH. reflexivity.
Qed.

Lemma repeat_equals_length (n : nat) : String.length (repeat_equals n) = n.
Proof.
  induction n as [| n IH]; cbn [repeat_equals String.length]; [reflexivity |].
  rewrite IH. reflexivity.
Qed.

(** Replacing a character that is not the sign [=] leaves the padding as
    it is. *)
Lemma replace_all_padding (c d : ascii) (n : nat) :
  (c =? "=")%char = false -> replace_all c d (repeat_equals n) = repeat_equals n.
Proof.
  intros Hc. induction n as [| n IH]; cbn [repeat_equals replace_all];
    [reflexivity |].
  rewrite IH, Ascii.eqb_sym, Hc. reflexivity.
Qed.

Lemma has_char_append (c : ascii) (s t : string) :
  has_char c (s ++ t) = has_char c s || has_char c t.
Proof.
  induction s as [| x s IH]; cbn [append has_char]; [reflexivity |].
  rewrite IH. apply orb_assoc.
Qed.

Lemma has_char_padding (c : ascii) (n : nat) :
  (c =? "=")%char = false -> has_char c (repeat_equals n) = false.
Proof.
  intros Hc. induction n as [| n IH]; cbn [repeat_equals has_char];
    [reflexivity |].
  rewrite IH, Ascii.eqb_sym, Hc. reflexivity.
Qed.

(** A character that is replaced by another is gone. *)
Lemma has_char_replaced (c d : ascii) (s : string) :
  (d =? c)%char = false -> has_char c (replace_all c d s) = false.
Proof.
  intros Hd. induction s as [| x s IH]; cbn [replace_all has_char];
    [reflexivity |].
  rewrite IH. destruct (Ascii.eqb_spec x c) as [-> | Hx].
  - rewrite Hd. reflexivity.
  - destruct (Ascii.eqb_spec x c); [contradiction | reflexivity].
Qed.

(** A replacement brings in no character but the one it writes. *)
Lemma has_char_kept_out (a c d : ascii) (s : string) :
  (d =? a)%char = false -> has_char a s = false ->
  has_char a (replace_all c d s) = false.
Proof.
  intros Hd. induction s as [| x s IH]; cbn [replace_all has_char];
    [reflexivity |].
  intros Hs. apply orb_false_iff in Hs. destruct Hs as [Hx Hs].
  rewrite (IH Hs). destruct (x =? c)%char; [rewrite Hd | rewrite Hx];
    reflexivity.
Qed.

(** X23: the text [urlBase64ToUint8Array] hands to [atob] is its argument
    with every [-] replaced by [+] and every [_] by [/], followed by
    fewer than four signs [=] that bring its length to a multiple of 4;
    neither [-] nor [_] is left in it. *)
Theorem base64_of_url_padded :
  forall s : string,
    exists k : nat,
      (k < 4)%nat
      /\ base64_of_url s
         = (replace_all "_" "/" (replace_all "-" "+" s)
            ++ repeat_equals k)%string
      /\ Js.length (base64_of_url s) = Js.length s + Z.of_nat k
      /\ Js.length (base64_of_url s) mod 4 = 0
      /\ has_char "-" (base64_of_url s) = false
      /\ has_char "_" (base64_of_url s) = false.
Proof.
  intros s. unfold base64_of_url.
  set (k := Z.to_nat ((4 - Js.length s mod 4) mod 4)).
  assert (Hlen : 0 <= Js.length s) by (unfold Js.length; lia).
  assert (Hk : Z.of_nat k = (4 - Js.length s mod 4) mod 4).
  { subst k. apply Z2Nat.id. apply Z.mod_pos_bound. lia. }
  assert (Hsmall : 0 <= Z.of_nat k < 4).
  { rewrite Hk. apply Z.mod_pos_bound. lia. }
  assert (Hshape :
    replace_all "_" "/" (replace_all "-" "+" (s ++ repeat_equals k))
    = (replace_all "_" "/" (replace_all "-" "+" s) ++ repeat_equals k)%string).
  { rewrite !replace_all_append, !replace_all_padding by reflexivity.
    reflexivity. }
  assert (Hlength :
    Js.length (replace_all "_" "/" (replace_all "-" "+" (s ++ repeat_equals k)))
    = Js.length s + Z.of_nat k).
  { unfold Js.length.
    rewrite !replace_all_length, string_length_append, repeat_equals_length.
    lia. }
  exists k. split; [lia |]. split; [exact Hshape |].
  split; [exact Hlength |]. split.
  - rewrite Hlength, Hk.
    pose proof (Z.mod_pos_bound (Js.length s) 4 ltac:(lia)) as Hm.
    rewrite <- Z.add_mod_idemp_l by lia.
    assert (Hcases : Js.length s mod 4 = 0 \/ Js.length s mod 4 = 1
                     \/ Js.length s mod 4 = 2 \/ Js.length s mod 4 = 3)
      by lia.
    destruct Hcases as [-> | [-> | [-> | ->]]]; reflexivity.
  - split.
    + apply has_char_kept_out; [reflexivity |].
      apply has_char_replaced. reflexivity.
    + apply has_char_replaced. reflexivity.
Qed.

(** ** The public counters *)

Section Counters.

Context `{External} (cfg : config) (e : env).

(** A dispatch touches no table but the subscriptions. *)
Lemma sendPushToAll_rows (p : payload) (w : world) :
  Db.ideas (w_db (snd (run e (sendPushToAll cfg p) w))) = Db.ideas (w_db w)
  /\ Db.poll_votes (w_db (snd (run e (sendPushToAll cfg p) w)))
     = Db.poll_votes (w_db w).
Proof.
  rewrite sendPushToAll_db.
  destruct (canUsePushConfig cfg && webpush_installed e);
    [rewrite prune_all_table |]; split; reflexivity.
Qed.

Lemma auto_push_rows (p : payload) (w : world) :
  Db.ideas (w_db (snd (run e (auto_push cfg p) w))) = Db.ideas (w_db w)
  /\ Db.poll_votes (w_db (snd (run e (auto_push cfg p) w)))
     = Db.poll_votes (w_db w).
Proof.
  unfold auto_push. destruct (canUsePushConfig cfg);
    [| split; reflexivity].
  rewrite run_bind. cbn [run snd]. apply sendPushToAll_rows.
Qed.

(** An answer 200 to a vote comes with one more row. *)
Lemma post_vote_accepted (w : world) (deviceHash : string) (r : vote_request)
    (stamp : Z) :
  status (fst (run e (post_vote deviceHash r stamp) w)) = 200 ->
  Db.ideas (w_db (snd (run e (post_vote deviceHash r stamp) w)))
  = Db.ideas (w_db w)
  /\ exists v : Db.vote,
       Db.poll_votes (w_db (snd (run e (post_vote deviceHash r stamp) w)))
       = (Db.poll_votes (w_db w) ++ [v])%list.
Proof.
  unfold post_vote.
  destruct (Validator.failed (vote_checks r)); [| discriminate]. run_steps.
  destruct (Db.select_poll _ (w_db w)) as [p |]; [| discriminate].
  destruct (Db.poll_active p =? 0); [discriminate |].
  destruct (negb _ || _ || _); [discriminate |]. run_steps.
  case_store_fails; [discriminate |].
  destruct (Db.insert_vote _ _ _ _ _) as [err | d'] eqn:Hins;
    [discriminate |].
  intros _. cbn [run snd w_db].
  destruct (insert_vote_inr _ _ _ _ _ _ Hins) as (z & _ & _ & ->).
  split; [reflexivity |]. eexists. reflexivity.
Qed.

Lemma post_subscribe_rows (w : world) (deviceHash : string)
    (b : option subscribe_body) (userAgent : string) (now : Z) :
  Db.ideas (w_db (snd (run e (post_subscribe deviceHash b userAgent now) w)))
  = Db.ideas (w_db w)
  /\ Db.poll_votes
       (w_db (snd (run e (post_subscribe deviceHash b userAgent now) w)))
     = Db.poll_votes (w_db w).
Proof.
  unfold post_subscribe.
  destruct (Validator.failed (subscribe_checks b)); [| split; reflexivity].
  destruct b as [[endpoint [[p256dh auth] |]] |]; try (split; reflexivity).
  run_steps. unfold Db.upsert_subscription.
  destruct (existsb _ _); split; reflexivity.
Qed.

Lemma post_push_send_rows (w : world) (token : option string)
    (b : send_body) (now ts : Z) :
  Db.ideas (w_db (snd (run e (post_push_send cfg token b now ts) w)))
  = Db.ideas (w_db w)
  /\ Db.poll_votes (w_db (snd (run e (post_push_send cfg token b now ts) w)))
     = Db.poll_votes (w_db w).
Proof.
  unfold post_push_send.
  destruct (requireAdmin cfg token now); [split; reflexivity |].
  destruct (Validator.failed (send_checks b)); [| split; reflexivity].
  rewrite run_bind.
  match goal with
  | |- context [run e (sendPushToAll cfg ?q) w] =>
      destruct (sendPushToAll_rows q w) as [Hideas Hvotes]
  end.
  destruct (pr_disabled _); cbn [run snd]; split; assumption.
Qed.

Lemma post_admin_news_rows (w : world) (token : option string)
    (b : news_body) (now stamp ts : Z) :
  Db.ideas (w_db (snd (run e (post_admin_news cfg token b now stamp ts) w)))
  = Db.ideas (w_db w)
  /\ Db.poll_votes
       (w_db (snd (run e (post_admin_news cfg token b now stamp ts) w)))
     = Db.poll_votes (w_db w).
Proof.
  unfold post_admin_news.
  destruct (requireAdmin cfg token now); [split; reflexivity |].
  destruct (Validator.failed (news_checks b)); [| split; reflexivity].
  rewrite !run_bind. cbn [run snd].
  match goal with
  | |- context [run e (auto_push cfg ?q) ?w1] =>
      destruct (auto_push_rows q w1) as [-> ->]
  end.
  split; reflexivity.
Qed.

Lemma post_admin_poll_rows (w : world) (token : option string)
    (b : poll_body) (now stamp ts : Z) :
  Db.ideas (w_db (snd (run e (post_admin_poll cfg token b now stamp ts) w)))
  = Db.ideas (w_db w)
  /\ Db.poll_votes
       (w_db (snd (run e (post_admin_poll cfg token b now stamp ts) w)))
     = Db.poll_votes (w_db w).
Proof.
  unfold post_admin_poll.
  destruct (requireAdmin cfg token now); [split; reflexivity |].
  destruct (Validator.failed (poll_checks b)); [| split; reflexivity].
  rewrite !run_bind. cbn [run snd].
  match goal with
  | |- context [run e (auto_push cfg ?q) ?w1] =>
      destruct (auto_push_rows q w1) as [-> ->]
  end.
  split; reflexivity.
Qed.

Lemma device_rejected (header : option string) (rejected : response) :
  resolveDeviceHash header = inl rejected -> status rejected = 400.
Proof.
  unfold resolveDeviceHash. destruct (_ || _ || _); [| discriminate].
  intros [= <-]. reflexivity.
Qed.

(** What one request adds to the two counters. *)
Lemma handle_counts (w : world) (header : option string) (rq : request) :
  get_public_stats (w_db (snd (run e (handle cfg header rq) w)))
  = (fst (get_public_stats (w_db w))
     + (if is_idea rq
           && (status (fst (run e (handle cfg header rq) w)) =? 200)
        then 1 else 0),
     snd (get_public_stats (w_db w))
     + (if is_vote rq
           && (status (fst (run e (handle cfg header rq) w)) =? 200)
        then 1 else 0)).
Proof.
  unfold get_public_stats. cbn [fst snd].
  assert (Hsame : forall d : Db.t,
             Db.ideas d = Db.ideas (w_db w)
             /\ Db.poll_votes d = Db.poll_votes (w_db w) ->
             (Z.of_nat (List.length (Db.ideas d)),
              Z.of_nat (List.length (Db.poll_votes d)))
             = (Z.of_nat (List.length (Db.ideas (w_db w))) + 0,
                Z.of_nat (List.length (Db.poll_votes (w_db w))) + 0)).
  { intros d [-> ->]. rewrite !Z.add_0_r. reflexivity. }
  unfold handle, api, device_middleware. cbn [bind].
  destruct (resolveDeviceHash header) as [rejected | deviceHash] eqn:Hdevice.
  { cbn [run fst snd]. rewrite (device_rejected header rejected Hdevice).
    cbn [Z.eqb Pos.eqb]. rewrite !andb_false_r.
    apply Hsame. split; reflexivity. }
  destruct rq as [b now stamp | | r stamp | b userAgent now | token b now ts
                 | b now | token b now stamp ts | token b now stamp ts];
    cbn [is_idea is_vote andb].
  - destruct (Z.eqb_spec
                (status (fst (run e (post_ideas cfg deviceHash b now stamp) w)))
                200) as [Hok | Hrefused].
    + rewrite (post_ideas_accepted cfg e w deviceHash b now stamp Hok).
      cbn [Db.insert_idea Db.ideas Db.poll_votes]. rewrite length_app.
      cbn [List.length]. f_equal; lia.
    + rewrite (post_ideas_refused cfg e w deviceHash b now stamp Hrefused).
      apply Hsame. split; reflexivity.
  - rewrite get_poll_db. apply Hsame. split; reflexivity.
  - destruct (Z.eqb_spec
                (status (fst (run e (post_vote deviceHash r stamp) w)))
                200) as [Hok | Hrefused].
    + destruct (post_vote_accepted w deviceHash r stamp Hok)
        as (-> & v & ->).
      rewrite length_app. cbn [List.length]. f_equal; lia.
    + rewrite (post_vote_refused e w deviceHash r stamp Hrefused).
      apply Hsame. split; reflexivity.
  - apply Hsame, post_subscribe_rows.
  - apply Hsame, post_push_send_rows.
  - rewrite post_login_db. apply Hsame. split; reflexivity.
  - apply Hsame, post_admin_news_rows.
  - apply Hsame, post_admin_poll_rows.
Qed.

(** The counters after a history, from any world. *)
Lemma serve_counts (history : list (option string * request)) :
  forall w : world,
    get_public_stats (w_db (serve cfg e history w))
    = (fst (get_public_stats (w_db w))
       + accepted is_idea history (answers cfg e history w),
       snd (get_public_stats (w_db w))
       + accepted is_vote history (answers cfg e history w)).
Proof.
  induction history as [| [header rq] later IH]; intros w;
    cbn [serve answers accepted].
  - rewrite !Z.add_0_r. destruct (get_public_stats (w_db w)); reflexivity.
  - rewrite IH, handle_counts. cbn [fst snd]. f_equal; lia.
Qed.

End Counters.

(** X24: after any history of requests handled one at a time from the
    empty database, the two public counters are the number of idea
    submissions that were answered 200 and the number of votes that were
    answered 200: every accepted one is counted once, and nothing else
    is. *)
Theorem public_counters_are_the_accepted `{External} (cfg : config) :
  forall (e : env) (history : list (option string * request)),
    let start := {| w_db := Db.empty; w_log := [] |} in
    get_public_stats (w_db (serve cfg e history start))
    = (accepted is_idea history (answers cfg e history start),
       accepted is_vote history (answers cfg e history start)).
Proof.
  intros e history start. rewrite serve_counts. reflexivity.
Qed.

Example busy_day_counted :
  get_public_stats
    (w_db (serve Sample.cfg Sample.world_ok busy_day
             {| w_db := Db.empty; w_log := [] |}))
  = (1, 1)
  /\ map status
       (answers Sample.cfg Sample.world_ok busy_day
          {| w_db := Db.empty; w_log := [] |})
     = [200; 200; 200; 409; 429].
Proof. vm_compute. split; reflexivity. Qed.

(** ** The cooldown under interleaving *)

(** X25: the cooldown is read and the idea is written in two awaited
    steps, and it does not hold across them: when two well-formed
    submissions of a device that has no idea yet are both read before
    either is written, both are answered 200 and both ideas are stored,
    however close in time they are. *)
Theorem cooldown_not_held_across_awaits `{External} (cfg : config) :
  forall (e : env) (w : world) (deviceHash : string) (b1 b2 : ideas_body)
         (now1 stamp1 now2 stamp2 : Z),
    Validator.failed (ideas_checks b1) = [] ->
    Js.trim (Js.or_empty (ib_hp b1)) = "" ->
    Validator.failed (ideas_checks b2) = [] ->
    Js.trim (Js.or_empty (ib_hp b2)) = "" ->
    Db.select_last_idea deviceHash (w_db w) = None ->
    let out :=
      run_schedule e [0; 1; 0; 1]%nat
        [post_ideas cfg deviceHash b1 now1 stamp1;
         post_ideas cfg deviceHash b2 now2 stamp2] w in
    fst out = [Ret (reply 200 Ok); Ret (reply 200 Ok)]
    /\ w_db (snd out)
       = Db.insert_idea (cleanText (Js.or_empty (ib_text b2)) 500)
           (Js.bound_text (ib_category b2)) (Js.bound_text (ib_urgency b2))
           deviceHash stamp2
           (Db.insert_idea (cleanText (Js.or_empty (ib_text b1)) 500)
              (Js.bound_text (ib_category b1)) (Js.bound_text (ib_urgency b1))
              deviceHash stamp1 (w_db w)).
Proof.
  intros e w deviceHash b1 b2 now1 stamp1 now2 stamp2 Hvalid1 Hhp1 Hvalid2
    Hhp2 Hnone out.
  subst out. unfold post_ideas, ideas_accept.
  rewrite Hvalid1, Hhp1, Hvalid2, Hhp2.
  cbn [Js.nonempty String.eqb negb bind await run_schedule resume step_world
       exec fst snd w_db w_log].
  rewrite Hnone.
  cbn [bind await run_schedule resume step_world exec fst snd w_db w_log].
  split; reflexivity.
Qed.

Lemma cooldown_not_held_across_awaits_witness :
  let out :=
    run_schedule Sample.world_ok [0; 1; 0; 1]%nat
      [post_ideas Sample.cfg "dev" Sample.idea_body 1000 1000;
       post_ideas Sample.cfg "dev" Sample.idea_body 1001 1001]
      (Sample.start Db.empty) in
  fst out = [Ret (reply 200 Ok); Ret (reply 200 Ok)]
  /\ w_db (snd out)
     = Db.insert_idea
         (cleanText (Js.or_empty (ib_text Sample.idea_body)) 500)
         (Js.bound_text (ib_category Sample.idea_body))
         (Js.bound_text (ib_urgency Sample.idea_body)) "dev" 1001
         (Db.insert_idea
            (cleanText (Js.or_empty (ib_text Sample.idea_body)) 500)
            (Js.bound_text (ib_category Sample.idea_body))
            (Js.bound_text (ib_urgency Sample.idea_body)) "dev" 1000
            (w_db (Sample.start Db.empty))).
Proof.
  exact (cooldown_not_held_across_awaits Sample.cfg Sample.world_ok
           (Sample.start Db.empty) "dev" Sample.idea_body Sample.idea_body
           1000 1000 1001 1001 eq_refl eq_refl eq_refl eq_refl eq_refl).
Defined.

(** ** Requests that are answered *)


